(** * Strategy validation pipeline: backtester, walk-forward windows and
      Monte Carlo robustness engine

    A shallow embedding of

    - [backtesting-engine.js]   (TransactionCostModel, PortfolioState),
    - [walk-forward-analysis.js] (WalkForwardConfig, PortfolioStrategyOptimizer,
      WalkForwardAnalysis.generateTimeWindows),
    - [monte-carlo-confidence.js] (BlockBootstrapSampler, ParameterPerturbation,
      PortfolioStrategySimulator, MonteCarloConfidenceEngine),
    - [portfolio-math.js] (calculateReturns),

    followed by the properties of the specification that concern them.

    Number model.  A JavaScript number is an IEEE double; here a finite
    number is an exact rational ([Q]), so that "equal within floating-point
    tolerance" becomes [==] on [Q].  The modelled code can also manufacture
    [NaN] (by adding the [undefined] field of a non-record to a number, or
    from [0/0]) and the infinities; [JS.num] carries them for the quantities
    they can reach (cash, total value, cost sums, ratios, scores).  Position
    fields stay rational: the engine trades at non-zero prices only.  [Math.pow],
    [Math.sqrt] and the functions of the third-party statistics package are
    not part of the repository: the sections below are parametric in them. *)

From Stdlib Require Import QArith Qabs Qround Qminmax Lqa Lia List String Bool Arith ZArith.
Import ListNotations.
Open Scope Q_scope.

(* ===================================================================== *)
(** ** JavaScript values *)
(* ===================================================================== *)

Definition Qltb (a b : Q) : bool := negb (Qle_bool b a).

Module JS.

(** A number: finite, an infinity, or [NaN].  The two zeros of IEEE
    arithmetic are not told apart: a division by zero takes the sign of
    its numerator. *)
Inductive num : Type :=
| Fin (q : Q)
| PosInf
| NegInf
| NaN.

Definition neg (a : num) : num :=
  match a with
  | Fin x => Fin (- x)
  | PosInf => NegInf
  | NegInf => PosInf
  | NaN => NaN
  end.

Definition add (a b : num) : num :=
  match a, b with
  | Fin x, Fin y => Fin (x + y)
  | NaN, _ | _, NaN => NaN
  | PosInf, NegInf | NegInf, PosInf => NaN
  | PosInf, _ | _, PosInf => PosInf
  | NegInf, _ | _, NegInf => NegInf
  end.

Definition sub (a b : num) : num := add a (neg b).

(** An infinity with the sign of [x], [NaN] at zero. *)
Definition signed_inf (x : Q) (positive : num) : num :=
  match x ?= 0 with
  | Gt => positive
  | Lt => neg positive
  | Eq => NaN
  end.

Definition mul (a b : num) : num :=
  match a, b with
  | Fin x, Fin y => Fin (x * y)
  | NaN, _ | _, NaN => NaN
  | PosInf, Fin y | Fin y, PosInf => signed_inf y PosInf
  | NegInf, Fin y | Fin y, NegInf => signed_inf y NegInf
  | PosInf, PosInf | NegInf, NegInf => PosInf
  | PosInf, NegInf | NegInf, PosInf => NegInf
  end.

Definition div (a b : num) : num :=
  match a, b with
  | Fin x, Fin y => if Qeq_bool y 0 then signed_inf x PosInf else Fin (x / y)
  | NaN, _ | _, NaN => NaN
  | Fin _, _ => Fin 0
  | PosInf, Fin y => if Qle_bool 0 y then PosInf else NegInf
  | NegInf, Fin y => if Qle_bool 0 y then NegInf else PosInf
  | _, _ => NaN
  end.

(** [a > b]; every comparison with [NaN] is false. *)
Definition gtb (a b : num) : bool :=
  match a, b with
  | NaN, _ | _, NaN => false
  | Fin x, Fin y => Qltb y x
  | PosInf, PosInf => false
  | PosInf, _ => true
  | _, NegInf => match a with NegInf => false | _ => true end
  | _, _ => false
  end.

(** [a >= b] *)
Definition geb (a b : num) : bool :=
  match a, b with
  | NaN, _ | _, NaN => false
  | Fin x, Fin y => Qle_bool y x
  | PosInf, _ => true
  | _, NegInf => true
  | _, _ => false
  end.

(** [a <= b] *)
Definition leb (a b : num) : bool := geb b a.

(** [a || 0]: [NaN] and zero are falsy. *)
Definition or_zero (a : num) : num :=
  match a with
  | NaN => Fin 0
  | other => other
  end.

(** [count / length] for two array lengths. *)
Definition ratio (count length : nat) : num :=
  div (Fin (inject_Z (Z.of_nat count))) (Fin (inject_Z (Z.of_nat length))).

(** [Math.min(a, b)] and [Math.max(a, b)]: [NaN] is contagious. *)
Definition min (a b : num) : num :=
  match a, b with
  | NaN, _ | _, NaN => NaN
  | _, _ => if gtb a b then b else a
  end.

Definition max (a b : num) : num :=
  match a, b with
  | NaN, _ | _, NaN => NaN
  | _, _ => if gtb b a then b else a
  end.

(** [Math.min(...xs)] and [Math.max(...xs)] *)
Definition min_of (xs : list num) : num := fold_left min xs PosInf.
Definition max_of (xs : list num) : num := fold_left max xs NegInf.

(** Equality of numbers up to the representation of the rational. *)
Definition eqv (a b : num) : Prop :=
  match a, b with
  | Fin x, Fin y => x == y
  | PosInf, PosInf | NegInf, NegInf => True
  | _, _ => False
  end.

(** The result of reading a numeric field: the field may be absent. *)
Inductive value : Type :=
| Undefined
| Number (n : Q).

(** Coercion applied by the arithmetic operators. *)
Definition ToNumber (v : value) : num :=
  match v with
  | Undefined => NaN
  | Number n => Fin n
  end.

(** [x || d] on a possibly absent number: [undefined] and [0] are falsy. *)
Definition or_default (v : option Q) (d : Q) : Q :=
  match v with
  | Some x => if Qeq_bool x 0 then d else x
  | None => d
  end.

(** Whether a number is a non-negative finite amount. *)
Definition nonneg (a : num) : Prop :=
  match a with
  | Fin x => 0 <= x
  | _ => False
  end.

(** What a function call can end in: a value, an exception, or (for the
    models of loops and recursions that carry fuel) no answer within the
    fuel given. *)
Inductive outcome (A : Type) : Type :=
| Done (a : A)
| Thrown (msg : string)
| Exhausted.

Arguments Done {A} a.
Arguments Thrown {A} msg.
Arguments Exhausted {A}.

Definition bind {A B} (c : outcome A) (k : A -> outcome B) : outcome B :=
  match c with
  | Done a => k a
  | Thrown msg => Thrown msg
  | Exhausted => Exhausted
  end.

(** [try { c } catch (error) { h }] *)
Definition try_catch {A} (c : outcome A) (h : outcome A) : outcome A :=
  match c with
  | Thrown _ => h
  | other => other
  end.

(** Running [f] over a list, stopping at the first exception. *)
Fixpoint traverse {A B} (f : A -> outcome B) (l : list A) : outcome (list B) :=
  match l with
  | [] => Done []
  | a :: rest =>
      bind (f a) (fun b => bind (traverse f rest) (fun bs => Done (b :: bs)))
  end.

End JS.

Notation "x <- c ;; k" := (JS.bind c (fun x => k))
  (at level 61, c at next level, right associativity).

(** An object used as a map from names, in insertion order (the order in
    which [Object.keys] lists it). *)
Section Objects.
Context {V : Type}.

Fixpoint lookup (key : string) (o : list (string * V)) : option V :=
  match o with
  | [] => None
  | (k, v) :: rest => if String.eqb k key then Some v else lookup key rest
  end.

(** [o[key] = v]: overwrite in place, or append a new key. *)
Fixpoint assign (key : string) (v : V) (o : list (string * V)) : list (string * V) :=
  match o with
  | [] => [(key, v)]
  | (k, w) :: rest =>
      if String.eqb k key then (k, v) :: rest else (k, w) :: assign key v rest
  end.
End Objects.

Definition Qsum (l : list Q) : Q := fold_right Qplus 0 l.

(* ===================================================================== *)
(** ** TransactionCostModel *)
(* ===================================================================== *)

Record CostConfig : Type := mkCostConfig {
  cfg_fixedCost : option Q;
  cfg_variableCostBps : option Q;
  cfg_marketImpactBps : option Q;
  cfg_marketImpactExponent : option Q;
  cfg_bidAskSpreadBps : option Q;
  cfg_minTradeSize : option Q
}.

Record TransactionCostModel : Type := mkTransactionCostModel {
  fixedCost : Q;
  variableCostBps : Q;
  marketImpactBps : Q;
  marketImpactExponent : Q;
  bidAskSpreadBps : Q;
  minTradeSize : Q
}.

(** [new TransactionCostModel(config)] *)
Definition newTransactionCostModel (config : CostConfig) : TransactionCostModel :=
  {| fixedCost := JS.or_default (cfg_fixedCost config) 0;
     variableCostBps := JS.or_default (cfg_variableCostBps config) 5;
     marketImpactBps := JS.or_default (cfg_marketImpactBps config) 2;
     marketImpactExponent := JS.or_default (cfg_marketImpactExponent config) (1 # 2);
     bidAskSpreadBps := JS.or_default (cfg_bidAskSpreadBps config) 3;
     minTradeSize := JS.or_default (cfg_minTradeSize config) 100 |}.

Definition emptyCostConfig : CostConfig :=
  mkCostConfig None None None None None None.

(** The record [calculateTradeCost] returns for a trade it prices. *)
Record CostBreakdown : Type := mkCostBreakdown {
  cb_fixedCost : Q;
  cb_variableCost : Q;
  cb_marketImpact : Q;
  cb_bidAskSpread : Q;
  cb_totalCost : Q
}.

(** What [calculateTradeCost] returns: a bare number or the record. *)
Inductive TradeCost : Type :=
| CostNumber (n : Q)
| CostBreakdownOf (b : CostBreakdown).

(** [costs.totalCost] *)
Definition get_totalCost (costs : TradeCost) : JS.value :=
  match costs with
  | CostNumber _ => JS.Undefined
  | CostBreakdownOf b => JS.Number (cb_totalCost b)
  end.

Definition defaultAverageDailyVolume : Q := 1000000.

Section CostModel.
(** [Math.pow], on the volume ratio and the impact exponent. *)
Variable Math_pow : Q -> Q -> Q.

Definition calculateTradeCost (m : TransactionCostModel)
           (tradeValue averageDailyVolume : Q) : TradeCost :=
  if Qltb (Qabs tradeValue) (minTradeSize m) then CostNumber 0
  else
    let absTradeValue := Qabs tradeValue in
    let fixedCostAmount := fixedCost m in
    let variableCostAmount := absTradeValue * (variableCostBps m / 10000) in
    let volumeRatio := absTradeValue / averageDailyVolume in
    let marketImpactAmount :=
      absTradeValue * (marketImpactBps m / 10000)
      * Math_pow volumeRatio (marketImpactExponent m) in
    let bidAskCostAmount := absTradeValue * (bidAskSpreadBps m / 10000) in
    CostBreakdownOf
      {| cb_fixedCost := fixedCostAmount;
         cb_variableCost := variableCostAmount;
         cb_marketImpact := marketImpactAmount;
         cb_bidAskSpread := bidAskCostAmount;
         cb_totalCost := fixedCostAmount + variableCostAmount
                         + marketImpactAmount + bidAskCostAmount |}.
End CostModel.

(** A power function for concrete runs: exact on integer exponents, where
    [Math.pow] is [Qpower]. *)
Definition pow_integral (base exponent : Q) : Q := Qpower base (Qfloor exponent).

(* ===================================================================== *)
(** ** PortfolioState *)
(* ===================================================================== *)

Record Position : Type := mkPosition {
  shares : Q;
  avgPrice : Q;
  currentPrice : Q;
  value : Q;
  weight : Q
}.

Record Snapshot : Type := mkSnapshot {
  snap_date : string;
  snap_totalValue : JS.num;
  snap_cash : JS.num;
  snap_positions : list (string * Position)
}.

Record Transaction : Type := mkTransaction {
  tx_date : string;
  tx_symbol : string;
  tx_shares : Q;
  tx_price : Q;
  tx_value : Q;
  tx_costs : TradeCost;
  tx_cashAfter : JS.num
}.

Record PortfolioState : Type := mkPortfolioState {
  cash : JS.num;
  totalValue : JS.num;
  positions : list (string * Position);
  symbols : list string;
  history : list Snapshot;
  transactions : list Transaction
}.

(** [new PortfolioState(initialCash, symbols)].  (The [dividends] array of
    the source is never read or written again.) *)
Definition newPortfolioState (initialCash : Q) (syms : list string) : PortfolioState :=
  {| cash := JS.Fin initialCash;
     totalValue := JS.Fin initialCash;
     positions :=
       fold_left (fun acc symbol => assign symbol (mkPosition 0 0 0 0 0) acc) syms [];
     symbols := syms;
     history := [];
     transactions := [] |}.

(** [priceData[symbol]] as the condition of an [if]: a price that is present
    and not zero. *)
Definition truthy_price (priceData : list (string * Q)) (symbol : string) : option Q :=
  match lookup symbol priceData with
  | Some p => if Qeq_bool p 0 then None else Some p
  | None => None
  end.

(** First loop of [updatePrices]: reprice the positions that have a price and
    add their values to the running total. *)
Fixpoint reprice (priceData : list (string * Q)) (ps : list (string * Position))
         (total : JS.num) : list (string * Position) * JS.num :=
  match ps with
  | [] => ([], total)
  | (symbol, p) :: rest =>
      match truthy_price priceData symbol with
      | Some price =>
          let p' := {| shares := shares p; avgPrice := avgPrice p;
                       currentPrice := price;
                       value := shares p * price;
                       weight := weight p |} in
          let '(rest', total') :=
            reprice priceData rest (JS.add total (JS.Fin (value p'))) in
          ((symbol, p') :: rest', total')
      | None =>
          let '(rest', total') := reprice priceData rest total in
          ((symbol, p) :: rest', total')
      end
  end.

(** Second loop of [updatePrices]. *)
Definition reweigh (total : JS.num) (p : Position) : Position :=
  {| shares := shares p; avgPrice := avgPrice p; currentPrice := currentPrice p;
     value := value p;
     weight := match total with
               | JS.Fin t => if Qltb 0 t then value p / t else 0
               | JS.PosInf => 0          (* value / Infinity *)
               | _ => 0                  (* the comparison is false *)
               end |}.

Definition updatePrices (priceData : list (string * Q)) (date : string)
           (st : PortfolioState) : PortfolioState :=
  let '(repriced, total) := reprice priceData (positions st) (cash st) in
  let weighted := map (fun sp => (fst sp, reweigh total (snd sp))) repriced in
  {| cash := cash st;
     totalValue := total;
     positions := weighted;
     symbols := symbols st;
     history := history st ++ [ {| snap_date := date;
                                   snap_totalValue := total;
                                   snap_cash := cash st;
                                   snap_positions := weighted |} ];
     transactions := transactions st |}.

(** What [executeTrade] returns. *)
Inductive TradeResult : Type :=
| Executed (tradedShares tradedValue : Q) (costs : TradeCost)
| NotExecuted (reason : string).

Definition with_position (symbol : string) (p : Position) (c : JS.num)
           (t : Transaction) (st : PortfolioState) : PortfolioState :=
  {| cash := c;
     totalValue := totalValue st;
     positions := assign symbol p (positions st);
     symbols := symbols st;
     history := history st;
     transactions := transactions st ++ [t] |}.

Section Trading.
Variable Math_pow : Q -> Q -> Q.

(** The recursion of [executeTrade] on the shrunk trade has no bound in the
    source; [fuel] counts the calls it may make.  The shrunk trade's own
    costs, which the source computes and never reads, are left out.  The
    quotient [tradeValue / price] is the JavaScript one for a non-zero
    price, which is all the engine passes. *)
Fixpoint executeTrade (fuel : nat) (symbol : string) (targetValue price : Q)
         (model : TransactionCostModel) (date : string) (st : PortfolioState)
  : JS.outcome (TradeResult * PortfolioState) :=
  match fuel with
  | O => JS.Exhausted
  | S fuel' =>
      match lookup symbol (positions st) with
      | None => JS.Thrown ("Symbol " ++ symbol ++ " not in portfolio")
      | Some pos =>
          let currentValue := value pos in
          let tradeValue := targetValue - currentValue in
          let costs := calculateTradeCost Math_pow model tradeValue
                                          defaultAverageDailyVolume in
          let totalCost := JS.ToNumber (get_totalCost costs) in
          if JS.gtb (JS.add (JS.Fin tradeValue) totalCost) (cash st) then
            match JS.sub (cash st) totalCost with
            | JS.Fin availableCash =>
                if Qltb 0 availableCash then
                  let reducedTradeValue := Qmin tradeValue availableCash in
                  executeTrade fuel' symbol (currentValue + reducedTradeValue)
                               price model date st
                else JS.Done (NotExecuted "insufficient_funds", st)
            | _ => JS.Done (NotExecuted "insufficient_funds", st)
            end
          else
            let sharesToTrade := tradeValue / price in
            let newShares := shares pos + sharesToTrade in
            let newAvgPrice :=
              if Qltb 0 newShares
              then (shares pos * avgPrice pos + sharesToTrade * price) / newShares
              else price in
            let pos' := {| shares := newShares; avgPrice := newAvgPrice;
                           currentPrice := currentPrice pos;
                           value := newShares * price;
                           weight := weight pos |} in
            let cash' := JS.sub (cash st) (JS.add (JS.Fin tradeValue) totalCost) in
            let record := {| tx_date := date; tx_symbol := symbol;
                             tx_shares := sharesToTrade; tx_price := price;
                             tx_value := tradeValue; tx_costs := costs;
                             tx_cashAfter := cash' |} in
            JS.Done (Executed sharesToTrade tradeValue costs,
                     with_position symbol pos' cash' record st)
      end
  end.
End Trading.

Definition getCurrentWeights (st : PortfolioState) : list (string * Q) :=
  map (fun sp => (fst sp, weight (snd sp))) (positions st).

(* ===================================================================== *)
(** ** calculateReturns and getPerformanceStats *)
(* ===================================================================== *)

Section Returns.
(** [Math.log] *)
Variable Math_log : JS.num -> JS.num.

Fixpoint returns_after (method : string) (prevPrice : JS.num) (rest : list JS.num)
  : JS.outcome (list JS.num) :=
  match rest with
  | [] => JS.Done []
  | currentPrice :: more =>
      if JS.leb prevPrice (JS.Fin 0) || JS.leb currentPrice (JS.Fin 0)
      then JS.Thrown "Prices must be positive for return calculations"
      else
        returnValue <-
          (if String.eqb method "percentage"
           then JS.Done (JS.div (JS.sub currentPrice prevPrice) prevPrice)
           else if String.eqb method "log"
           then JS.Done (Math_log (JS.div currentPrice prevPrice))
           else if String.eqb method "absolute"
           then JS.Done (JS.sub currentPrice prevPrice)
           else JS.Thrown
                  "Invalid return calculation method. Use: percentage, log, or absolute") ;;
        returns <- returns_after method currentPrice more ;;
        JS.Done (returnValue :: returns)
  end.

Definition calculateReturns (prices : list JS.num) (method : string)
  : JS.outcome (list JS.num) :=
  match prices with
  | first :: (_ :: _) as rest => returns_after method first rest
  | _ => JS.Thrown "Need at least 2 price points to calculate returns"
  end.
End Returns.

(** The figures [getPerformanceStats] obtains from the statistics package,
    from the risk functions of portfolio-math.js and from [Math.pow] and
    [Math.sqrt]. *)
Record RiskFigures : Type := mkRiskFigures {
  rf_annualizedReturn : JS.num;
  rf_volatility : JS.num;
  rf_annualizedVolatility : JS.num;
  rf_sharpeRatio : JS.num;
  rf_sortinoRatio : JS.num;
  rf_maxDrawdown : JS.num;
  rf_var95 : JS.num;
  rf_var99 : JS.num;
  rf_expectedShortfall95 : JS.num
}.

Record PerformanceStats : Type := mkPerformanceStats {
  ps_totalReturn : JS.num;
  ps_risk : RiskFigures;
  ps_totalTransactionCosts : JS.num;
  ps_transactionCostDrag : JS.num;
  ps_numberOfTrades : nat;
  ps_returns : list JS.num;
  ps_dates : list string;
  ps_cumulativeReturns : list JS.num;
  ps_portfolioValues : list JS.num
}.

(** [returns.reduce(...)] building the running product of [1 + r]. *)
Fixpoint cumulate (acc : JS.num) (returns : list JS.num) : list JS.num :=
  match returns with
  | [] => []
  | r :: rest =>
      let next := JS.mul acc (JS.add (JS.Fin 1) r) in
      next :: cumulate next rest
  end.

Section Performance.
Variable Math_log : JS.num -> JS.num.
(** Lines 250-258, 265 and 267 of the source: total return, returns and
    cumulative returns in, risk figures out (or an exception of the
    statistics package). *)
Variable risk_figures : JS.num -> list JS.num -> list JS.num -> JS.outcome RiskFigures.

Definition getPerformanceStats (st : PortfolioState)
  : JS.outcome (option PerformanceStats * PortfolioState) :=
  if (List.length (history st) <? 2)%nat then JS.Done (None, st)
  else
    let vals := map snap_totalValue (history st) in
    returns <- calculateReturns Math_log vals "percentage" ;;
    let dates := map snap_date (tl (history st)) in
    let cumulativeReturns := cumulate (JS.Fin 1) returns in
    let totalReturn :=
      JS.sub (JS.div (last vals JS.NaN) (hd JS.NaN vals)) (JS.Fin 1) in
    risk <- risk_figures totalReturn returns cumulativeReturns ;;
    let totalCosts :=
      fold_left (fun sum t => JS.add sum (JS.ToNumber (get_totalCost (tx_costs t))))
                (transactions st) (JS.Fin 0) in
    JS.Done
      (Some {| ps_totalReturn := totalReturn;
               ps_risk := risk;
               ps_totalTransactionCosts := totalCosts;
               ps_transactionCostDrag := JS.div totalCosts (hd JS.NaN vals);
               ps_numberOfTrades := List.length (transactions st);
               ps_returns := returns;
               ps_dates := dates;
               ps_cumulativeReturns := cumulativeReturns;
               ps_portfolioValues := vals |},
       st).
End Performance.

(* ===================================================================== *)
(** ** Walk-forward analysis: configuration and time windows *)
(* ===================================================================== *)

(** [x || d] on an integer option. *)
Definition Z_or_default (v : option Z) (d : Z) : Z :=
  match v with
  | Some x => if (x =? 0)%Z then d else x
  | None => d
  end.

Record WalkForwardOptions : Type := mkWalkForwardOptions {
  opt_lookbackWindow : option Z;
  opt_holdoutWindow : option Z;
  opt_stepSize : option Z;
  opt_minHistory : option Z;
  opt_optimizationMethod : option string
}.

Record WalkForwardConfig : Type := mkWalkForwardConfig {
  lookbackWindow : Z;
  holdoutWindow : Z;
  stepSize : Z;
  minHistory : Z;
  optimizationMethod : string
}.

(** [new WalkForwardConfig(config)], for the fields the windows and the
    optimizer read. *)
Definition newWalkForwardConfig (config : WalkForwardOptions) : WalkForwardConfig :=
  {| lookbackWindow := Z_or_default (opt_lookbackWindow config) 252;
     holdoutWindow := Z_or_default (opt_holdoutWindow config) 63;
     stepSize := Z_or_default (opt_stepSize config) 21;
     minHistory := Z_or_default (opt_minHistory config) 126;
     optimizationMethod :=
       match opt_optimizationMethod config with
       | Some m => if String.eqb m "" then "risk_parity"%string else m
       | None => "risk_parity"%string
       end |}.

Record DataPoint : Type := mkDataPoint {
  dp_date : string;
  dp_price : Q
}.

(** [symbol -> [{date, price}]] *)
Definition HistoricalData : Type := list (string * list DataPoint).

(** [dateSet.add(d)] keeps the first insertion of a date. *)
Definition set_add (d : string) (seen : list string) : list string :=
  if existsb (String.eqb d) seen then seen else seen ++ [d].

(** [Array.prototype.sort()] on strings: insertion into code-unit order. *)
Fixpoint insert_sorted (d : string) (sorted : list string) : list string :=
  match sorted with
  | [] => [d]
  | x :: rest => if String.leb d x then d :: sorted else x :: insert_sorted d rest
  end.

Definition sort_strings (l : list string) : list string :=
  fold_right insert_sorted [] l.

Definition all_dates (historicalData : HistoricalData) : list string :=
  flat_map (fun entry => map dp_date (snd entry)) historicalData.

Definition getAllTradingDates (historicalData : HistoricalData) : list string :=
  sort_strings (fold_left (fun seen d => set_add d seen) (all_dates historicalData) []).

(** [array[i]]: [None] stands for [undefined]. *)
Definition at_index {A} (l : list A) (i : Z) : option A :=
  if (i <? 0)%Z then None else nth_error l (Z.to_nat i).

Record DateRange : Type := mkDateRange {
  range_start : option string;
  range_end : option string
}.

Record TimeWindow : Type := mkTimeWindow {
  tw_optimizationStart : option string;
  tw_optimization : DateRange;
  tw_test : DateRange;
  tw_testEnd : option string
}.

(** The [while] loop of [generateTimeWindows]; the source has no bound on it
    (a non-positive step never leaves it), [fuel] counts its tests. *)
Fixpoint window_loop (fuel : nat) (cfg : WalkForwardConfig) (allDates : list string)
         (startIndex : Z) (windows : list TimeWindow) : JS.outcome (list TimeWindow) :=
  match fuel with
  | O => JS.Exhausted
  | S fuel' =>
      let n := Z.of_nat (List.length allDates) in
      if (startIndex + holdoutWindow cfg <? n)%Z then
        let optimizationStart := at_index allDates (startIndex - lookbackWindow cfg) in
        let optimizationEnd := at_index allDates (startIndex - 1) in
        let testStart := at_index allDates startIndex in
        let testEnd :=
          at_index allDates (Z.min (startIndex + holdoutWindow cfg - 1) (n - 1)) in
        window_loop fuel' cfg allDates (startIndex + stepSize cfg)
                    (windows
                     ++ [ {| tw_optimizationStart := optimizationStart;
                             tw_optimization :=
                               mkDateRange optimizationStart optimizationEnd;
                             tw_test := mkDateRange testStart testEnd;
                             tw_testEnd := testEnd |} ])
      else JS.Done windows
  end.

Definition generateTimeWindows_on (fuel : nat) (cfg : WalkForwardConfig)
           (allDates : list string) : JS.outcome (list TimeWindow) :=
  if (Z.of_nat (List.length allDates) <? lookbackWindow cfg + holdoutWindow cfg)%Z
  then JS.Done []
  else window_loop fuel cfg allDates (lookbackWindow cfg) [].

Definition generateTimeWindows (fuel : nat) (cfg : WalkForwardConfig)
           (historicalData : HistoricalData) : JS.outcome (list TimeWindow) :=
  generateTimeWindows_on fuel cfg (getAllTradingDates historicalData).

(* ===================================================================== *)
(** ** PortfolioStrategyOptimizer *)
(* ===================================================================== *)

(** What the risk-parity routine of portfolio-math.js returns. *)
Record RiskParityOutput : Type := mkRiskParityOutput {
  rp_weights : list JS.num;
  rp_converged : bool;
  rp_iterations : JS.num;
  rp_riskParityScore : JS.num
}.

(** What the Black-Litterman routine returns; [weights] may be absent. *)
Record BlackLittermanOutput : Type := mkBlackLittermanOutput {
  bl_weights : option (list JS.num);
  bl_portfolioReturn : JS.num;
  bl_portfolioVolatility : JS.num
}.

(** The record an optimization hands back, by the method that built it. *)
Inductive OptimizedStrategy : Type :=
| RiskParityStrategy (weights : list JS.num) (maxIterations tolerance : Q)
                     (converged : bool) (iterations riskParityScore score : JS.num)
| MeanVarianceStrategy (weights : list JS.num) (targetReturn : JS.num)
                       (expectedReturn volatility sharpeRatio score : JS.num)
| BlackLittermanStrategy (weights : list JS.num) (tau riskAversion : Q)
                         (expectedReturn volatility score : JS.num)
| EqualWeightFallback (weights : list JS.num).

Definition strategy_weights (s : OptimizedStrategy) : list JS.num :=
  match s with
  | RiskParityStrategy w _ _ _ _ _ _ => w
  | MeanVarianceStrategy w _ _ _ _ _ => w
  | BlackLittermanStrategy w _ _ _ _ _ => w
  | EqualWeightFallback w => w
  end.

Record ParameterRanges : Type := mkParameterRanges {
  pr_maxIterations : option (list Q);
  pr_tolerance : option (list Q);
  pr_targetReturn : option (list JS.num);
  pr_tau : option (list Q);
  pr_riskAversion : option (list Q)
}.

(** [range || fallback] on an optional array (an array is always truthy). *)
Definition range_or {A} (range : option (list A)) (fallback : list A) : list A :=
  match range with
  | Some r => r
  | None => fallback
  end.

(** [xs.reduce((sum, x, i) => sum + f(x, i), 0)] *)
Fixpoint sum_indexed {A} (f : A -> nat -> JS.outcome JS.num) (xs : list A) (i : nat)
         (sum : JS.num) : JS.outcome JS.num :=
  match xs with
  | [] => JS.Done sum
  | x :: rest =>
      term <- f x i ;;
      sum_indexed f rest (S i) (JS.add sum term)
  end.

(** One grid search: cells are tried in order, a cell that throws is skipped,
    a cell that scores above the best so far replaces it. *)
Fixpoint grid_search {C} (cell : C -> JS.outcome (option (OptimizedStrategy * JS.num)))
         (cells : list C) (bestResult : option OptimizedStrategy) (bestScore : JS.num)
  : JS.outcome (option OptimizedStrategy) :=
  match cells with
  | [] => JS.Done bestResult
  | c :: rest =>
      match cell c with
      | JS.Done (Some (candidate, score)) =>
          if JS.gtb score bestScore
          then grid_search cell rest (Some candidate) score
          else grid_search cell rest bestResult bestScore
      | JS.Done None => grid_search cell rest bestResult bestScore
      | JS.Thrown _ => grid_search cell rest bestResult bestScore
      | JS.Exhausted => JS.Exhausted
      end
  end.

Section Optimizer.
(** The matrix type of the linear-algebra package and the routines of
    portfolio-math.js built on it. *)
Variable Matrix : Type.
Variable matrix_get : Matrix -> nat -> nat -> JS.outcome JS.num.
Variable calculateCovarianceMatrix : list (list JS.num) -> JS.outcome Matrix.
Variable optimizeRiskParityCore : Matrix -> Q -> Q -> JS.outcome RiskParityOutput.
Variable optimizePortfolioMinVariance :
  list JS.num -> Matrix -> JS.num -> JS.outcome (list JS.num).
Variable blackLittermanOptimization :
  list JS.num -> Matrix -> Q -> Q -> JS.outcome BlackLittermanOutput.
(** The statistics package, [Math.sqrt], [Math.log], and the comparison of
    a date with a window through [Date]. *)
Variable mean : list JS.num -> JS.outcome JS.num.
Variable Math_sqrt : JS.num -> JS.num.
Variable Math_log : JS.num -> JS.num.
Variable in_window : string -> DateRange -> bool.

Record PortfolioStrategyOptimizer : Type := mkPortfolioStrategyOptimizer {
  pso_symbols : list string;
  pso_historicalData : HistoricalData
}.

Definition getFallbackStrategy (o : PortfolioStrategyOptimizer) : OptimizedStrategy :=
  let n := List.length (pso_symbols o) in
  let equalWeight := JS.div (JS.Fin 1) (JS.Fin (inject_Z (Z.of_nat n))) in
  EqualWeightFallback (repeat equalWeight n).

Fixpoint extract_returns (o : PortfolioStrategyOptimizer) (dataWindow : DateRange)
         (syms : list string) : JS.outcome (list (list JS.num)) :=
  match syms with
  | [] => JS.Done []
  | symbol :: rest =>
      match lookup symbol (pso_historicalData o) with
      | None => JS.Thrown "Cannot read properties of undefined (reading 'filter')"
      | Some symbolData =>
          let windowData := filter (fun d => in_window (dp_date d) dataWindow) symbolData in
          if (1 <? List.length windowData)%nat then
            returns <- calculateReturns Math_log
                         (map (fun d => JS.Fin (dp_price d)) windowData) "percentage" ;;
            others <- extract_returns o dataWindow rest ;;
            JS.Done (returns :: others)
          else extract_returns o dataWindow rest
      end
  end.

Definition extractReturnsForWindow (o : PortfolioStrategyOptimizer)
           (dataWindow : DateRange) : JS.outcome (list (list JS.num)) :=
  extract_returns o dataWindow (pso_symbols o).

Definition generateTargetReturnRange (expectedReturns : list JS.num) : list JS.num :=
  let minReturn := JS.min_of expectedReturns in
  let maxReturn := JS.max_of expectedReturns in
  let step := JS.div (JS.sub maxReturn minReturn) (JS.Fin 5) in
  map (fun i => JS.add minReturn (JS.mul (JS.Fin (inject_Z (Z.of_nat i))) step))
      (seq 0 6).

Definition or_fallback (o : PortfolioStrategyOptimizer)
           (bestResult : option OptimizedStrategy) : OptimizedStrategy :=
  match bestResult with
  | Some r => r
  | None => getFallbackStrategy o
  end.

Definition risk_parity_cell (covarianceMatrix : Matrix) (cell : Q * Q)
  : JS.outcome (option (OptimizedStrategy * JS.num)) :=
  let '(maxIterations, tolerance) := cell in
  result <- optimizeRiskParityCore covarianceMatrix maxIterations tolerance ;;
  if rp_converged result then
    let score :=
      JS.sub (rp_riskParityScore result)
             (JS.mul (JS.div (rp_iterations result) (JS.Fin maxIterations))
                     (JS.Fin (1 # 10))) in
    JS.Done (Some (RiskParityStrategy (rp_weights result) maxIterations tolerance
                                      (rp_converged result) (rp_iterations result)
                                      (rp_riskParityScore result) score,
                   score))
  else JS.Done None.

Definition optimizeRiskParity (o : PortfolioStrategyOptimizer) (dataWindow : DateRange)
           (parameterRanges : ParameterRanges) : JS.outcome OptimizedStrategy :=
  windowReturns <- extractReturnsForWindow o dataWindow ;;
  covarianceMatrix <- calculateCovarianceMatrix windowReturns ;;
  let maxIterationsRange := range_or (pr_maxIterations parameterRanges) [50; 100; 200] in
  let toleranceRange :=
    range_or (pr_tolerance parameterRanges)
             [1 # 1000000; 1 # 100000; 1 # 10000] in
  bestResult <- grid_search (risk_parity_cell covarianceMatrix)
                            (list_prod maxIterationsRange toleranceRange)
                            None JS.NegInf ;;
  JS.Done (or_fallback o bestResult).

Definition mean_variance_cell (expectedReturns : list JS.num) (covarianceMatrix : Matrix)
           (targetReturn : JS.num) : JS.outcome (option (OptimizedStrategy * JS.num)) :=
  weights <- optimizePortfolioMinVariance expectedReturns covarianceMatrix targetReturn ;;
  portfolioReturn <-
    sum_indexed (fun ret i => JS.Done (JS.mul (nth i weights JS.NaN) ret))
                expectedReturns 0%nat (JS.Fin 0) ;;
  variance <-
    sum_indexed
      (fun w i =>
         sum_indexed (fun w2 j =>
                        c <- matrix_get covarianceMatrix i j ;;
                        JS.Done (JS.mul (JS.mul w w2) c))
                     weights 0%nat (JS.Fin 0))
      weights 0%nat (JS.Fin 0) ;;
  let portfolioVol := Math_sqrt variance in
  let sharpeRatio :=
    if JS.gtb portfolioVol (JS.Fin 0)
    then JS.div (JS.sub portfolioReturn (JS.Fin (5 # 100))) portfolioVol
    else JS.Fin 0 in
  JS.Done (Some (MeanVarianceStrategy weights targetReturn portfolioReturn
                                      portfolioVol sharpeRatio sharpeRatio,
                 sharpeRatio)).

Definition optimizeMeanVariance (o : PortfolioStrategyOptimizer) (dataWindow : DateRange)
           (parameterRanges : ParameterRanges) : JS.outcome OptimizedStrategy :=
  windowReturns <- extractReturnsForWindow o dataWindow ;;
  covarianceMatrix <- calculateCovarianceMatrix windowReturns ;;
  expectedReturns <- JS.traverse mean windowReturns ;;
  let targetReturnRange :=
    range_or (pr_targetReturn parameterRanges)
             (generateTargetReturnRange expectedReturns) in
  bestResult <- grid_search (mean_variance_cell expectedReturns covarianceMatrix)
                            targetReturnRange None JS.NegInf ;;
  JS.Done (or_fallback o bestResult).

Definition black_litterman_cell (marketCapWeights : list JS.num)
           (covarianceMatrix : Matrix) (cell : Q * Q)
  : JS.outcome (option (OptimizedStrategy * JS.num)) :=
  let '(tau, riskAversion) := cell in
  blResult <- blackLittermanOptimization marketCapWeights covarianceMatrix
                                         tau riskAversion ;;
  match bl_weights blResult with
  | Some weights =>
      let score := JS.div (bl_portfolioReturn blResult)
                          (bl_portfolioVolatility blResult) in
      JS.Done (Some (BlackLittermanStrategy weights tau riskAversion
                                            (bl_portfolioReturn blResult)
                                            (bl_portfolioVolatility blResult) score,
                     score))
  | None => JS.Done None
  end.

Definition optimizeBlackLitterman (o : PortfolioStrategyOptimizer) (dataWindow : DateRange)
           (parameterRanges : ParameterRanges) : JS.outcome OptimizedStrategy :=
  windowReturns <- extractReturnsForWindow o dataWindow ;;
  covarianceMatrix <- calculateCovarianceMatrix windowReturns ;;
  let n := List.length (pso_symbols o) in
  let marketCapWeights :=
    repeat (JS.div (JS.Fin 1) (JS.Fin (inject_Z (Z.of_nat n)))) n in
  let tauRange := range_or (pr_tau parameterRanges) [1 # 100; 25 # 1000; 5 # 100; 1 # 10] in
  let riskAversionRange := range_or (pr_riskAversion parameterRanges) [1; 3; 5; 10] in
  bestResult <- grid_search (black_litterman_cell marketCapWeights covarianceMatrix)
                            (list_prod tauRange riskAversionRange)
                            None JS.NegInf ;;
  JS.Done (or_fallback o bestResult).

Definition optimizeStrategy (o : PortfolioStrategyOptimizer) (method : string)
           (dataWindow : DateRange) (parameterRanges : ParameterRanges)
  : JS.outcome OptimizedStrategy :=
  JS.try_catch
    (if String.eqb method "risk_parity" then optimizeRiskParity o dataWindow parameterRanges
     else if String.eqb method "mean_variance"
     then optimizeMeanVariance o dataWindow parameterRanges
     else if String.eqb method "black_litterman"
     then optimizeBlackLitterman o dataWindow parameterRanges
     else JS.Thrown ("Unknown optimization method: " ++ method))
    (JS.Done (getFallbackStrategy o)).
End Optimizer.

(* ===================================================================== *)
(** ** Monte Carlo confidence: configuration, samplers, simulator *)
(* ===================================================================== *)

Record MonteCarloOptions : Type := mkMonteCarloOptions {
  opt_numSimulations : option Z;
  opt_confidenceLevels : option (list Q);
  opt_blockBootstrapLength : option Z;
  opt_returnDistribution : option string;
  opt_robustnessThreshold : option Q;
  opt_includePerturbations : option bool;
  opt_perturbationMagnitude : option Q
}.

Record MonteCarloConfig : Type := mkMonteCarloConfig {
  numSimulations : Z;
  confidenceLevels : list Q;
  blockBootstrapLength : Z;
  returnDistribution : string;
  robustnessThreshold : Q;
  includePerturbations : bool;
  perturbationMagnitude : Q
}.

(** [new MonteCarloConfig(config)] *)
Definition newMonteCarloConfig (config : MonteCarloOptions) : MonteCarloConfig :=
  {| numSimulations := Z_or_default (opt_numSimulations config) 10000;
     confidenceLevels :=
       range_or (opt_confidenceLevels config) [90 # 100; 95 # 100; 99 # 100];
     blockBootstrapLength := Z_or_default (opt_blockBootstrapLength config) 22;
     returnDistribution :=
       match opt_returnDistribution config with
       | Some d => if String.eqb d "" then "bootstrap"%string else d
       | None => "bootstrap"%string
       end;
     robustnessThreshold := JS.or_default (opt_robustnessThreshold config) (1 # 2);
     includePerturbations :=
       match opt_includePerturbations config with
       | Some b => b || true
       | None => true
       end;
     perturbationMagnitude := JS.or_default (opt_perturbationMagnitude config) (1 # 10) |}.

(** A strategy parameter: a number, or anything else. *)
Inductive ParamValue : Type :=
| PNumber (n : Q)
| POther (repr : string).

Definition Parameters : Type := list (string * ParamValue).
Definition Perturbations : Type := list (string * Q).

Record SimulationScenario : Type := mkSimulationScenario {
  sc_returns : list Q;
  sc_totalReturn : Q;
  sc_volatility : Q;
  sc_sharpeRatio : Q;
  sc_maxDrawdown : Q;
  sc_var95 : JS.num;
  sc_parameters : Parameters;
  sc_perturbations : Perturbations
}.

(** [new SimulationScenario()] *)
Definition newSimulationScenario : SimulationScenario :=
  mkSimulationScenario [] 0 0 0 0 (JS.Fin 0) [] [].

Definition with_totalReturn (s : SimulationScenario) (r : Q) : SimulationScenario :=
  mkSimulationScenario (sc_returns s) r (sc_volatility s) (sc_sharpeRatio s)
                       (sc_maxDrawdown s) (sc_var95 s) (sc_parameters s)
                       (sc_perturbations s).

Definition with_perturbations (s : SimulationScenario) (p : Perturbations)
  : SimulationScenario :=
  mkSimulationScenario (sc_returns s) (sc_totalReturn s) (sc_volatility s)
                       (sc_sharpeRatio s) (sc_maxDrawdown s) (sc_var95 s)
                       (sc_parameters s) p.

(** [array.slice(start, end)] for integer bounds: a negative bound counts
    from the end, bounds are clamped to the array. *)
Definition slice {A} (l : list A) (startIndex endIndex : Z) : list A :=
  let n := Z.of_nat (List.length l) in
  let clamp i := if (i <? 0)%Z then Z.max (n + i) 0 else Z.min i n in
  let s := clamp startIndex in
  let e := clamp endIndex in
  firstn (Z.to_nat (e - s)) (skipn (Z.to_nat s) l).

(** The sampler; its [numBlocks] field is never read. *)
Record BlockBootstrapSampler : Type := mkBlockBootstrapSampler {
  originalReturns : list Q;
  blockLength : Z
}.

(** [array.sort((a, b) => key(a) - key(b))]: stable, ascending. *)
Section SortBy.
Context {A : Type} (key : A -> Q).

Fixpoint insert_by (x : A) (sorted : list A) : list A :=
  match sorted with
  | [] => [x]
  | y :: rest =>
      if Qle_bool (key x) (key y) then x :: sorted else y :: insert_by x rest
  end.

Definition sort_by (l : list A) : list A := fold_right insert_by [] l.
End SortBy.

(** Exchange of two cells of an array. *)
Fixpoint set_nth {A} (l : list A) (i : nat) (x : A) : list A :=
  match l, i with
  | [], _ => []
  | _ :: rest, O => x :: rest
  | y :: rest, S i' => y :: set_nth rest i' x
  end.

Definition swap (l : list Q) (i j : nat) : list Q :=
  let a := nth i l 0 in
  let b := nth j l 0 in
  set_nth (set_nth l i b) j a.

(** What a strategy function hands back, as far as the simulator reads it. *)
Record StrategyOutput : Type := mkStrategyOutput {
  so_returns : option (list Q)
}.

Definition StrategyFunction : Type := list Q -> Parameters -> JS.outcome StrategyOutput.

Record PortfolioStrategySimulator : Type := mkPortfolioStrategySimulator {
  strategyFunction : StrategyFunction;
  baseParameters : Parameters
}.

Definition calculateTotalReturn (returns : list Q) : Q :=
  fold_left (fun total r => total * (1 + r)) returns 1 - 1.

Definition calculateMaxDrawdown (returns : list Q) : Q :=
  let '(maxDrawdown, _, _) :=
    fold_left (fun '(maxDrawdown, peak, current) ret =>
                 let current := current * (1 + ret) in
                 let peak := if Qltb peak current then current else peak in
                 let drawdown := (peak - current) / peak in
                 (Qmax maxDrawdown drawdown, peak, current))
              returns (0, 1, 1) in
  maxDrawdown.

Definition calculateVaR (returns : list Q) (confidenceLevel : Q) : JS.num :=
  let sortedReturns := sort_by (fun r => r) returns in
  let index :=
    Qfloor ((1 - confidenceLevel) * inject_Z (Z.of_nat (List.length sortedReturns))) in
  match at_index sortedReturns (Z.max 0 index) with
  | Some r => JS.Fin (- r)
  | None => JS.NaN
  end.

Section MonteCarlo.
(** [Math.random]: the [n]-th number it hands out; callers thread [n]. *)
Variable random : nat -> Q.
(** The statistics package. *)
Variable mean : list Q -> JS.outcome Q.
Variable standardDeviation : list Q -> JS.outcome Q.
Variable quantile : list Q -> Q -> JS.outcome Q.
(** [Math.sqrt], and the Box-Muller variate
    [Math.sqrt(-2 * Math.log(u1)) * Math.cos(2 * Math.PI * u2)]. *)
Variable Math_sqrt : Q -> Q.
Variable box_muller : Q -> Q -> Q.

(** The [while] loop of [generateSample]; [fuel] counts its tests (an empty
    block, as an empty series gives, never fills the sample). *)
Fixpoint sample_loop (fuel : nat) (sampler : BlockBootstrapSampler)
         (targetLength : nat) (sample : list Q) (rng : nat)
  : JS.outcome (list Q * nat) :=
  match fuel with
  | O => JS.Exhausted
  | S fuel' =>
      if (List.length sample <? targetLength)%nat then
        let n := Z.of_nat (List.length (originalReturns sampler)) in
        let maxStartIndex := Z.max 0 (n - blockLength sampler) in
        let startIndex := Qfloor (random rng * inject_Z (maxStartIndex + 1)) in
        let endIndex := Z.min (startIndex + blockLength sampler) n in
        let block := slice (originalReturns sampler) startIndex endIndex in
        sample_loop fuel' sampler targetLength (sample ++ block) (S rng)
      else JS.Done (firstn targetLength sample, rng)
  end.

Definition generateSample (fuel : nat) (sampler : BlockBootstrapSampler)
           (targetLength : nat) (rng : nat) : JS.outcome (list Q * nat) :=
  sample_loop fuel sampler targetLength [] rng.

(** [ParameterPerturbation.generatePerturbedParameters] *)
Fixpoint generatePerturbedParameters (magnitude : Q) (entries : Parameters) (rng : nat)
  : Parameters * Perturbations * nat :=
  match entries with
  | [] => ([], [], rng)
  | (param, PNumber v) :: rest =>
      let perturbation := (random rng - (1 # 2)) * 2 * magnitude in
      let perturbedValue := v * (1 + perturbation) in
      let '(perturbed, perturbations, rng') :=
        generatePerturbedParameters magnitude rest (S rng) in
      ((param, PNumber perturbedValue) :: perturbed,
       (param, perturbation) :: perturbations, rng')
  | (param, other) :: rest =>
      let '(perturbed, perturbations, rng') :=
        generatePerturbedParameters magnitude rest rng in
      ((param, other) :: perturbed, (param, 0) :: perturbations, rng')
  end.

Definition calculateSharpeRatio (returns : list Q) : JS.outcome Q :=
  let riskFreeRate := 5 # 100 in
  let excessReturns := map (fun r => r - riskFreeRate / 252) returns in
  meanExcess <- mean excessReturns ;;
  stdExcess <- standardDeviation excessReturns ;;
  JS.Done (if Qltb 0 stdExcess
           then (meanExcess * Math_sqrt 252) / (stdExcess * Math_sqrt 252)
           else 0).

Definition simulateStrategy (sim : PortfolioStrategySimulator) (returns : list Q)
           (parameters : option Parameters) : JS.outcome SimulationScenario :=
  let params := match parameters with
                | Some p => p
                | None => baseParameters sim
                end in
  JS.try_catch
    (result <- strategyFunction sim returns params ;;
     let scenarioReturns := match so_returns result with
                            | Some r => r
                            | None => returns
                            end in
     volatility <- standardDeviation scenarioReturns ;;
     sharpeRatio <- calculateSharpeRatio scenarioReturns ;;
     JS.Done {| sc_returns := scenarioReturns;
                sc_totalReturn := calculateTotalReturn scenarioReturns;
                sc_volatility := volatility;
                sc_sharpeRatio := sharpeRatio;
                sc_maxDrawdown := calculateMaxDrawdown scenarioReturns;
                sc_var95 := calculateVaR scenarioReturns (95 # 100);
                sc_parameters := params;
                sc_perturbations := [] |})
    (JS.Done (with_totalReturn newSimulationScenario (-1))).

(* ------------------------------------------------------------------- *)
(** *** MonteCarloConfidenceEngine *)

Record MonteCarloConfidenceEngine : Type := mkMonteCarloConfidenceEngine {
  config : MonteCarloConfig;
  baselineReturns : list Q;
  simulator : option PortfolioStrategySimulator;
  baselineMetrics : option SimulationScenario
}.

Definition newMonteCarloConfidenceEngine (options : MonteCarloOptions)
  : MonteCarloConfidenceEngine :=
  {| config := newMonteCarloConfig options;
     baselineReturns := [];
     simulator := None;
     baselineMetrics := None |}.

Definition initialize (e : MonteCarloConfidenceEngine) (baseline : list Q)
           (f : StrategyFunction) (base : Parameters) : MonteCarloConfidenceEngine :=
  {| config := config e;
     baselineReturns := baseline;
     simulator := Some (mkPortfolioStrategySimulator f base);
     baselineMetrics := None |}.

Fixpoint normal_draws (count : nat) (meanReturn stdReturn : Q) (rng : nat)
  : list Q * nat :=
  match count with
  | O => ([], rng)
  | S count' =>
      let u1 := random rng in
      let u2 := random (S rng) in
      let z := box_muller u1 u2 in
      let '(rest, rng') := normal_draws count' meanReturn stdReturn (S (S rng)) in
      ((meanReturn + z * stdReturn) :: rest, rng')
  end.

Definition generateNormalReturns (e : MonteCarloConfidenceEngine) (rng : nat)
  : JS.outcome (list Q * nat) :=
  meanReturn <- mean (baselineReturns e) ;;
  stdReturn <- standardDeviation (baselineReturns e) ;;
  JS.Done (normal_draws (List.length (baselineReturns e)) meanReturn stdReturn rng).

(** The loop of [shuffleReturns], from [i] down to [1]. *)
Fixpoint shuffle_from (i : nat) (shuffled : list Q) (rng : nat) : list Q * nat :=
  match i with
  | O => (shuffled, rng)
  | S i' =>
      let j := Z.to_nat (Qfloor (random rng * inject_Z (Z.of_nat (i + 1)))) in
      shuffle_from i' (swap shuffled i j) (S rng)
  end.

Definition shuffleReturns (e : MonteCarloConfidenceEngine) (rng : nat) : list Q * nat :=
  shuffle_from (List.length (baselineReturns e) - 1) (baselineReturns e) rng.

(** The return scenario of one trial. *)
Definition generate_scenario (fuel : nat) (e : MonteCarloConfidenceEngine)
           (sampler : BlockBootstrapSampler) (rng : nat) : JS.outcome (list Q * nat) :=
  let bootstrap :=
    generateSample fuel sampler (List.length (baselineReturns e)) rng in
  if String.eqb (returnDistribution (config e)) "bootstrap" then bootstrap
  else if String.eqb (returnDistribution (config e)) "normal"
  then generateNormalReturns e rng
  else if String.eqb (returnDistribution (config e)) "historical"
  then JS.Done (shuffleReturns e rng)
  else bootstrap.

(** One pass of the body of the trial loop, after the scenario is drawn. *)
Definition run_trial (sim : PortfolioStrategySimulator) (e : MonteCarloConfidenceEngine)
           (simulatedReturns : list Q) (rng : nat)
  : JS.outcome (SimulationScenario * nat) :=
  let '(parameters, perturbations, rng') :=
    if includePerturbations (config e) then
      if Qltb (random rng) (1 # 2) then
        generatePerturbedParameters (perturbationMagnitude (config e))
                                    (baseParameters sim) (S rng)
      else (baseParameters sim, [], S rng)
    else (baseParameters sim, [], rng) in
  scenario <- simulateStrategy sim simulatedReturns (Some parameters) ;;
  JS.Done (with_perturbations scenario perturbations, rng').

(** The trial loop.  A trial whose scenario generation throws is skipped;
    the generators throw before they draw, so the stream of random numbers
    is where it was. *)
Fixpoint trial_loop (fuel : nat) (sim : PortfolioStrategySimulator)
         (e : MonteCarloConfidenceEngine) (sampler : BlockBootstrapSampler)
         (remaining : nat) (simulations : list SimulationScenario) (rng : nat)
  : JS.outcome (list SimulationScenario * nat) :=
  match remaining with
  | O => JS.Done (simulations, rng)
  | S remaining' =>
      match generate_scenario fuel e sampler rng with
      | JS.Done (simulatedReturns, rng1) =>
          match run_trial sim e simulatedReturns rng1 with
          | JS.Done (scenario, rng2) =>
              trial_loop fuel sim e sampler remaining' (simulations ++ [scenario]) rng2
          | JS.Thrown _ => trial_loop fuel sim e sampler remaining' simulations rng1
          | JS.Exhausted => JS.Exhausted
          end
      | JS.Thrown _ => trial_loop fuel sim e sampler remaining' simulations rng
      | JS.Exhausted => JS.Exhausted
      end
  end.

Definition runMonteCarloSimulations (fuel : nat) (sim : PortfolioStrategySimulator)
           (e : MonteCarloConfidenceEngine) (rng : nat)
  : JS.outcome (list SimulationScenario * nat) :=
  let bootstrapSampler :=
    mkBlockBootstrapSampler (baselineReturns e) (blockBootstrapLength (config e)) in
  result <- trial_loop fuel sim e bootstrapSampler
                       (Z.to_nat (numSimulations (config e))) [] rng ;;
  JS.Done (filter (fun s => negb (Qeq_bool (sc_totalReturn s) (-1))) (fst result),
           snd result).

Record ConfidenceInterval : Type := mkConfidenceInterval {
  ci_lower : Q;
  ci_upper : Q;
  ci_median : Q;
  ci_mean : Q
}.

(** The five metrics of a scenario, by name; only [var95] can be [NaN]. *)
Definition metric_values (simulations : list SimulationScenario)
  : list (string * list Q) :=
  let finite (v : JS.num) := match v with JS.Fin q => [q] | _ => [] end in
  [ ("totalReturn"%string, map sc_totalReturn simulations);
    ("volatility"%string, map sc_volatility simulations);
    ("sharpeRatio"%string, map sc_sharpeRatio simulations);
    ("maxDrawdown"%string, map sc_maxDrawdown simulations);
    ("var95"%string, flat_map (fun s => finite (sc_var95 s)) simulations) ].

Definition interval_at (vals : list Q) (level : Q)
  : JS.outcome (Q * ConfidenceInterval) :=
  let lowerPercentile := (1 - level) / 2 in
  let upperPercentile := 1 - lowerPercentile in
  lower <- quantile vals lowerPercentile ;;
  upper <- quantile vals upperPercentile ;;
  median <- quantile vals (1 # 2) ;;
  m <- mean vals ;;
  JS.Done (level, mkConfidenceInterval lower upper median m).

Fixpoint intervals_of (e : MonteCarloConfidenceEngine) (metrics : list (string * list Q))
  : JS.outcome (list (string * list (Q * ConfidenceInterval))) :=
  match metrics with
  | [] => JS.Done []
  | (metric, vals) :: rest =>
      match vals with
      | [] => intervals_of e rest
      | _ =>
          levels <- JS.traverse (interval_at vals) (confidenceLevels (config e)) ;;
          others <- intervals_of e rest ;;
          JS.Done ((metric, levels) :: others)
      end
  end.

Definition calculateConfidenceIntervals (e : MonteCarloConfidenceEngine)
           (simulations : list SimulationScenario)
  : JS.outcome (list (string * list (Q * ConfidenceInterval))) :=
  intervals_of e (metric_values simulations).

Record ReturnRobustness : Type := mkReturnRobustness {
  rr_percentileAboveThreshold : JS.num;
  rr_percentilePositive : JS.num;
  rr_worstCase : JS.num;
  rr_bestCase : JS.num;
  rr_downside95 : Q
}.

Record SharpeRobustness : Type := mkSharpeRobustness {
  sr_percentileAboveThreshold : JS.num;
  sr_percentilePositive : JS.num;
  sr_worstCase : JS.num;
  sr_bestCase : JS.num
}.

Record ParameterSensitivity : Type := mkParameterSensitivity {
  psn_perturbedMean : Q;
  psn_baseCaseMean : Q;
  psn_sensitivityRatio : JS.num
}.

Record RobustnessMetrics : Type := mkRobustnessMetrics {
  returnRobustness : ReturnRobustness;
  sharpeRobustness : SharpeRobustness;
  parameterSensitivity : option ParameterSensitivity
}.

(** [xs.filter(p).length / xs.length] *)
Definition fraction (p : Q -> bool) (xs : list Q) : JS.num :=
  JS.ratio (List.length (filter p xs)) (List.length xs).

Definition calculateRobustnessMetrics (e : MonteCarloConfidenceEngine)
           (baseline : SimulationScenario) (simulations : list SimulationScenario)
  : JS.outcome RobustnessMetrics :=
  let baselineReturn := sc_totalReturn baseline in
  let baselineSharpe := sc_sharpeRatio baseline in
  let threshold := robustnessThreshold (config e) in
  let returns := map sc_totalReturn simulations in
  let sharpeRatios := map sc_sharpeRatio simulations in
  downside95 <- quantile returns (5 # 100) ;;
  let returnPart :=
    {| rr_percentileAboveThreshold :=
         fraction (fun r => Qle_bool (baselineReturn * threshold) r) returns;
       rr_percentilePositive := fraction (fun r => Qltb 0 r) returns;
       rr_worstCase := JS.min_of (map JS.Fin returns);
       rr_bestCase := JS.max_of (map JS.Fin returns);
       rr_downside95 := downside95 |} in
  let sharpePart :=
    {| sr_percentileAboveThreshold :=
         fraction (fun s => Qle_bool (baselineSharpe * threshold) s) sharpeRatios;
       sr_percentilePositive := fraction (fun s => Qltb 0 s) sharpeRatios;
       sr_worstCase := JS.min_of (map JS.Fin sharpeRatios);
       sr_bestCase := JS.max_of (map JS.Fin sharpeRatios) |} in
  let perturbed s := (0 <? List.length (sc_perturbations s))%nat in
  let perturbedSimulations := filter perturbed simulations in
  sensitivity <-
    (match perturbedSimulations with
     | [] => JS.Done None
     | _ =>
         let perturbedReturns := map sc_totalReturn perturbedSimulations in
         let baseCaseReturns :=
           map sc_totalReturn (filter (fun s => negb (perturbed s)) simulations) in
         match baseCaseReturns with
         | [] => JS.Done None
         | _ =>
             perturbedMean <- mean perturbedReturns ;;
             baseCaseMean <- mean baseCaseReturns ;;
             JS.Done (Some {| psn_perturbedMean := perturbedMean;
                              psn_baseCaseMean := baseCaseMean;
                              psn_sensitivityRatio :=
                                JS.div (JS.Fin perturbedMean) (JS.Fin baseCaseMean) |})
         end
     end) ;;
  JS.Done {| returnRobustness := returnPart;
             sharpeRobustness := sharpePart;
             parameterSensitivity := sensitivity |}.

Record DistributionStats : Type := mkDistributionStats {
  ds_mean : Q;
  ds_median : Q;
  ds_std : Q;
  ds_skewness : Q;
  ds_kurtosis : Q;
  ds_extremes : option (JS.num * JS.num)   (* [min] and [max]: returns only *)
}.

(** [calculateSkewness] ([power] 3, [excess] 0) and [calculateKurtosis]
    ([power] 4, [excess] 3). *)
Definition standardized_moment (power : Z) (excess : Q) (vals : list Q)
  : JS.outcome Q :=
  let n := inject_Z (Z.of_nat (List.length vals)) in
  meanVal <- mean vals ;;
  stdVal <- standardDeviation vals ;;
  JS.Done (if Qeq_bool stdVal 0 then 0
           else fold_left (fun sum x => sum + Qpower ((x - meanVal) / stdVal) power)
                          vals 0 / n - excess).

Definition distribution_of (with_extremes : bool) (vals : list Q)
  : JS.outcome DistributionStats :=
  m <- mean vals ;;
  median <- quantile vals (1 # 2) ;;
  std <- standardDeviation vals ;;
  skewness <- standardized_moment 3 0 vals ;;
  kurtosis <- standardized_moment 4 3 vals ;;
  JS.Done {| ds_mean := m; ds_median := median; ds_std := std;
             ds_skewness := skewness; ds_kurtosis := kurtosis;
             ds_extremes :=
               if with_extremes
               then Some (JS.min_of (map JS.Fin vals), JS.max_of (map JS.Fin vals))
               else None |}.

Definition calculateDistributionStats (simulations : list SimulationScenario)
  : JS.outcome (DistributionStats * DistributionStats) :=
  returnStats <- distribution_of true (map sc_totalReturn simulations) ;;
  sharpeStats <- distribution_of false (map sc_sharpeRatio simulations) ;;
  JS.Done (returnStats, sharpeStats).

Record ScenarioAnalysis : Type := mkScenarioAnalysis {
  sa_worstReturn : option SimulationScenario;
  sa_worstSharpe : option SimulationScenario;
  sa_bestReturn : option SimulationScenario;
  sa_bestSharpe : option SimulationScenario;
  sa_p5 : option SimulationScenario;
  sa_p25 : option SimulationScenario;
  sa_p75 : option SimulationScenario;
  sa_p95 : option SimulationScenario
}.

Definition performScenarioAnalysis (simulations : list SimulationScenario)
  : ScenarioAnalysis :=
  let sortedByReturn := sort_by sc_totalReturn simulations in
  let sortedBySharpe := sort_by sc_sharpeRatio simulations in
  let n := Z.of_nat (List.length sortedByReturn) in
  let percentile (p : Q) := at_index sortedByReturn (Qfloor (p * inject_Z n)) in
  {| sa_worstReturn := at_index sortedByReturn 0;
     sa_worstSharpe := at_index sortedBySharpe 0;
     sa_bestReturn := at_index sortedByReturn (n - 1);
     sa_bestSharpe :=
       at_index sortedBySharpe (Z.of_nat (List.length sortedBySharpe) - 1);
     sa_p5 := percentile (5 # 100);
     sa_p25 := percentile (25 # 100);
     sa_p75 := percentile (75 # 100);
     sa_p95 := percentile (95 # 100) |}.

Definition calculateOverallRobustnessScore (m : RobustnessMetrics) : JS.num :=
  let returnRobustnessScore :=
    JS.or_zero (rr_percentileAboveThreshold (returnRobustness m)) in
  let sharpeRobustnessScore :=
    JS.or_zero (sr_percentileAboveThreshold (sharpeRobustness m)) in
  let positiveReturnRate := JS.or_zero (rr_percentilePositive (returnRobustness m)) in
  let weights := [4 # 10; 4 # 10; 2 # 10] in
  let scores := [returnRobustnessScore; sharpeRobustnessScore; positiveReturnRate] in
  fold_left (fun sum ws => JS.add sum (JS.mul (JS.Fin (fst ws)) (snd ws)))
            (combine weights scores) (JS.Fin 0).

Record MonteCarloResult : Type := mkMonteCarloResult {
  simulations : list SimulationScenario;
  confidenceIntervals : list (string * list (Q * ConfidenceInterval));
  robustnessMetrics : RobustnessMetrics;
  distributionStats : DistributionStats * DistributionStats;
  scenarioAnalysis : ScenarioAnalysis;
  isRobust : bool;
  robustnessScore : JS.num
}.

Definition runConfidenceAnalysis (fuel : nat) (e : MonteCarloConfidenceEngine) (rng : nat)
  : JS.outcome (MonteCarloResult * MonteCarloConfidenceEngine * nat) :=
  match simulator e with
  | None => JS.Thrown "Monte Carlo engine not initialized"
  | Some sim =>
      baseline <- simulateStrategy sim (baselineReturns e) None ;;
      let e' := {| config := config e;
                   baselineReturns := baselineReturns e;
                   simulator := simulator e;
                   baselineMetrics := Some baseline |} in
      run <- runMonteCarloSimulations fuel sim e' rng ;;
      let '(sims, rng') := run in
      intervals <- calculateConfidenceIntervals e' sims ;;
      metrics <- calculateRobustnessMetrics e' baseline sims ;;
      stats <- calculateDistributionStats sims ;;
      let analysis := performScenarioAnalysis sims in
      let score := calculateOverallRobustnessScore metrics in
      JS.Done ({| simulations := sims;
                  confidenceIntervals := intervals;
                  robustnessMetrics := metrics;
                  distributionStats := stats;
                  scenarioAnalysis := analysis;
                  isRobust := JS.geb score (JS.Fin (robustnessThreshold (config e')));
                  robustnessScore := score |},
               e', rng')
  end.
End MonteCarlo.

(* ===================================================================== *)
(** ** A rational statistics package for concrete runs *)
(* ===================================================================== *)

(** The functions below follow the statistics package on the inputs the
    concrete runs of this file give them: every one of them throws on an
    empty array, the mean is the exact mean, the standard deviation of a
    constant series is zero, and the quantile of a constant series is its
    value.  Square roots are taken to ten decimal places. *)
Module Rational.
Definition sqrt (x : Q) : Q :=
  inject_Z (Z.sqrt (Qfloor (x * 100000000000000000000))) / 10000000000.

(** Sum in lowest terms. *)
Definition sum (xs : list Q) : Q := fold_right (fun x acc => Qred (x + acc)) 0 xs.

Definition mean (xs : list Q) : JS.outcome Q :=
  match xs with
  | [] => JS.Thrown "mean requires at least one data point"
  | _ => JS.Done (Qred (sum xs / inject_Z (Z.of_nat (List.length xs))))
  end.

Definition standardDeviation (xs : list Q) : JS.outcome Q :=
  match xs with
  | [] => JS.Thrown "variance requires at least one data point"
  | [_] => JS.Done 0
  | _ =>
      m <- mean xs ;;
      JS.Done (sqrt (sum (map (fun x => Qred ((x - m) * (x - m))) xs)
                     / inject_Z (Z.of_nat (List.length xs))))
  end.

(** The sample quantile at the rank [ceil(n * p)]. *)
Definition quantile (xs : list Q) (p : Q) : JS.outcome Q :=
  match xs with
  | [] => JS.Thrown "quantile requires at least one data point"
  | x :: _ =>
      let sorted := sort_by (fun v => v) xs in
      let rank := Qceiling (inject_Z (Z.of_nat (List.length xs)) * p) in
      JS.Done (nth (Z.to_nat (Z.max 0 (rank - 1))) sorted x)
  end.

(** Not called by the runs of this file, which resample by bootstrap. *)
Definition box_muller (u1 u2 : Q) : Q := 0.

(** A generator that always hands out one half. *)
Definition random (n : nat) : Q := 1 # 2.
End Rational.

(* ===================================================================== *)
(** ** A small run of the backtester *)
(* ===================================================================== *)

(** Two symbols, 100000 in cash; both are priced on the first day, half the
    cash goes into AAA, and on the second day AAA has no quote (its price
    series has no point on that date, so [getPriceDataForDate] leaves it out
    of the price map). *)
Module Example.
(** Default costs, with a linear market impact so that [Math.pow] is exact. *)
Definition model : TransactionCostModel :=
  newTransactionCostModel (mkCostConfig None None None (Some 1) None None).

Definition fresh : PortfolioState := newPortfolioState 100000 ["AAA"; "BBB"]%string.

Definition day1 : PortfolioState :=
  updatePrices [("AAA", 100); ("BBB", 50)]%string "2024-01-02" fresh.

Definition bought : PortfolioState :=
  match executeTrade pow_integral 2 "AAA" 50000 100 model "2024-01-02" day1 with
  | JS.Done (_, st) => st
  | _ => day1
  end.

Definition day2 : PortfolioState :=
  updatePrices [("BBB", 50)]%string "2024-01-03" bought.

(** A calendar of 400 dates, named by two letters in increasing order. *)
Definition date_name (i : nat) : string :=
  String (Ascii.ascii_of_nat (65 + i / 20))
         (String (Ascii.ascii_of_nat (65 + i mod 20)) EmptyString).

Definition quotes (days : nat) (price : Q) : list DataPoint :=
  map (fun i => mkDataPoint (date_name i) price) (seq 0 days).

(** AAA is quoted on all 400 days, BBB on the first 200 of them. *)
Definition history400 : HistoricalData :=
  [("AAA", quotes 400 100); ("BBB", quotes 200 50)]%string.
End Example.

(* ===================================================================== *)
(** ** Derived quantities used by the statements *)
(* ===================================================================== *)

(** The window that starts its test at [startIndex]. *)
Definition window_at (cfg : WalkForwardConfig) (allDates : list string)
           (startIndex : Z) : TimeWindow :=
  let n := Z.of_nat (List.length allDates) in
  let optimizationStart := at_index allDates (startIndex - lookbackWindow cfg) in
  let testEnd := at_index allDates (Z.min (startIndex + holdoutWindow cfg - 1) (n - 1)) in
  {| tw_optimizationStart := optimizationStart;
     tw_optimization := mkDateRange optimizationStart (at_index allDates (startIndex - 1));
     tw_test := mkDateRange (at_index allDates startIndex) testEnd;
     tw_testEnd := testEnd |}.

(** The test-start indices the window loop visits over [n] dates. *)
Fixpoint window_starts (fuel : nat) (cfg : WalkForwardConfig) (n startIndex : Z)
  : JS.outcome (list Z) :=
  match fuel with
  | O => JS.Exhausted
  | S fuel' =>
      if (startIndex + holdoutWindow cfg <? n)%Z then
        rest <- window_starts fuel' cfg n (startIndex + stepSize cfg) ;;
        JS.Done (startIndex :: rest)
      else JS.Done []
  end.

(** The configuration of the walk-forward scenario of the specification. *)
Definition scenario_config : WalkForwardConfig :=
  newWalkForwardConfig
    (mkWalkForwardOptions (Some 252%Z) (Some 63%Z) (Some 21%Z) None None).

(** A history is said to have [k] distinct trading dates. *)
Definition distinct_trading_dates (historicalData : HistoricalData) (k : nat) : Prop :=
  exists dates, NoDup dates /\ List.length dates = k
                /\ forall d, In d dates <-> In d (all_dates historicalData).




(** A grid cell fails: its evaluation throws, or it ends without a usable
    result (no convergence, no weights, or a score that is not above
    [-Infinity]). *)
Definition cell_fails {C} (cell : C -> JS.outcome (option (OptimizedStrategy * JS.num)))
           (c : C) : Prop :=
  match cell c with
  | JS.Thrown _ => True
  | JS.Done None => True
  | JS.Done (Some (_, score)) => JS.gtb score JS.NegInf = false
  | JS.Exhausted => False
  end.

(** A library routine that always throws. *)
Definition always_throws {A} : JS.outcome A := JS.Thrown "singular matrix".

(** The options of the Monte Carlo scenario of the specification: 1000
    simulations, robustness threshold 0.5, everything else left to its
    default. *)
Definition scenario_options : MonteCarloOptions :=
  mkMonteCarloOptions (Some 1000%Z) None None None (Some (1 # 2)) None None.

(** The strategy function that hands back the baseline series, whatever it
    is given. *)
Definition constant_strategy (baseline : list Q) : StrategyFunction :=
  fun _ _ => JS.Done (mkStrategyOutput (Some baseline)).

(** The engine of the scenario, initialized on a baseline. *)
Definition scenario_engine (baseline : list Q) (base : Parameters)
  : MonteCarloConfidenceEngine :=
  initialize (newMonteCarloConfidenceEngine scenario_options) baseline
             (constant_strategy baseline) base.

(** The simulator of the constant strategy. *)
Definition constant_simulator (baseline : list Q) (base : Parameters)
  : PortfolioStrategySimulator :=
  mkPortfolioStrategySimulator (constant_strategy baseline) base.

(** A scenario repeats the figures of the baseline: its total return, and
    its Sharpe ratio [sharpe]. *)
Definition repeats_baseline (baseline : list Q) (sharpe : Q) (s : SimulationScenario)
  : Prop :=
  sc_totalReturn s = calculateTotalReturn baseline /\ sc_sharpeRatio s = sharpe.

(** Sum of the market values of the positions held. *)
Definition holdings_value (st : PortfolioState) : Q :=
  Qsum (map (fun sp => value (snd sp)) (positions st)).

(** Sum of the position weights. *)
Definition weights_sum (st : PortfolioState) : Q :=
  Qsum (map (fun sp => weight (snd sp)) (positions st)).

(** The valuation invariant: total value is cash plus holdings. *)
Definition valuation_invariant (st : PortfolioState) : Prop :=
  JS.eqv (totalValue st) (JS.add (cash st) (JS.Fin (holdings_value st))).

(** Every position the price map leaves out is worth nothing. *)
Definition unpriced_are_empty (priceData : list (string * Q))
           (ps : list (string * Position)) : Prop :=
  forall symbol p, In (symbol, p) ps ->
                   truthy_price priceData symbol = None -> value p == 0.


(* ===================================================================== *)
(** ** Further definitions: the rest of the three modules *)
(* ===================================================================== *)

From Stdlib Require Import Permutation Sorted Qpower.

(** What the first loop of [updatePrices] does to the position of one
    symbol. *)
Definition repriced (priceData : list (string * Q)) (symbol : string) (p : Position)
  : Position :=
  match truthy_price priceData symbol with
  | Some price => {| shares := shares p; avgPrice := avgPrice p;
                     currentPrice := price;
                     value := shares p * price;
                     weight := weight p |}
  | None => p
  end.


(** The block that [generateSample] cuts at a start index. *)
Definition block_at (sampler : BlockBootstrapSampler) (startIndex : Z) : list Q :=
  slice (originalReturns sampler) startIndex
        (Z.min (startIndex + blockLength sampler)
               (Z.of_nat (List.length (originalReturns sampler)))).

(** The largest start index [generateSample] can draw. *)
Definition maxStartIndex_of (sampler : BlockBootstrapSampler) : Z :=
  Z.max 0 (Z.of_nat (List.length (originalReturns sampler)) - blockLength sampler).

Definition is_number (v : ParamValue) : bool :=
  match v with
  | PNumber _ => true
  | POther _ => false
  end.

(** Options for a short run: three simulations, the rest left to its
    default. *)
Definition short_run_options : MonteCarloOptions :=
  mkMonteCarloOptions (Some 3%Z) None None None None None None.

(* ===================================================================== *)
(** ** ConfidenceVisualizationData *)
(* ===================================================================== *)

Module JSMath.

(** [Math.abs] *)
Definition abs (a : JS.num) : JS.num :=
  match a with
  | JS.Fin x => JS.Fin (Qabs x)
  | JS.NaN => JS.NaN
  | _ => JS.PosInf
  end.

(** [Math.ceil] *)
Definition ceil (a : JS.num) : JS.num :=
  match a with
  | JS.Fin x => JS.Fin (inject_Z (Qceiling x))
  | other => other
  end.
End JSMath.




(* ===================================================================== *)
(** ** WalkForwardAnalysis: validation *)
(* ===================================================================== *)

From Stdlib Require Import DecimalString.

(** An integer inside a template literal. *)
Definition show_Z (z : Z) : string := NilZero.string_of_int (Z.to_int z).

(** [validateData], on the sorted dates of the history. *)
Definition validateData_on (cfg : WalkForwardConfig) (allDates : list string)
  : JS.outcome unit :=
  let requiredLength := (lookbackWindow cfg + holdoutWindow cfg)%Z in
  let availableLength := Z.of_nat (List.length allDates) in
  if (availableLength <? requiredLength)%Z
  then JS.Thrown ("Insufficient data: need " ++ show_Z requiredLength
                  ++ " days, have " ++ show_Z availableLength)
  else JS.Done tt.

Definition validateData (cfg : WalkForwardConfig) (historicalData : HistoricalData)
  : JS.outcome unit :=
  validateData_on cfg (getAllTradingDates historicalData).

(** A window all of whose dates are defined. *)
Definition window_of_dates (optimizationStart optimizationEnd testStart testEnd : string)
  : TimeWindow :=
  {| tw_optimizationStart := Some optimizationStart;
     tw_optimization := mkDateRange (Some optimizationStart) (Some optimizationEnd);
     tw_test := mkDateRange (Some testStart) (Some testEnd);
     tw_testEnd := Some testEnd |}.

(** The number of windows over [n] dates. *)
Definition window_count (cfg : WalkForwardConfig) (n : Z) : Z :=
  if (lookbackWindow cfg + holdoutWindow cfg <? n)%Z
  then (n - lookbackWindow cfg - holdoutWindow cfg - 1) / stepSize cfg + 1
  else 0.

(** The methods [calculateReturns] knows. *)
Definition known_method (method : string) : Prop :=
  method = "percentage"%string \/ method = "log"%string \/ method = "absolute"%string.

(** Risk figures for a concrete run that does not read them. *)
Definition no_risk_figures : RiskFigures :=
  mkRiskFigures JS.NaN JS.NaN JS.NaN JS.NaN JS.NaN JS.NaN JS.NaN JS.NaN JS.NaN.

(* ===================================================================== *)
(** ** RebalancingStrategy and the data access of the backtester *)
(* ===================================================================== *)

Record RebalancingStrategy : Type := mkRebalancingStrategy {
  targetWeights : list (string * Q);
  frequency : string;
  threshold : Q;
  lastRebalanceDate : option string
}.

(** The [for] loop of [checkThresholdRebalancing], which returns at the
    first symbol that has drifted. *)
Fixpoint check_drift (limit : Q) (currentWeights : list (string * Q))
         (targets : list (string * Q)) : bool :=
  match targets with
  | [] => false
  | (symbol, targetWeight) :: rest =>
      let currentWeight := JS.or_default (lookup symbol currentWeights) 0 in
      let drift := Qabs (currentWeight - targetWeight) in
      if Qltb limit drift then true else check_drift limit currentWeights rest
  end.

Definition checkThresholdRebalancing (s : RebalancingStrategy)
           (currentWeights : list (string * Q)) : bool :=
  check_drift (threshold s) currentWeights (targetWeights s).

Definition getFrequencyDays (s : RebalancingStrategy) : Z :=
  if String.eqb (frequency s) "daily" then 1
  else if String.eqb (frequency s) "weekly" then 7
  else if String.eqb (frequency s) "monthly" then 30
  else if String.eqb (frequency s) "quarterly" then 90
  else 30.

Definition getTargetValues (s : RebalancingStrategy) (totalPortfolioValue : JS.num)
  : list (string * JS.num) :=
  map (fun entry => (fst entry, JS.mul totalPortfolioValue (JS.Fin (snd entry))))
      (targetWeights s).

Section Rebalancing.
(** [new Date(date)] as a number of milliseconds, [NaN] for a string that is
    not a date. *)
Variable timestamp : string -> JS.num.

Definition getDaysBetween (date1 date2 : string) : JS.num :=
  let diffTime := JSMath.abs (JS.sub (timestamp date2) (timestamp date1)) in
  JSMath.ceil (JS.div diffTime (JS.Fin (1000 * 60 * 60 * 24))).

(** [needsRebalancing]; an empty date string is as falsy as [null]. *)
Definition needsRebalancing (s : RebalancingStrategy)
           (currentWeights : list (string * Q)) (date : string) : bool :=
  match lastRebalanceDate s with
  | Some last =>
      if String.eqb last "" then true
      else
        let daysSinceRebalance := getDaysBetween last date in
        let frequencyDays := JS.Fin (inject_Z (getFrequencyDays s)) in
        if JS.gtb frequencyDays daysSinceRebalance
        then checkThresholdRebalancing s currentWeights
        else true
  | None => true
  end.
End Rebalancing.

(** [BacktestingEngine.getPriceDataForDate] *)
Definition getPriceDataForDate (historicalData : HistoricalData) (date : string)
  : list (string * Q) :=
  fold_left (fun priceData entry =>
               match find (fun d => String.eqb (dp_date d) date) (snd entry) with
               | Some dataPoint => assign (fst entry) (dp_price dataPoint) priceData
               | None => priceData
               end)
            historicalData [].

(** The first quote of a symbol on a date. *)
Definition quote_on (historicalData : HistoricalData) (symbol date : string)
  : option Q :=
  match lookup symbol historicalData with
  | Some data => option_map dp_price (find (fun d => String.eqb (dp_date d) date) data)
  | None => None
  end.

(** A cost configuration without negative entries. *)
Definition option_nonneg (v : option Q) : Prop :=
  match v with
  | Some x => 0 <= x
  | None => True
  end.

Definition nonneg_options (config : CostConfig) : Prop :=
  option_nonneg (cfg_fixedCost config)
  /\ option_nonneg (cfg_variableCostBps config)
  /\ option_nonneg (cfg_marketImpactBps config)
  /\ option_nonneg (cfg_marketImpactExponent config)
  /\ option_nonneg (cfg_bidAskSpreadBps config)
  /\ option_nonneg (cfg_minTradeSize config).

(* ===================================================================== *)
(** ** WalkForwardAnalysis.calculateRobustnessScore *)
(* ===================================================================== *)

Record OutOfSampleStats : Type := mkOutOfSampleStats {
  oos_totalReturn : JS.num;
  oos_sharpeRatio : JS.num
}.

(** A period of the analysis, as far as the score reads it. *)
Record WalkForwardPeriod : Type := mkWalkForwardPeriod {
  success : bool;
  outOfSampleStats : option OutOfSampleStats
}.

(** [p.outOfSampleStats?.field || 0] *)
Definition stat_or_zero (field : OutOfSampleStats -> JS.num) (p : WalkForwardPeriod)
  : JS.num :=
  JS.or_zero (match outOfSampleStats p with
              | Some stats => field stats
              | None => JS.NaN
              end).

Definition calculateRobustnessScore (periods : list WalkForwardPeriod) : JS.num :=
  let successfulPeriods := filter success periods in
  match successfulPeriods with
  | [] => JS.Fin 0
  | _ =>
      let returns := map (stat_or_zero oos_totalReturn) successfulPeriods in
      let sharpeRatios := map (stat_or_zero oos_sharpeRatio) successfulPeriods in
      let positiveReturns :=
        List.length (filter (fun r => JS.gtb r (JS.Fin 0)) returns) in
      let positiveSharpe :=
        List.length (filter (fun s => JS.gtb s (JS.Fin 0)) sharpeRatios) in
      let returnConsistency := JS.ratio positiveReturns (List.length returns) in
      let sharpeConsistency := JS.ratio positiveSharpe (List.length sharpeRatios) in
      JS.div (JS.add returnConsistency sharpeConsistency) (JS.Fin 2)
  end.

(* ===================================================================== *)
(** ** calculateMarketCapWeights *)
(* ===================================================================== *)


(* ===================================================================== *)
(** ** The grid an optimization searches *)
(* ===================================================================== *)

Section OptimizerGrid.
Variable Matrix : Type.
Variable matrix_get : Matrix -> nat -> nat -> JS.outcome JS.num.
Variable calculateCovarianceMatrix : list (list JS.num) -> JS.outcome Matrix.
Variable optimizeRiskParityCore : Matrix -> Q -> Q -> JS.outcome RiskParityOutput.
Variable optimizePortfolioMinVariance :
  list JS.num -> Matrix -> JS.num -> JS.outcome (list JS.num).
Variable blackLittermanOptimization :
  list JS.num -> Matrix -> Q -> Q -> JS.outcome BlackLittermanOutput.
Variable mean : list JS.num -> JS.outcome JS.num.
Variable Math_sqrt : JS.num -> JS.num.
Variable Math_log : JS.num -> JS.num.
Variable in_window : string -> DateRange -> bool.

(** Every parameter combination of the grid that [optimizeStrategy] searches
    for this method, this data window and these parameter ranges fails: the
    cells are those of the method's own grid, evaluated on the covariance
    matrix (and the expected returns) computed from the window. *)
Definition grid_fails (o : PortfolioStrategyOptimizer) (method : string)
           (dataWindow : DateRange) (parameterRanges : ParameterRanges) : Prop :=
  if String.eqb method "risk_parity" then
    forall windowReturns covarianceMatrix,
      extractReturnsForWindow Math_log in_window o dataWindow = JS.Done windowReturns ->
      calculateCovarianceMatrix windowReturns = JS.Done covarianceMatrix ->
      forall cell,
        In cell (list_prod (range_or (pr_maxIterations parameterRanges) [50; 100; 200])
                           (range_or (pr_tolerance parameterRanges)
                                     [1 # 1000000; 1 # 100000; 1 # 10000])) ->
        cell_fails (risk_parity_cell Matrix optimizeRiskParityCore covarianceMatrix) cell
  else if String.eqb method "mean_variance" then
    forall windowReturns covarianceMatrix expectedReturns,
      extractReturnsForWindow Math_log in_window o dataWindow = JS.Done windowReturns ->
      calculateCovarianceMatrix windowReturns = JS.Done covarianceMatrix ->
      JS.traverse mean windowReturns = JS.Done expectedReturns ->
      forall targetReturn,
        In targetReturn (range_or (pr_targetReturn parameterRanges)
                                  (generateTargetReturnRange expectedReturns)) ->
        cell_fails (mean_variance_cell Matrix matrix_get optimizePortfolioMinVariance
                                       Math_sqrt expectedReturns covarianceMatrix)
                   targetReturn
  else if String.eqb method "black_litterman" then
    forall windowReturns covarianceMatrix,
      extractReturnsForWindow Math_log in_window o dataWindow = JS.Done windowReturns ->
      calculateCovarianceMatrix windowReturns = JS.Done covarianceMatrix ->
      forall cell,
        In cell (list_prod (range_or (pr_tau parameterRanges)
                                     [1 # 100; 25 # 1000; 5 # 100; 1 # 10])
                           (range_or (pr_riskAversion parameterRanges) [1; 3; 5; 10])) ->
        cell_fails
          (black_litterman_cell
             Matrix blackLittermanOptimization
             (repeat (JS.div (JS.Fin 1)
                             (JS.Fin (inject_Z (Z.of_nat (List.length (pso_symbols o))))))
                     (List.length (pso_symbols o)))
             covarianceMatrix)
          cell
  else True.
End OptimizerGrid.

(** A covariance routine that keeps only the shape of the matrix, one row and
    one column per return series, and a risk-parity routine that throws, as
    the one of portfolio-math.js does, when it is given fewer than two
    assets, and converges otherwise. *)
Definition shape_covariance (returnsMatrix : list (list JS.num))
  : JS.outcome (list (list JS.num)) :=
  JS.Done (map (fun _ => map (fun _ => JS.Fin 0) returnsMatrix) returnsMatrix).

Definition risk_parity_of_two_or_more (covarianceMatrix : list (list JS.num))
           (maxIterations tolerance : Q) : JS.outcome RiskParityOutput :=
  let n := List.length covarianceMatrix in
  if (n <? 2)%nat
  then JS.Thrown "Need at least 2 assets for Risk Parity optimization"
  else JS.Done {| rp_weights :=
                    repeat (JS.div (JS.Fin 1) (JS.Fin (inject_Z (Z.of_nat n)))) n;
                  rp_converged := true;
                  rp_iterations := JS.Fin 1;
                  rp_riskParityScore := JS.Fin 1 |}.

(** A history of one asset, quoted on five days. *)
Definition single_asset_history : HistoricalData :=
  [("AAA"%string, Example.quotes 5 100)].


(** The marked-to-market portfolio of the small run, one day after its
    purchase. *)
Definition marked_after_purchase : PortfolioState :=
  updatePrices [("AAA", 110); ("BBB", 50)]%string "2024-01-03" Example.bought.

(** A clock that reads two dates ten days apart and nothing else, and a
    60/40 strategy last rebalanced on the first of them. *)
Definition ten_day_clock (date : string) : JS.num :=
  if String.eqb date "2024-01-01" then JS.Fin 0
  else if String.eqb date "2024-01-11" then JS.Fin (10 * (1000 * 60 * 60 * 24))
  else JS.NaN.

Definition sixty_forty : RebalancingStrategy :=
  {| targetWeights := [("AAA"%string, 6 # 10); ("BBB"%string, 4 # 10)];
     frequency := "monthly";
     threshold := 5 # 100;
     lastRebalanceDate := Some "2024-01-01"%string |}.
(* ===================================================================== *)
(** * Properties *)
(* ===================================================================== *)

Lemma Qltb_true (a b : Q) : Qltb a b = true <-> a < b.
Proof.
  unfold Qltb. rewrite negb_true_iff. split; intro H.
  - apply Qnot_le_lt. intro Hle. apply Qle_bool_iff in Hle. congruence.
  - destruct (Qle_bool b a) eqn:E; auto.
    apply Qle_bool_iff in E. exfalso. apply (Qlt_not_le _ _ H E).
Qed.

Lemma Qltb_false (a b : Q) : Qltb a b = false <-> b <= a.
Proof.
  unfold Qltb. rewrite negb_false_iff. apply Qle_bool_iff.
Qed.

(* --------------------------------------------------------------------- *)
(** ** TransactionCostModel *)

Section CostModelFacts.
Variable Math_pow : Q -> Q -> Q.

Lemma calculateTradeCost_small (m : TransactionCostModel) (tv adv : Q) :
  Qabs tv < minTradeSize m ->
  calculateTradeCost Math_pow m tv adv = CostNumber 0.
Proof.
  intro H. unfold calculateTradeCost.
  apply Qltb_true in H. now rewrite H.
Qed.

Lemma calculateTradeCost_priced (m : TransactionCostModel) (tv adv : Q) :
  ~ Qabs tv < minTradeSize m ->
  exists b, calculateTradeCost Math_pow m tv adv = CostBreakdownOf b
            /\ cb_totalCost b ==
               fixedCost m + Qabs tv * (variableCostBps m / 10000)
               + cb_marketImpact b + Qabs tv * (bidAskSpreadBps m / 10000).
Proof.
  intro H. unfold calculateTradeCost.
  destruct (Qltb (Qabs tv) (minTradeSize m)) eqn:E.
  - apply Qltb_true in E. contradiction.
  - eexists. split; [reflexivity|]. simpl. reflexivity.
Qed.
End CostModelFacts.

(** C7.  Two cost models that agree on every field but [variableCostBps]:
    for any trade value and volume, the one with the larger rate charges at
    least as much in total.  (For a trade below the minimum size both return
    the same bare [0].) *)
Theorem variable_cost_monotone :
  forall (Math_pow : Q -> Q -> Q) (m1 m2 : TransactionCostModel) (tradeValue adv : Q),
    fixedCost m1 = fixedCost m2 ->
    marketImpactBps m1 = marketImpactBps m2 ->
    marketImpactExponent m1 = marketImpactExponent m2 ->
    bidAskSpreadBps m1 = bidAskSpreadBps m2 ->
    minTradeSize m1 = minTradeSize m2 ->
    variableCostBps m1 <= variableCostBps m2 ->
    match calculateTradeCost Math_pow m1 tradeValue adv,
          calculateTradeCost Math_pow m2 tradeValue adv with
    | CostBreakdownOf b1, CostBreakdownOf b2 => cb_totalCost b1 <= cb_totalCost b2
    | CostNumber n1, CostNumber n2 => n1 == 0 /\ n2 == 0
    | _, _ => False
    end.
Proof.
  intros pow m1 m2 tv adv Hf Hi He Hb Hm Hv.
  unfold calculateTradeCost. rewrite <- Hm.
  destruct (Qltb (Qabs tv) (minTradeSize m1)).
  - split; reflexivity.
  - cbn [cb_totalCost]. rewrite <- Hf, <- Hi, <- He, <- Hb.
    assert (Habs : 0 <= Qabs tv) by apply Qabs_nonneg.
    assert (Hrate : variableCostBps m1 / 10000 <= variableCostBps m2 / 10000).
    { apply Qmult_le_compat_r; [exact Hv | discriminate]. }
    assert (Hvar : Qabs tv * (variableCostBps m1 / 10000)
                   <= Qabs tv * (variableCostBps m2 / 10000)).
    { rewrite !(Qmult_comm (Qabs tv)). apply Qmult_le_compat_r; assumption. }
    lra.
Qed.

Lemma variable_cost_monotone_witness :
  match calculateTradeCost pow_integral
          (newTransactionCostModel
             (mkCostConfig None (Some 5) None (Some 1) None None)) 50000 1000000,
        calculateTradeCost pow_integral
          (newTransactionCostModel
             (mkCostConfig None (Some 8) None (Some 1) None None)) 50000 1000000 with
  | CostBreakdownOf b1, CostBreakdownOf b2 => cb_totalCost b1 <= cb_totalCost b2
  | CostNumber n1, CostNumber n2 => n1 == 0 /\ n2 == 0
  | _, _ => False
  end.
Proof.
  apply variable_cost_monotone; try reflexivity.
  vm_compute. discriminate.
Defined.

(** C9.  A trade below the minimum size is answered with the bare number
    [0], on which the field [totalCost] reads [undefined]; every other trade
    is answered with the breakdown record, whose [totalCost] is a number. *)
Theorem small_trade_cost_is_bare_zero :
  forall (Math_pow : Q -> Q -> Q) (m : TransactionCostModel) (tradeValue adv : Q),
    Qabs tradeValue < minTradeSize m ->
    calculateTradeCost Math_pow m tradeValue adv = CostNumber 0
    /\ get_totalCost (calculateTradeCost Math_pow m tradeValue adv) = JS.Undefined
    /\ (forall larger adv', ~ Qabs larger < minTradeSize m ->
          exists b, calculateTradeCost Math_pow m larger adv' = CostBreakdownOf b
                    /\ get_totalCost (calculateTradeCost Math_pow m larger adv')
                       = JS.Number (cb_totalCost b)).
Proof.
  intros pow m tv adv H.
  rewrite (calculateTradeCost_small pow m tv adv H).
  repeat split.
  intros larger adv' Hl.
  destruct (calculateTradeCost_priced pow m larger adv' Hl) as [b [Hb _]].
  exists b. rewrite Hb. split; reflexivity.
Qed.

Lemma small_trade_cost_is_bare_zero_witness :
  calculateTradeCost pow_integral (newTransactionCostModel emptyCostConfig) 50 1000000
  = CostNumber 0
  /\ get_totalCost
       (calculateTradeCost pow_integral (newTransactionCostModel emptyCostConfig) 50 1000000)
     = JS.Undefined.
Proof.
  destruct (small_trade_cost_is_bare_zero pow_integral
              (newTransactionCostModel emptyCostConfig) 50 1000000) as [H1 [H2 _]].
  - vm_compute. reflexivity.
  - split; assumption.
Defined.

(* --------------------------------------------------------------------- *)
(** ** PortfolioState: valuation *)

Lemma Qsum_scale (f : Position -> Q) (t : Q) (ps : list (string * Position)) :
  Qsum (map (fun sp => f (snd sp) / t) ps) == Qsum (map (fun sp => f (snd sp)) ps) / t.
Proof.
  induction ps as [|sp ps IH]; simpl.
  - unfold Qdiv. lra.
  - rewrite IH. unfold Qdiv. ring.
Qed.

Lemma reprice_total (priceData : list (string * Q)) :
  forall (ps : list (string * Position)) (c : Q),
    unpriced_are_empty priceData ps ->
    exists t, snd (reprice priceData ps (JS.Fin c)) = JS.Fin t
              /\ t == c + Qsum (map (fun sp => value (snd sp))
                                    (fst (reprice priceData ps (JS.Fin c)))).
Proof.
  induction ps as [|[symbol p] ps IH]; intros c Hempty.
  - exists c. simpl. split; [reflexivity | lra].
  - assert (Hrest : unpriced_are_empty priceData ps).
    { intros s q Hin. apply Hempty. now right. }
    simpl. destruct (truthy_price priceData symbol) as [price|] eqn:Eprice.
    + cbn [JS.add value].
      destruct (IH (c + shares p * price) Hrest) as [t [Ht Hsum]].
      destruct (reprice priceData ps (JS.Fin (c + shares p * price))) as [rest' total'].
      simpl in *. exists t. split; [assumption | lra].
    + destruct (IH c Hrest) as [t [Ht Hsum]].
      destruct (reprice priceData ps (JS.Fin c)) as [rest' total'].
      simpl in *. exists t. split; [assumption|].
      assert (Hzero : value p == 0) by (apply (Hempty symbol p); [now left | assumption]).
      lra.
Qed.

Lemma reweigh_value (total : JS.num) (ps : list (string * Position)) :
  map (fun sp => value (snd sp)) (map (fun sp => (fst sp, reweigh total (snd sp))) ps)
  = map (fun sp => value (snd sp)) ps.
Proof.
  rewrite map_map. apply map_ext. intros [s p]. reflexivity.
Qed.

(** With finite cash and a price for every position that is worth something,
    [updatePrices] leaves the total value equal to cash plus holdings. *)
Lemma updatePrices_valuation (priceData : list (string * Q)) (date : string)
      (st : PortfolioState) (c : Q) :
  cash st = JS.Fin c ->
  unpriced_are_empty priceData (positions st) ->
  exists t, totalValue (updatePrices priceData date st) = JS.Fin t
            /\ cash (updatePrices priceData date st) = JS.Fin c
            /\ t == c + holdings_value (updatePrices priceData date st).
Proof.
  intros Hcash Hempty. unfold updatePrices, holdings_value. rewrite Hcash.
  destruct (reprice_total priceData (positions st) c Hempty) as [t [Ht Hsum]].
  destruct (reprice priceData (positions st) (JS.Fin c)) as [repriced total].
  simpl in *. subst total. exists t. repeat split.
  now rewrite reweigh_value.
Qed.

(** C1.  In the example run 500 shares of AAA are bought for 50000 on the
    first day, which leaves 49959.5 in cash.  On the second day AAA has no
    quote: the total value recorded by [updatePrices] is the cash alone,
    although the AAA position is still carried at 50000, so the total is not
    cash plus holdings. *)
Theorem stale_position_left_out_of_total :
  match executeTrade pow_integral 2 "AAA" 50000 100 Example.model "2024-01-02"
                     Example.day1 with
  | JS.Done (Executed tradedShares tradedValue _, st) =>
      tradedShares == 500 /\ tradedValue == 50000 /\ st = Example.bought
  | _ => False
  end
  /\ JS.eqv (cash Example.day2) (JS.Fin (99919 # 2))
  /\ holdings_value Example.day2 == 50000
  /\ JS.eqv (totalValue Example.day2) (JS.Fin (99919 # 2))
  /\ ~ valuation_invariant Example.day2.
Proof.
  repeat split; try (vm_compute; reflexivity).
  vm_compute. discriminate.
Qed.

(** C3 (as the code has it).  After [updatePrices], with finite cash, a
    price for every position that is worth something and a positive total
    value, the position weights sum to [1 - cash / totalValue]: the share of
    the portfolio that is not cash.  The sum is 1 when there is no cash. *)
Theorem weights_sum_is_invested_share :
  forall (priceData : list (string * Q)) (date : string) (st : PortfolioState) (c : Q),
    cash st = JS.Fin c ->
    unpriced_are_empty priceData (positions st) ->
    JS.gtb (totalValue (updatePrices priceData date st)) (JS.Fin 0) = true ->
    JS.eqv (JS.Fin (weights_sum (updatePrices priceData date st)))
           (JS.sub (JS.Fin 1)
                   (JS.div (JS.Fin c) (totalValue (updatePrices priceData date st))))
    /\ (c == 0 -> weights_sum (updatePrices priceData date st) == 1).
Proof.
  intros pd date st c Hcash Hempty Hpos.
  destruct (updatePrices_valuation pd date st c Hcash Hempty) as [t [Ht [_ Hsum]]].
  rewrite Ht in *. simpl in Hpos. apply Qltb_true in Hpos.
  assert (Hweights : weights_sum (updatePrices pd date st)
                     == holdings_value (updatePrices pd date st) / t).
  { revert Ht. unfold weights_sum, holdings_value, updatePrices.
    destruct (reprice pd (positions st) (cash st)) as [repriced total].
    simpl. intros ->. rewrite reweigh_value, map_map. simpl.
    apply Qltb_true in Hpos. rewrite Hpos.
    apply (Qsum_scale value t repriced). }
  assert (Ht0 : ~ t == 0) by lra.
  split.
  - simpl. destruct (Qeq_bool t 0) eqn:E.
    + apply Qeq_bool_iff in E. contradiction.
    + simpl. rewrite Hweights. setoid_replace (holdings_value (updatePrices pd date st))
        with (t - c) by lra. field. exact Ht0.
  - intro Hc. rewrite Hweights.
    setoid_replace (holdings_value (updatePrices pd date st)) with t by lra.
    field. exact Ht0.
Qed.

Lemma weights_sum_is_invested_share_witness :
  exists c : Q,
    cash Example.bought = JS.Fin c
    /\ JS.gtb (totalValue marked_after_purchase) (JS.Fin 0) = true
    /\ JS.eqv (JS.Fin (weights_sum marked_after_purchase))
              (JS.sub (JS.Fin 1) (JS.div (JS.Fin c) (totalValue marked_after_purchase)))
    /\ 0 < c
    /\ 0 < weights_sum marked_after_purchase < 1.
Proof.
  eexists.
  split; [vm_compute; reflexivity|].
  split; [vm_compute; reflexivity|].
  split.
  - apply (weights_sum_is_invested_share
             [("AAA", 110); ("BBB", 50)]%string "2024-01-03" Example.bought).
    + vm_compute. reflexivity.
    + intros symbol p Hin Hnone. vm_compute in Hin.
      destruct Hin as [H|[H|[]]]; inversion H; subst; [discriminate Hnone | reflexivity].
    + vm_compute. reflexivity.
  - split; [reflexivity|]. split; vm_compute; reflexivity.
Defined.

(** C3 (as stated) fails: a fresh portfolio holds only cash; after its
    first [updatePrices] the total value is positive and every weight is 0,
    so the weights sum to 0, not to 1. *)
Lemma weights_sum_not_one_with_cash :
  JS.gtb (totalValue Example.day1) (JS.Fin 0) = true
  /\ weights_sum Example.day1 == 0
  /\ ~ Qabs (weights_sum Example.day1 - 1) <= 1 # 2.
Proof.
  repeat split; try (vm_compute; reflexivity).
  vm_compute. intro H. apply H. reflexivity.
Qed.

(* --------------------------------------------------------------------- *)
(** ** PortfolioState: trading *)

Section TradingFacts.
Variable Math_pow : Q -> Q -> Q.

(** What a call of [executeTrade] that returns has done to a portfolio
    with finite cash: a refusal changes nothing; a trade priced with the
    breakdown record leaves cash non-negative; a trade "priced" with the
    bare number leaves cash [NaN]. *)
Lemma executeTrade_returns :
  forall (fuel : nat) (symbol : string) (target price : Q)
         (model : TransactionCostModel) (date : string)
         (st st' : PortfolioState) (c : Q) (r : TradeResult),
    cash st = JS.Fin c ->
    executeTrade Math_pow fuel symbol target price model date st = JS.Done (r, st') ->
    match r with
    | NotExecuted reason => reason = "insufficient_funds"%string /\ st' = st
    | Executed _ _ (CostBreakdownOf _) => JS.nonneg (cash st')
    | Executed _ _ (CostNumber _) => cash st' = JS.NaN
    end.
Proof.
  induction fuel as [|fuel IH]; intros symbol target price model date st st' c r Hcash Hrun.
  - discriminate.
  - simpl in Hrun.
    destruct (lookup symbol (positions st)) as [pos|]; [|discriminate].
    rewrite Hcash in Hrun.
    destruct (calculateTradeCost Math_pow model (target - value pos)
                                 defaultAverageDailyVolume) as [n|b] eqn:Ecost.
    + simpl in Hrun. inversion Hrun; subst. reflexivity.
    + simpl in Hrun.
      destruct (Qltb c (target - value pos + cb_totalCost b)) eqn:Eneed.
      * destruct (Qltb 0 (c + - cb_totalCost b)) eqn:Eavail.
        -- eapply IH; eassumption.
        -- inversion Hrun; subst. split; reflexivity.
      * inversion Hrun; subst. simpl.
        apply Qltb_false in Eneed. lra.
Qed.
End TradingFacts.

(** C2.  On the first day of the example run, a trade of 50 (below the
    minimum size of 100) in AAA is executed with the bare-number cost: the
    call reports an executed trade of half a share and leaves cash [NaN],
    which is not a non-negative amount.  From then on no purchase is ever
    held back by the funds check: a purchase of 10000000 of BBB, a hundred
    times the portfolio, is executed in full. *)
Theorem small_trade_turns_cash_into_NaN :
  forall (Math_pow : Q -> Q -> Q) (fuel : nat),
    match executeTrade Math_pow (S fuel) "AAA" 50 100
                       (newTransactionCostModel emptyCostConfig) "2024-01-02"
                       Example.day1 with
    | JS.Done (Executed tradedShares tradedValue costs, st') =>
        tradedShares == 1 # 2 /\ tradedValue == 50 /\ costs = CostNumber 0
        /\ cash Example.day1 = JS.Fin 100000
        /\ cash st' = JS.NaN
        /\ ~ JS.nonneg (cash st')
        /\ match executeTrade Math_pow (S fuel) "BBB" 10000000 50
                              (newTransactionCostModel emptyCostConfig) "2024-01-02"
                              st' with
           | JS.Done (Executed _ boughtValue _, st'') =>
               boughtValue == 10000000 /\ cash st'' = JS.NaN
           | _ => False
           end
    | _ => False
    end.
Proof.
  intros pow fuel. vm_compute.
  repeat split; auto.
Qed.

(** C10.  With fewer than two snapshots in the history,
    [getPerformanceStats] returns [null]: it does not throw, and the state
    it hands back is the state it was given. *)
Theorem getPerformanceStats_short_history :
  forall (Math_log : JS.num -> JS.num)
         (risk_figures : JS.num -> list JS.num -> list JS.num -> JS.outcome RiskFigures)
         (st : PortfolioState),
    (List.length (history st) < 2)%nat ->
    getPerformanceStats Math_log risk_figures st = JS.Done (None, st).
Proof.
  intros log risk st H. unfold getPerformanceStats.
  apply Nat.ltb_lt in H. now rewrite H.
Qed.

Lemma getPerformanceStats_short_history_witness :
  (List.length (history Example.day1) < 2)%nat
  /\ getPerformanceStats (fun x => x) (fun _ _ _ => JS.Thrown "unused") Example.day1
     = JS.Done (None, Example.day1).
Proof.
  split.
  - vm_compute. lia.
  - apply getPerformanceStats_short_history. vm_compute. lia.
Defined.

(* --------------------------------------------------------------------- *)
(** ** Walk-forward windows *)

Lemma insert_sorted_length (d : string) (l : list string) :
  List.length (insert_sorted d l) = S (List.length l).
Proof.
  induction l as [|x l IH]; simpl; [reflexivity|].
  destruct (String.leb d x); simpl; congruence.
Qed.

Lemma sort_strings_length (l : list string) :
  List.length (sort_strings l) = List.length l.
Proof.
  induction l as [|x l IH]; simpl; [reflexivity|].
  rewrite insert_sorted_length. congruence.
Qed.

Lemma existsb_eqb_In (d : string) (seen : list string) :
  existsb (String.eqb d) seen = true <-> In d seen.
Proof.
  rewrite existsb_exists. split.
  - intros [x [Hin Heq]]. apply String.eqb_eq in Heq. now subst.
  - intro Hin. exists d. split; [assumption | apply String.eqb_refl].
Qed.

(** Collecting dates in a set keeps each date once. *)
Lemma set_add_all (ds : list string) :
  forall seen, NoDup seen ->
    NoDup (fold_left (fun seen d => set_add d seen) ds seen)
    /\ forall d, In d (fold_left (fun seen d => set_add d seen) ds seen)
                 <-> In d seen \/ In d ds.
Proof.
  induction ds as [|x ds IH]; intros seen Hnd; simpl.
  - split; [assumption | tauto].
  - assert (Hnd' : NoDup (set_add x seen)).
    { unfold set_add. destruct (existsb (String.eqb x) seen) eqn:E; [assumption|].
      apply NoDup_app; [assumption | repeat constructor; intros [] |].
      intros a Ha [Hx|[]]. subst a.
      apply existsb_eqb_In in Ha. congruence. }
    destruct (IH _ Hnd') as [H1 H2]. split; [assumption|].
    intro d. rewrite H2. unfold set_add.
    destruct (existsb (String.eqb x) seen) eqn:E.
    + apply existsb_eqb_In in E. split; [tauto|].
      intros [H|[H|H]]; subst; tauto.
    + rewrite in_app_iff. simpl. tauto.
Qed.

Lemma getAllTradingDates_length (historicalData : HistoricalData) (k : nat) :
  distinct_trading_dates historicalData k ->
  List.length (getAllTradingDates historicalData) = k.
Proof.
  intros [dates [Hnd [Hlen Hsame]]].
  unfold getAllTradingDates. rewrite sort_strings_length.
  destruct (set_add_all (all_dates historicalData) [] (NoDup_nil _)) as [Hnd' Hin].
  rewrite <- Hlen. apply Nat.le_antisymm.
  - apply NoDup_incl_length; [assumption|].
    intros d Hd. apply Hin in Hd. destruct Hd as [[]|Hd]. now apply Hsame.
  - apply NoDup_incl_length; [assumption|].
    intros d Hd. apply Hin. right. now apply Hsame.
Qed.

(** The loop, read off the list of its test-start indices. *)
Lemma window_loop_starts (cfg : WalkForwardConfig) (allDates : list string) :
  forall (fuel : nat) (startIndex : Z) (windows : list TimeWindow),
    window_loop fuel cfg allDates startIndex windows
    = (starts <- window_starts fuel cfg (Z.of_nat (List.length allDates)) startIndex ;;
       JS.Done (windows ++ map (window_at cfg allDates) starts)).
Proof.
  induction fuel as [|fuel IH]; intros startIndex windows; simpl; [reflexivity|].
  destruct (startIndex + holdoutWindow cfg <? Z.of_nat (List.length allDates))%Z.
  - rewrite IH.
    destruct (window_starts fuel cfg (Z.of_nat (List.length allDates))
                            (startIndex + stepSize cfg)) as [starts| |]; simpl;
      try reflexivity.
    now rewrite <- app_assoc.
  - simpl. now rewrite app_nil_r.
Qed.

(** More fuel does not change an answer already reached. *)
Lemma window_starts_more_fuel (cfg : WalkForwardConfig) (n : Z) :
  forall (fuel extra : nat) (startIndex : Z) (starts : list Z),
    window_starts fuel cfg n startIndex = JS.Done starts ->
    window_starts (fuel + extra) cfg n startIndex = JS.Done starts.
Proof.
  induction fuel as [|fuel IH]; intros extra startIndex starts H; [discriminate|].
  simpl in *. destruct (startIndex + holdoutWindow cfg <? n)%Z; [|assumption].
  destruct (window_starts fuel cfg n (startIndex + stepSize cfg)) as [rest| |] eqn:E;
    try discriminate.
  now rewrite (IH extra _ _ E).
Qed.

(** C5.  With a lookback of 252, a holdout of 63 and a step of 21, a history
    of exactly 400 distinct trading dates yields exactly
    [floor((400 - 252 - 63) / 21) + 1 = 5] windows, whose tests start at the
    dates of index 252, 273, 294, 315 and 336; at the next index, 357, only
    43 dates remain, fewer than the holdout. *)
Theorem walk_forward_400_days_5_windows :
  forall (historicalData : HistoricalData) (fuel : nat),
    distinct_trading_dates historicalData 400 ->
    (6 <= fuel)%nat ->
    exists windows,
      generateTimeWindows fuel scenario_config historicalData = JS.Done windows
      /\ Z.of_nat (List.length windows) = ((400 - 252 - 63) / 21 + 1)%Z
      /\ List.length windows = 5%nat
      /\ windows = map (window_at scenario_config (getAllTradingDates historicalData))
                       [252; 273; 294; 315; 336]%Z
      /\ (400 - (336 + 21) < 63)%Z.
Proof.
  intros hd fuel Hdistinct Hfuel.
  pose proof (getAllTradingDates_length hd 400 Hdistinct) as Hlen.
  unfold generateTimeWindows, generateTimeWindows_on.
  rewrite window_loop_starts, Hlen.
  replace fuel with (6 + (fuel - 6))%nat by lia.
  rewrite (window_starts_more_fuel scenario_config (Z.of_nat 400) 6 (fuel - 6)
             (lookbackWindow scenario_config) [252; 273; 294; 315; 336]%Z)
    by (vm_compute; reflexivity).
  eexists. split; [vm_compute lookbackWindow; vm_compute holdoutWindow; reflexivity|].
  repeat split; reflexivity.
Qed.

Lemma walk_forward_400_days_5_windows_witness :
  exists windows,
    generateTimeWindows 6 scenario_config Example.history400 = JS.Done windows
    /\ List.length windows = 5%nat.
Proof.
  destruct (walk_forward_400_days_5_windows Example.history400 6) as [w [H1 [_ [H3 _]]]].
  - destruct (set_add_all (all_dates Example.history400) [] (NoDup_nil _)) as [Hnd Hin].
    exists (fold_left (fun seen d => set_add d seen) (all_dates Example.history400) []).
    split; [exact Hnd|]. split; [vm_compute; reflexivity|].
    intro d. rewrite Hin. split; [intros [[]|H]; exact H | intro H; right; exact H].
  - lia.
  - exists w. split; assumption.
Defined.

(* --------------------------------------------------------------------- *)
(** ** Block bootstrap *)


Lemma Qfloor_draw_range (u : Q) (n : Z) :
  0 <= u < 1 -> (0 < n)%Z -> (0 <= Qfloor (u * inject_Z n) < n)%Z.
Proof.
  intros [Hlo Hhi] Hn.
  assert (Hq : 0 < inject_Z n) by (change 0 with (inject_Z 0); now rewrite <- Zlt_Qlt).
  split.
  - change 0%Z with (Qfloor 0). apply Qfloor_resp_le. nra.
  - rewrite Zlt_Qlt. eapply Qle_lt_trans; [apply Qfloor_le|]. nra.
Qed.







Section Bootstrap.
Variable random : nat -> Q.
(** [Math.random] returns a number in [[0, 1)]. *)
Hypothesis random_range : forall i, 0 <= random i < 1.

Lemma sample_loop_step (fuel : nat) (sampler : BlockBootstrapSampler)
      (target : nat) (sample : list Q) (rng : nat) :
  sample_loop random (S fuel) sampler target sample rng
  = if (List.length sample <? target)%nat then
      let n := Z.of_nat (List.length (originalReturns sampler)) in
      let maxStartIndex := Z.max 0 (n - blockLength sampler) in
      let startIndex := Qfloor (random rng * inject_Z (maxStartIndex + 1)) in
      let endIndex := Z.min (startIndex + blockLength sampler) n in
      sample_loop random fuel sampler target
                  (sample ++ slice (originalReturns sampler) startIndex endIndex) (S rng)
    else JS.Done (firstn target sample, rng).
Proof. reflexivity. Qed.


End Bootstrap.









(* --------------------------------------------------------------------- *)
(** ** PortfolioStrategyOptimizer *)

Lemma grid_search_all_fail {C}
      (cell : C -> JS.outcome (option (OptimizedStrategy * JS.num))) (cells : list C) :
  (forall c, In c cells -> cell_fails cell c) ->
  grid_search cell cells None JS.NegInf = JS.Done None.
Proof.
  induction cells as [|c cells IH]; intro Hfail; simpl; [reflexivity|].
  assert (Hc : cell_fails cell c) by (apply Hfail; now left).
  assert (Hrest : grid_search cell cells None JS.NegInf = JS.Done None).
  { apply IH. intros c' Hin. apply Hfail. now right. }
  unfold cell_fails in Hc.
  destruct (cell c) as [[[candidate score]|]| |]; try assumption; try contradiction.
  now rewrite Hc.
Qed.

Lemma fallback_weights (o : PortfolioStrategyOptimizer) :
  let n := List.length (pso_symbols o) in
  strategy_weights (getFallbackStrategy o)
  = repeat (JS.div (JS.Fin 1) (JS.Fin (inject_Z (Z.of_nat n)))) n
  /\ List.length (strategy_weights (getFallbackStrategy o)) = n
  /\ Forall (fun w => JS.eqv w (JS.Fin (1 / inject_Z (Z.of_nat n))))
            (strategy_weights (getFallbackStrategy o)).
Proof.
  intro n. unfold getFallbackStrategy. fold n. simpl.
  split; [reflexivity|]. split; [apply repeat_length|].
  apply Forall_forall. intros w Hw.
  destruct n as [|n]; [inversion Hw|]. apply repeat_spec in Hw. subst w.
  unfold JS.div. destruct (Qeq_bool (inject_Z (Z.of_nat (S n))) 0) eqn:E.
  - apply Qeq_bool_iff in E. exfalso.
    assert (H : 0 < inject_Z (Z.of_nat (S n))).
    { change 0 with (inject_Z 0). rewrite <- Zlt_Qlt. lia. }
    lra.
  - simpl. reflexivity.
Qed.

Section OptimizerFacts.
Variable Matrix : Type.
Variable matrix_get : Matrix -> nat -> nat -> JS.outcome JS.num.
Variable calculateCovarianceMatrix : list (list JS.num) -> JS.outcome Matrix.
Variable optimizeRiskParityCore : Matrix -> Q -> Q -> JS.outcome RiskParityOutput.
Variable optimizePortfolioMinVariance :
  list JS.num -> Matrix -> JS.num -> JS.outcome (list JS.num).
Variable blackLittermanOptimization :
  list JS.num -> Matrix -> Q -> Q -> JS.outcome BlackLittermanOutput.
Variable mean : list JS.num -> JS.outcome JS.num.
Variable Math_sqrt : JS.num -> JS.num.
Variable Math_log : JS.num -> JS.num.
Variable in_window : string -> DateRange -> bool.

(** The library routines called before the grid return or throw. *)
Hypothesis covariance_ends : forall r, calculateCovarianceMatrix r <> JS.Exhausted.
Hypothesis mean_ends : forall r, mean r <> JS.Exhausted.

Lemma returns_after_ends (method : string) :
  forall rest prev, returns_after Math_log method prev rest <> JS.Exhausted.
Proof.
  induction rest as [|cur rest IH]; intro prev; cbn [returns_after]; [discriminate|].
  destruct (JS.leb prev (JS.Fin 0) || JS.leb cur (JS.Fin 0)); [discriminate|].
  specialize (IH cur).
  destruct (String.eqb method "percentage"); cbn [JS.bind].
  - destruct (returns_after Math_log method cur rest); cbn [JS.bind]; congruence.
  - destruct (String.eqb method "log"); cbn [JS.bind].
    + destruct (returns_after Math_log method cur rest); cbn [JS.bind]; congruence.
    + destruct (String.eqb method "absolute"); cbn [JS.bind]; [|discriminate].
      destruct (returns_after Math_log method cur rest); cbn [JS.bind]; congruence.
Qed.

Lemma extractReturnsForWindow_ends (o : PortfolioStrategyOptimizer) (w : DateRange) :
  extractReturnsForWindow Math_log in_window o w <> JS.Exhausted.
Proof.
  unfold extractReturnsForWindow. induction (pso_symbols o) as [|s syms IH]; simpl.
  - discriminate.
  - destruct (lookup s (pso_historicalData o)) as [symbolData|]; [|discriminate].
    destruct (1 <? List.length
                     (filter (fun d => in_window (dp_date d) w) symbolData))%nat;
      [|assumption].
    unfold calculateReturns.
    destruct (map (fun d => JS.Fin (dp_price d))
                  (filter (fun d => in_window (dp_date d) w) symbolData))
      as [|first [|second more]]; cbn [JS.bind]; try discriminate.
    pose proof (returns_after_ends "percentage" (second :: more) first) as Hr.
    destruct (returns_after Math_log "percentage" first (second :: more));
      cbn [JS.bind]; try congruence.
    destruct (extract_returns Math_log in_window o w syms); cbn [JS.bind]; congruence.
Qed.

Lemma traverse_mean_ends (rs : list (list JS.num)) :
  JS.traverse mean rs <> JS.Exhausted.
Proof.
  induction rs as [|r rs IH]; simpl; [discriminate|].
  pose proof (mean_ends r). destruct (mean r); simpl; try congruence.
  destruct (JS.traverse mean rs); simpl; congruence.
Qed.

(** When every cell of the grid it searches fails, each of the three
    searches ends with the equal-weight fallback or with an exception. *)
Lemma optimizeRiskParity_all_fail (o : PortfolioStrategyOptimizer) (w : DateRange)
      (ranges : ParameterRanges) :
  (forall rs cov,
      extractReturnsForWindow Math_log in_window o w = JS.Done rs ->
      calculateCovarianceMatrix rs = JS.Done cov ->
      forall c,
        In c (list_prod (range_or (pr_maxIterations ranges) [50; 100; 200])
                        (range_or (pr_tolerance ranges)
                                  [1 # 1000000; 1 # 100000; 1 # 10000])) ->
        cell_fails (risk_parity_cell Matrix optimizeRiskParityCore cov) c) ->
  optimizeRiskParity Matrix calculateCovarianceMatrix optimizeRiskParityCore
                     Math_log in_window o w ranges
  = JS.Done (getFallbackStrategy o)
  \/ exists msg, optimizeRiskParity Matrix calculateCovarianceMatrix
                                    optimizeRiskParityCore Math_log in_window o w ranges
                 = JS.Thrown msg.
Proof.
  intro Hfail. unfold optimizeRiskParity.
  pose proof (extractReturnsForWindow_ends o w) as He.
  destruct (extractReturnsForWindow Math_log in_window o w) as [rs|msg|] eqn:Ers;
    cbn [JS.bind]; [|right; eauto|congruence].
  pose proof (covariance_ends rs) as Hc.
  destruct (calculateCovarianceMatrix rs) as [cov|msg|] eqn:Ecov; cbn [JS.bind];
    [|right; eauto|congruence].
  cbv zeta.
  rewrite grid_search_all_fail by (intros c Hin; exact (Hfail rs cov eq_refl Ecov c Hin)).
  cbn [JS.bind or_fallback]. now left.
Qed.

Lemma optimizeMeanVariance_all_fail (o : PortfolioStrategyOptimizer) (w : DateRange)
      (ranges : ParameterRanges) :
  (forall rs cov er,
      extractReturnsForWindow Math_log in_window o w = JS.Done rs ->
      calculateCovarianceMatrix rs = JS.Done cov ->
      JS.traverse mean rs = JS.Done er ->
      forall t,
        In t (range_or (pr_targetReturn ranges) (generateTargetReturnRange er)) ->
        cell_fails (mean_variance_cell Matrix matrix_get optimizePortfolioMinVariance
                                       Math_sqrt er cov) t) ->
  optimizeMeanVariance Matrix matrix_get calculateCovarianceMatrix
                       optimizePortfolioMinVariance mean Math_sqrt Math_log
                       in_window o w ranges
  = JS.Done (getFallbackStrategy o)
  \/ exists msg, optimizeMeanVariance Matrix matrix_get calculateCovarianceMatrix
                                      optimizePortfolioMinVariance mean Math_sqrt
                                      Math_log in_window o w ranges
                 = JS.Thrown msg.
Proof.
  intro Hfail. unfold optimizeMeanVariance.
  pose proof (extractReturnsForWindow_ends o w) as He.
  destruct (extractReturnsForWindow Math_log in_window o w) as [rs|msg|] eqn:Ers;
    cbn [JS.bind]; [|right; eauto|congruence].
  pose proof (covariance_ends rs) as Hc.
  destruct (calculateCovarianceMatrix rs) as [cov|msg|] eqn:Ecov; cbn [JS.bind];
    [|right; eauto|congruence].
  pose proof (traverse_mean_ends rs) as Hm.
  destruct (JS.traverse mean rs) as [er|msg|] eqn:Eer; cbn [JS.bind];
    [|right; eauto|congruence].
  cbv zeta.
  rewrite grid_search_all_fail
    by (intros t Hin; exact (Hfail rs cov er eq_refl Ecov Eer t Hin)).
  cbn [JS.bind or_fallback]. now left.
Qed.

Lemma optimizeBlackLitterman_all_fail (o : PortfolioStrategyOptimizer) (w : DateRange)
      (ranges : ParameterRanges) :
  (forall rs cov,
      extractReturnsForWindow Math_log in_window o w = JS.Done rs ->
      calculateCovarianceMatrix rs = JS.Done cov ->
      forall c,
        In c (list_prod (range_or (pr_tau ranges) [1 # 100; 25 # 1000; 5 # 100; 1 # 10])
                        (range_or (pr_riskAversion ranges) [1; 3; 5; 10])) ->
        cell_fails
          (black_litterman_cell
             Matrix blackLittermanOptimization
             (repeat (JS.div (JS.Fin 1)
                             (JS.Fin (inject_Z (Z.of_nat (List.length (pso_symbols o))))))
                     (List.length (pso_symbols o)))
             cov)
          c) ->
  optimizeBlackLitterman Matrix calculateCovarianceMatrix blackLittermanOptimization
                         Math_log in_window o w ranges
  = JS.Done (getFallbackStrategy o)
  \/ exists msg, optimizeBlackLitterman Matrix calculateCovarianceMatrix
                                        blackLittermanOptimization Math_log
                                        in_window o w ranges
                 = JS.Thrown msg.
Proof.
  intro Hfail. unfold optimizeBlackLitterman.
  pose proof (extractReturnsForWindow_ends o w) as He.
  destruct (extractReturnsForWindow Math_log in_window o w) as [rs|msg|] eqn:Ers;
    cbn [JS.bind]; [|right; eauto|congruence].
  pose proof (covariance_ends rs) as Hc.
  destruct (calculateCovarianceMatrix rs) as [cov|msg|] eqn:Ecov; cbn [JS.bind];
    [|right; eauto|congruence].
  cbv zeta.
  rewrite grid_search_all_fail by (intros c Hin; exact (Hfail rs cov eq_refl Ecov c Hin)).
  cbn [JS.bind or_fallback]. now left.
Qed.
End OptimizerFacts.

(** C8.  Whatever the method name, the data window and the parameter
    ranges: when every parameter combination of the grid that the method
    searches on the data of the window fails (it throws, or it yields no
    usable result), and the library routines called before the grid return
    or throw, [optimizeStrategy] returns the equal-weight fallback, one
    weight [1 / numberOfSymbols] per symbol, and raises nothing. *)
Theorem optimizeStrategy_falls_back_to_equal_weight :
  forall (Matrix : Type)
         (matrix_get : Matrix -> nat -> nat -> JS.outcome JS.num)
         (calculateCovarianceMatrix : list (list JS.num) -> JS.outcome Matrix)
         (optimizeRiskParityCore : Matrix -> Q -> Q -> JS.outcome RiskParityOutput)
         (optimizePortfolioMinVariance :
            list JS.num -> Matrix -> JS.num -> JS.outcome (list JS.num))
         (blackLittermanOptimization :
            list JS.num -> Matrix -> Q -> Q -> JS.outcome BlackLittermanOutput)
         (mean : list JS.num -> JS.outcome JS.num)
         (Math_sqrt Math_log : JS.num -> JS.num)
         (in_window : string -> DateRange -> bool)
         (o : PortfolioStrategyOptimizer) (method : string) (dataWindow : DateRange)
         (parameterRanges : ParameterRanges),
    (forall r, calculateCovarianceMatrix r <> JS.Exhausted) ->
    (forall r, mean r <> JS.Exhausted) ->
    grid_fails Matrix matrix_get calculateCovarianceMatrix optimizeRiskParityCore
               optimizePortfolioMinVariance blackLittermanOptimization mean
               Math_sqrt Math_log in_window o method dataWindow parameterRanges ->
    let n := List.length (pso_symbols o) in
    optimizeStrategy Matrix matrix_get calculateCovarianceMatrix optimizeRiskParityCore
                     optimizePortfolioMinVariance blackLittermanOptimization mean
                     Math_sqrt Math_log in_window o method dataWindow parameterRanges
    = JS.Done (getFallbackStrategy o)
    /\ List.length (strategy_weights (getFallbackStrategy o)) = n
    /\ Forall (fun w => JS.eqv w (JS.Fin (1 / inject_Z (Z.of_nat n))))
              (strategy_weights (getFallbackStrategy o)).
Proof.
  intros Matrix matrix_get cov rp mv bl mean sqrt log in_window o method w ranges
         Hcov Hmean Hgrid n.
  destruct (fallback_weights o) as [_ [Hlen Hall]].
  split; [|split; assumption].
  unfold optimizeStrategy. unfold grid_fails in Hgrid.
  destruct (String.eqb method "risk_parity").
  { destruct (optimizeRiskParity_all_fail Matrix cov rp log in_window Hcov o w ranges
                Hgrid)
      as [H|[msg H]]; rewrite H; reflexivity. }
  destruct (String.eqb method "mean_variance").
  { destruct (optimizeMeanVariance_all_fail Matrix matrix_get cov mv mean sqrt log
                in_window Hcov Hmean o w ranges Hgrid)
      as [H|[msg H]]; rewrite H; reflexivity. }
  destruct (String.eqb method "black_litterman").
  { destruct (optimizeBlackLitterman_all_fail Matrix cov bl log in_window Hcov o w
                ranges Hgrid)
      as [H|[msg H]]; rewrite H; reflexivity. }
  reflexivity.
Qed.

Lemma optimizeStrategy_falls_back_to_equal_weight_witness :
  let o := mkPortfolioStrategyOptimizer ["AAA"]%string single_asset_history in
  optimizeStrategy (list (list JS.num)) (fun _ _ _ => always_throws) shape_covariance
                   risk_parity_of_two_or_more (fun _ _ _ => always_throws)
                   (fun _ _ _ _ => always_throws) (fun _ => always_throws)
                   (fun x => x) (fun x => x) (fun _ _ => true)
                   o "risk_parity"
                   (mkDateRange (Some "AA") (Some "JJ"))%string
                   (mkParameterRanges None None None None None)
  = JS.Done (getFallbackStrategy o)
  /\ strategy_weights (getFallbackStrategy o) = [JS.Fin (1 / 1)]
  /\ exists strategy,
      risk_parity_cell (list (list JS.num)) risk_parity_of_two_or_more
                       [[JS.Fin 0; JS.Fin 0]; [JS.Fin 0; JS.Fin 0]] (50, 1 # 1000000)
      = JS.Done (Some strategy).
Proof.
  intro o.
  destruct (optimizeStrategy_falls_back_to_equal_weight
              (list (list JS.num)) (fun _ _ _ => always_throws) shape_covariance
              risk_parity_of_two_or_more (fun _ _ _ => always_throws)
              (fun _ _ _ _ => always_throws) (fun _ => always_throws)
              (fun x => x) (fun x => x) (fun _ _ => true)
              o "risk_parity"%string
              (mkDateRange (Some "AA") (Some "JJ"))%string
              (mkParameterRanges None None None None None)) as [H _].
  - intro r. discriminate.
  - intro r. discriminate.
  - unfold grid_fails. rewrite String.eqb_refl.
    intros rs cov Hrs Hshape [maxIterations tolerance] _.
    vm_compute in Hrs. inversion Hrs; subst rs; clear Hrs.
    unfold shape_covariance in Hshape. inversion Hshape; subst cov; clear Hshape.
    unfold cell_fails, risk_parity_cell, risk_parity_of_two_or_more.
    cbn [map List.length Nat.ltb Nat.leb JS.bind]. exact I.
  - split; [exact H|]. split; [reflexivity|]. eexists. reflexivity.
Defined.

(* --------------------------------------------------------------------- *)
(** ** Monte Carlo confidence *)

(** C4 (as stated) fails: on a baseline that loses an eighth a day for two
    days, the constant strategy scores 0.4.  Every trial repeats the
    baseline's total return, which is negative and therefore below half of
    itself, and is not positive; only the Sharpe ratios (all 0, the series
    being constant) pass their threshold. *)
Lemma constant_strategy_on_losing_baseline_scores_less :
  match runConfidenceAnalysis Rational.random Rational.mean Rational.standardDeviation
                              Rational.quantile Rational.sqrt Rational.box_muller
                              10 (scenario_engine [-1 # 8; -1 # 8] []) 0 with
  | JS.Done (result, _, _) =>
      JS.eqv (robustnessScore result) (JS.Fin (4 # 10))
      /\ ~ JS.eqv (robustnessScore result) (JS.Fin 1)
      /\ List.length (simulations result) = 1000%nat
  | _ => False
  end.
Proof.
  vm_compute. repeat split; discriminate.
Qed.

Lemma slice_block_nonempty (l : list Q) (startIndex blockLength : Z) :
  (0 <= startIndex < Z.of_nat (List.length l))%Z -> (1 <= blockLength)%Z ->
  (1 <= List.length (slice l startIndex
                           (Z.min (startIndex + blockLength) (Z.of_nat (List.length l)))))%nat.
Proof.
  intros Hs Hb. unfold slice.
  set (n := Z.of_nat (List.length l)) in *.
  destruct (Z.ltb_spec startIndex 0); [lia|].
  destruct (Z.ltb_spec (Z.min (startIndex + blockLength) n) 0); [lia|].
  rewrite length_firstn, length_skipn. lia.
Qed.

Section BootstrapTermination.
Variable random : nat -> Q.
Hypothesis random_range : forall i, 0 <= random i < 1.

(** Over a non-empty series and with a positive block length every block
    has at least one element, so the loop ends within [targetLength + 1]
    tests. *)
Lemma sample_loop_total (sampler : BlockBootstrapSampler) (target : nat) :
  originalReturns sampler <> [] ->
  (1 <= blockLength sampler)%Z ->
  forall (fuel : nat) (sample : list Q) (rng : nat),
    (target - List.length sample < fuel)%nat ->
    exists r, sample_loop random fuel sampler target sample rng = JS.Done r.
Proof.
  intros Hne Hblock.
  assert (Hlen : (1 <= List.length (originalReturns sampler))%nat).
  { destruct (originalReturns sampler); [contradiction | simpl; lia]. }
  induction fuel as [|fuel IH]; intros sample rng Hfuel; [lia|].
  rewrite sample_loop_step. cbv zeta.
  destruct (List.length sample <? target)%nat eqn:E; [|eauto].
  apply Nat.ltb_lt in E. apply IH. rewrite length_app.
  set (n := Z.of_nat (List.length (originalReturns sampler))) in *.
  set (maxStart := Z.max 0 (n - blockLength sampler)).
  pose proof (Qfloor_draw_range (random rng) (maxStart + 1) (random_range rng)
                                ltac:(lia)) as Hidx.
  pose proof (slice_block_nonempty (originalReturns sampler)
                (Qfloor (random rng * inject_Z (maxStart + 1)))
                (blockLength sampler) ltac:(fold n; lia) Hblock) as Hblk.
  fold n in Hblk. lia.
Qed.
End BootstrapTermination.

Lemma filter_keeps_all {A} (f : A -> bool) (l : list A) :
  Forall (fun x => f x = true) l -> filter f l = l.
Proof.
  induction 1 as [|x l Hx _ IH]; simpl; [reflexivity|].
  now rewrite Hx, IH.
Qed.

Section ConstantStrategy.
Variable random : nat -> Q.
Variable mean standardDeviation : list Q -> JS.outcome Q.
Variable quantile : list Q -> Q -> JS.outcome Q.
Variable Math_sqrt : Q -> Q.
Variable box_muller : Q -> Q -> Q.

Hypothesis random_range : forall i, 0 <= random i < 1.
(** The statistics package answers on every non-empty array. *)
Hypothesis mean_total : forall xs, xs <> [] -> exists v, mean xs = JS.Done v.
Hypothesis standardDeviation_total :
  forall xs, xs <> [] -> exists v, standardDeviation xs = JS.Done v.
Hypothesis quantile_total :
  forall xs p, xs <> [] -> 0 <= p <= 1 -> exists v, quantile xs p = JS.Done v.

Variable baseline : list Q.
Variable base : Parameters.
Variable sharpe : Q.
Hypothesis baseline_gains : 0 < calculateTotalReturn baseline.
Hypothesis baseline_sharpe :
  calculateSharpeRatio mean standardDeviation Math_sqrt baseline = JS.Done sharpe.
Hypothesis sharpe_nonneg : 0 <= sharpe.

Lemma baseline_nonempty : baseline <> [].
Proof.
  intro H. rewrite H in baseline_gains. vm_compute in baseline_gains. discriminate.
Qed.

(** A trial of the constant strategy repeats the baseline's figures. *)
Lemma simulateStrategy_constant (returns : list Q) (parameters : option Parameters) :
  exists s, simulateStrategy mean standardDeviation Math_sqrt
                            (constant_simulator baseline base) returns parameters
            = JS.Done s
            /\ repeats_baseline baseline sharpe s.
Proof.
  destruct (standardDeviation_total baseline baseline_nonempty) as [vol Hvol].
  unfold simulateStrategy, constant_simulator, constant_strategy.
  cbn [strategyFunction baseParameters so_returns JS.bind].
  rewrite Hvol. cbn [JS.bind]. rewrite baseline_sharpe. cbn [JS.bind JS.try_catch].
  eexists. split; [reflexivity|]. split; reflexivity.
Qed.

Variable e : MonteCarloConfidenceEngine.
Hypothesis engine_baseline : baselineReturns e = baseline.
Hypothesis engine_config : config e = newMonteCarloConfig scenario_options.

Variable fuel : nat.
Hypothesis enough_fuel : (List.length baseline < fuel)%nat.

Lemma generate_scenario_returns (rng : nat) :
  exists r,
    generate_scenario random mean standardDeviation box_muller fuel e
      (mkBlockBootstrapSampler (baselineReturns e) (blockBootstrapLength (config e))) rng
    = JS.Done r.
Proof.
  unfold generate_scenario. rewrite engine_config.
  change (returnDistribution (newMonteCarloConfig scenario_options))
    with "bootstrap"%string.
  change (blockBootstrapLength (newMonteCarloConfig scenario_options)) with 22%Z.
  change (String.eqb "bootstrap" "bootstrap") with true. cbv iota.
  unfold generateSample.
  apply (sample_loop_total random random_range); cbn [originalReturns blockLength].
  - rewrite engine_baseline. exact baseline_nonempty.
  - lia.
  - rewrite engine_baseline. simpl. lia.
Qed.

Lemma run_trial_repeats (simulated : list Q) (rng : nat) :
  exists s rng',
    run_trial random mean standardDeviation Math_sqrt
              (constant_simulator baseline base) e simulated rng
    = JS.Done (s, rng')
    /\ repeats_baseline baseline sharpe s.
Proof.
  unfold run_trial.
  destruct (if includePerturbations (config e)
            then if Qltb (random rng) (1 # 2)
                 then generatePerturbedParameters random
                        (perturbationMagnitude (config e))
                        (baseParameters (constant_simulator baseline base)) (S rng)
                 else (baseParameters (constant_simulator baseline base), [], S rng)
            else (baseParameters (constant_simulator baseline base), [], rng))
  as [[parameters perturbations] rng'].
  destruct (simulateStrategy_constant simulated (Some parameters)) as [s [Hs Hrep]].
  rewrite Hs. cbn [JS.bind]. eexists. eexists. split; [reflexivity|].
  destruct Hrep as [H1 H2]. split; assumption.
Qed.

Lemma trial_loop_repeats :
  forall (remaining : nat) (sims : list SimulationScenario) (rng : nat),
    Forall (repeats_baseline baseline sharpe) sims ->
    exists sims' rng',
      trial_loop random mean standardDeviation Math_sqrt box_muller fuel
        (constant_simulator baseline base) e
        (mkBlockBootstrapSampler (baselineReturns e) (blockBootstrapLength (config e)))
        remaining sims rng
      = JS.Done (sims', rng')
      /\ Forall (repeats_baseline baseline sharpe) sims'
      /\ List.length sims' = (List.length sims + remaining)%nat.
Proof.
  induction remaining as [|remaining IH]; intros sims rng Hall.
  - exists sims, rng. cbn [trial_loop]. rewrite Nat.add_0_r. auto.
  - cbn [trial_loop].
    destruct (generate_scenario_returns rng) as [[simulated rng1] Hgen].
    rewrite Hgen.
    destruct (run_trial_repeats simulated rng1) as [s [rng2 [Hrun Hrep]]].
    rewrite Hrun.
    destruct (IH (sims ++ [s]) rng2) as [sims' [rng' [Hloop [Hall' Hlen]]]].
    { apply Forall_app. split; [assumption | now constructor]. }
    exists sims', rng'. split; [assumption|]. split; [assumption|].
    rewrite Hlen, length_app. simpl. lia.
Qed.

Lemma runMonteCarloSimulations_repeats (rng : nat) :
  exists sims rng',
    runMonteCarloSimulations random mean standardDeviation Math_sqrt box_muller
                             fuel (constant_simulator baseline base) e rng
    = JS.Done (sims, rng')
    /\ Forall (repeats_baseline baseline sharpe) sims
    /\ List.length sims = 1000%nat.
Proof.
  unfold runMonteCarloSimulations.
  destruct (trial_loop_repeats (Z.to_nat (numSimulations (config e))) [] rng
                               (Forall_nil _))
    as [sims [rng' [Hloop [Hall Hlen]]]].
  rewrite Hloop. cbn [JS.bind fst snd].
  rewrite filter_keeps_all.
  - exists sims, rng'. split; [reflexivity|]. split; [assumption|].
    rewrite Hlen, engine_config. reflexivity.
  - eapply Forall_impl; [|exact Hall]. intros s [Hret _]. rewrite Hret.
    apply negb_true_iff. destruct (Qeq_bool (calculateTotalReturn baseline) (-1)) eqn:E;
      [|reflexivity].
    apply Qeq_bool_iff in E. lra.
Qed.

Lemma interval_at_returns (vals : list Q) (level : Q) :
  vals <> [] -> 0 <= level <= 1 ->
  exists r, interval_at mean quantile vals level = JS.Done r.
Proof.
  intros Hne Hlevel. unfold interval_at.
  destruct (quantile_total vals ((1 - level) / 2) Hne) as [lo Hlo].
  { split; [apply Qle_shift_div_l | apply Qle_shift_div_r]; lra. }
  destruct (quantile_total vals (1 - (1 - level) / 2) Hne) as [hi Hhi].
  { assert ((1 - level) / 2 <= 1) by (apply Qle_shift_div_r; lra).
    assert (0 <= (1 - level) / 2) by (apply Qle_shift_div_l; lra).
    lra. }
  destruct (quantile_total vals (1 # 2) Hne) as [med Hmed]; [lra|].
  destruct (mean_total vals Hne) as [m Hm].
  rewrite Hlo. cbn [JS.bind]. rewrite Hhi. cbn [JS.bind].
  rewrite Hmed. cbn [JS.bind]. rewrite Hm. cbn [JS.bind]. eauto.
Qed.

Lemma traverse_interval_at (vals : list Q) (levels : list Q) :
  vals <> [] -> Forall (fun l => 0 <= l <= 1) levels ->
  exists r, JS.traverse (interval_at mean quantile vals) levels = JS.Done r.
Proof.
  intros Hne. induction 1 as [|l levels Hl _ [r IH]]; cbn [JS.traverse]; [eauto|].
  destruct (interval_at_returns vals l Hne Hl) as [i Hi].
  rewrite Hi. cbn [JS.bind]. rewrite IH. cbn [JS.bind]. eauto.
Qed.

Lemma calculateConfidenceIntervals_returns (sims : list SimulationScenario) :
  exists r, calculateConfidenceIntervals mean quantile e sims = JS.Done r.
Proof.
  unfold calculateConfidenceIntervals.
  induction (metric_values sims) as [|[metric vals] rest [r IH]];
    cbn [intervals_of]; [eauto|].
  destruct vals as [|v vals]; [eauto|].
  destruct (traverse_interval_at (v :: vals) (confidenceLevels (config e)))
    as [levels Hlevels].
  - discriminate.
  - rewrite engine_config. repeat constructor; vm_compute; discriminate.
  - rewrite Hlevels. cbn [JS.bind]. rewrite IH. cbn [JS.bind]. eauto.
Qed.

Lemma distribution_of_returns (extremes : bool) (vals : list Q) :
  vals <> [] ->
  exists r, distribution_of mean standardDeviation quantile extremes vals = JS.Done r.
Proof.
  intro Hne. unfold distribution_of, standardized_moment.
  destruct (mean_total vals Hne) as [m Hm].
  destruct (quantile_total vals (1 # 2) Hne) as [med Hmed]; [lra|].
  destruct (standardDeviation_total vals Hne) as [sd Hsd].
  rewrite Hm. cbn [JS.bind]. rewrite Hmed. cbn [JS.bind].
  rewrite Hsd. cbn [JS.bind]. eauto.
Qed.

Lemma calculateDistributionStats_returns (sims : list SimulationScenario) :
  sims <> [] ->
  exists r, calculateDistributionStats mean standardDeviation quantile sims = JS.Done r.
Proof.
  intro Hne. unfold calculateDistributionStats.
  destruct (distribution_of_returns true (map sc_totalReturn sims)) as [r1 H1].
  { destruct sims; [contradiction | discriminate]. }
  destruct (distribution_of_returns false (map sc_sharpeRatio sims)) as [r2 H2].
  { destruct sims; [contradiction | discriminate]. }
  rewrite H1. cbn [JS.bind]. rewrite H2. cbn [JS.bind]. eauto.
Qed.

Lemma fraction_all (p : Q -> bool) (f : SimulationScenario -> Q)
      (sims : list SimulationScenario) :
  Forall (fun s => p (f s) = true) sims ->
  fraction p (map f sims) = JS.ratio (List.length sims) (List.length sims).
Proof.
  intro Hall. unfold fraction. rewrite filter_keeps_all.
  - now rewrite length_map.
  - apply Forall_forall. intros x Hx. apply in_map_iff in Hx.
    destruct Hx as [s [Hs Hin]]. subst x.
    rewrite Forall_forall in Hall. now apply Hall.
Qed.

(** Every trial passes the two thresholds and has a positive return. *)
Lemma calculateRobustnessMetrics_full (b : SimulationScenario)
      (sims : list SimulationScenario) :
  repeats_baseline baseline sharpe b ->
  Forall (repeats_baseline baseline sharpe) sims -> sims <> [] ->
  exists m,
    calculateRobustnessMetrics mean quantile e b sims = JS.Done m
    /\ rr_percentileAboveThreshold (returnRobustness m)
       = JS.ratio (List.length sims) (List.length sims)
    /\ sr_percentileAboveThreshold (sharpeRobustness m)
       = JS.ratio (List.length sims) (List.length sims)
    /\ rr_percentilePositive (returnRobustness m)
       = JS.ratio (List.length sims) (List.length sims).
Proof.
  intros [Hb1 Hb2] Hall Hne. unfold calculateRobustnessMetrics. cbv zeta.
  rewrite engine_config, Hb1, Hb2.
  change (robustnessThreshold (newMonteCarloConfig scenario_options)) with (1 # 2).
  destruct (quantile_total (map sc_totalReturn sims) (5 # 100)) as [q Hq].
  { destruct sims; [contradiction | discriminate]. }
  { lra. }
  rewrite Hq. cbn [JS.bind].
  rewrite (fraction_all (fun r => Qle_bool (calculateTotalReturn baseline * (1 # 2)) r)
                        sc_totalReturn sims).
  2:{ eapply Forall_impl; [|exact Hall]. intros s [Hs _]. rewrite Hs.
      apply Qle_bool_iff. lra. }
  rewrite (fraction_all (fun r => Qltb 0 r) sc_totalReturn sims).
  2:{ eapply Forall_impl; [|exact Hall]. intros s [Hs _]. rewrite Hs.
      apply Qltb_true. exact baseline_gains. }
  rewrite (fraction_all (fun s => Qle_bool (sharpe * (1 # 2)) s) sc_sharpeRatio sims).
  2:{ eapply Forall_impl; [|exact Hall]. intros s [_ Hs]. rewrite Hs.
      apply Qle_bool_iff. lra. }
  match goal with
  | |- context [JS.bind ?c _] =>
      assert (Hs : exists s, c = JS.Done s); [|destruct Hs as [s Hs]; rewrite Hs]
  end.
  { destruct (filter _ sims) as [|p ps] eqn:Ep; [eauto|].
    destruct (map sc_totalReturn (filter _ sims)) as [|x xs] eqn:Ex; [eauto|].
    destruct (mean_total (map sc_totalReturn (p :: ps))) as [m1 Hm1]; [discriminate|].
    destruct (mean_total (x :: xs)) as [m2 Hm2]; [discriminate|].
    rewrite Hm1. cbn [JS.bind]. rewrite Hm2. cbn [JS.bind]. eauto. }
  cbn [JS.bind]. eexists. split; [reflexivity|]. repeat split.
Qed.
End ConstantStrategy.

Lemma ratio_full (n : nat) :
  (0 < n)%nat -> exists q, JS.ratio n n = JS.Fin q /\ q == 1.
Proof.
  intro Hn. unfold JS.ratio, JS.div.
  assert (Hq : 0 < inject_Z (Z.of_nat n)).
  { change 0 with (inject_Z 0). rewrite <- Zlt_Qlt. lia. }
  destruct (Qeq_bool (inject_Z (Z.of_nat n)) 0) eqn:E.
  - apply Qeq_bool_iff in E. lra.
  - eexists. split; [reflexivity|]. field. lra.
Qed.

Lemma full_marks (m : RobustnessMetrics) (n : nat) :
  (0 < n)%nat ->
  rr_percentileAboveThreshold (returnRobustness m) = JS.ratio n n ->
  sr_percentileAboveThreshold (sharpeRobustness m) = JS.ratio n n ->
  rr_percentilePositive (returnRobustness m) = JS.ratio n n ->
  JS.eqv (calculateOverallRobustnessScore m) (JS.Fin 1)
  /\ JS.geb (calculateOverallRobustnessScore m) (JS.Fin (1 # 2)) = true.
Proof.
  intros Hn H1 H2 H3. unfold calculateOverallRobustnessScore.
  rewrite H1, H2, H3. destruct (ratio_full n Hn) as [q [Hq Hone]]. rewrite Hq.
  cbn [JS.or_zero combine fold_left fst snd JS.mul JS.add JS.eqv JS.geb].
  split.
  - rewrite Hone. reflexivity.
  - apply Qle_bool_iff. rewrite Hone. vm_compute. discriminate.
Qed.

(** C4 (as the code has it).  With 1000 simulations, a robustness threshold
    of 0.5 and every other option at its default, a strategy function that
    always hands back the baseline series scores
    [0.4 * 1 + 0.4 * 1 + 0.2 * 1 = 1] and is reported robust, provided the
    baseline's total return is positive and its Sharpe ratio is not
    negative.  (The statistics package is assumed to answer on non-empty
    arrays and [Math.random] to stay in [[0, 1)].) *)
Theorem constant_strategy_scores_one_on_gaining_baseline :
  forall (random : nat -> Q) (mean standardDeviation : list Q -> JS.outcome Q)
         (quantile : list Q -> Q -> JS.outcome Q) (Math_sqrt : Q -> Q)
         (box_muller : Q -> Q -> Q)
         (baseline : list Q) (base : Parameters) (sharpe : Q) (fuel rng : nat),
    (forall i, 0 <= random i < 1) ->
    (forall xs, xs <> [] -> exists v, mean xs = JS.Done v) ->
    (forall xs, xs <> [] -> exists v, standardDeviation xs = JS.Done v) ->
    (forall xs p, xs <> [] -> 0 <= p <= 1 -> exists v, quantile xs p = JS.Done v) ->
    0 < calculateTotalReturn baseline ->
    calculateSharpeRatio mean standardDeviation Math_sqrt baseline = JS.Done sharpe ->
    0 <= sharpe ->
    (List.length baseline < fuel)%nat ->
    exists result e' rng',
      runConfidenceAnalysis random mean standardDeviation quantile Math_sqrt box_muller
                            fuel (scenario_engine baseline base) rng
      = JS.Done (result, e', rng')
      /\ JS.eqv (robustnessScore result) (JS.Fin 1)
      /\ isRobust result = true
      /\ List.length (simulations result) = 1000%nat.
Proof.
  intros random mean sd quantile sqrt bm baseline base sharpe fuel rng
         Hrange Hmean Hsd Hquantile Hgain Hsharpe Hnonneg Hfuel.
  unfold runConfidenceAnalysis, scenario_engine, initialize.
  cbn [simulator baselineReturns config].
  fold (constant_simulator baseline base).
  destruct (simulateStrategy_constant mean sd sqrt Hsd baseline base sharpe Hgain
                                      Hsharpe baseline None) as [b [Hb Hrep]].
  rewrite Hb. cbn [JS.bind].
  match goal with
  | |- context [runMonteCarloSimulations _ _ _ _ _ _ _ ?e' _] => set (engine := e')
  end.
  destruct (runMonteCarloSimulations_repeats random mean sd sqrt bm Hrange Hsd
              baseline base sharpe Hgain Hsharpe engine eq_refl eq_refl fuel Hfuel rng)
    as [sims [rng' [Hrun [Hall Hlen]]]].
  rewrite Hrun. cbn [JS.bind].
  assert (Hne : sims <> []) by (intro H; rewrite H in Hlen; discriminate).
  destruct (calculateConfidenceIntervals_returns mean quantile Hmean Hquantile
              engine eq_refl sims) as [intervals Hint].
  rewrite Hint. cbn [JS.bind].
  destruct (calculateRobustnessMetrics_full mean quantile Hmean Hquantile baseline
              sharpe Hgain Hnonneg engine eq_refl b sims Hrep Hall Hne)
    as [m [Hm [H1 [H2 H3]]]].
  rewrite Hm. cbn [JS.bind].
  destruct (calculateDistributionStats_returns mean sd quantile Hmean Hsd Hquantile
              sims Hne) as [stats Hstats].
  rewrite Hstats. cbn [JS.bind].
  destruct (full_marks m (List.length sims) ltac:(lia) H1 H2 H3) as [Hscore Hrobust].
  eexists. eexists. eexists. split; [reflexivity|].
  cbn [robustnessScore isRobust simulations].
  split; [exact Hscore|]. split; [|exact Hlen].
  exact Hrobust.
Qed.

Lemma Rational_mean_total (xs : list Q) :
  xs <> [] -> exists v, Rational.mean xs = JS.Done v.
Proof.
  destruct xs; [contradiction|]. intros _. unfold Rational.mean. eauto.
Qed.

Lemma Rational_standardDeviation_total (xs : list Q) :
  xs <> [] -> exists v, Rational.standardDeviation xs = JS.Done v.
Proof.
  destruct xs as [|x [|y xs]]; [contradiction| |]; intros _;
    unfold Rational.standardDeviation, Rational.mean; cbn [JS.bind]; eauto.
Qed.

Lemma Rational_quantile_total (xs : list Q) (p : Q) :
  xs <> [] -> 0 <= p <= 1 -> exists v, Rational.quantile xs p = JS.Done v.
Proof.
  destruct xs; [contradiction|]. intros _ _. unfold Rational.quantile. eauto.
Qed.

Lemma constant_strategy_scores_one_on_gaining_baseline_witness :
  0 < calculateTotalReturn [1 # 8; 1 # 8]
  /\ exists result e' rng',
      runConfidenceAnalysis Rational.random Rational.mean Rational.standardDeviation
                            Rational.quantile Rational.sqrt Rational.box_muller
                            4 (scenario_engine [1 # 8; 1 # 8] []) 0
      = JS.Done (result, e', rng')
      /\ JS.eqv (robustnessScore result) (JS.Fin 1).
Proof.
  split; [vm_compute; reflexivity|].
  destruct (constant_strategy_scores_one_on_gaining_baseline
              Rational.random Rational.mean Rational.standardDeviation
              Rational.quantile Rational.sqrt Rational.box_muller
              [1 # 8; 1 # 8] [] 0 4%nat 0%nat)
    as [result [e' [rng' [Hrun [Hscore _]]]]].
  - intro i. vm_compute. split; [discriminate | reflexivity].
  - exact Rational_mean_total.
  - exact Rational_standardDeviation_total.
  - exact Rational_quantile_total.
  - vm_compute. reflexivity.
  - vm_compute. reflexivity.
  - vm_compute. discriminate.
  - simpl. lia.
  - exists result, e', rng'. split; assumption.
Defined.

(* ===================================================================== *)
(** * Further properties of the code *)
(* ===================================================================== *)

(* --------------------------------------------------------------------- *)
(** ** PortfolioState: construction and bookkeeping *)

Lemma lookup_assign_same {V} (key : string) (v : V) (o : list (string * V)) :
  lookup key (assign key v o) = Some v.
Proof.
  induction o as [|[k w] o IH]; simpl.
  - now rewrite String.eqb_refl.
  - destruct (String.eqb k key) eqn:E; simpl; rewrite E; [reflexivity | exact IH].
Qed.

Lemma lookup_assign_other {V} (key other : string) (v : V) (o : list (string * V)) :
  other <> key -> lookup other (assign key v o) = lookup other o.
Proof.
  intro Hne. induction o as [|[k w] o IH]; simpl.
  - destruct (String.eqb key other) eqn:E; [|reflexivity].
    apply String.eqb_eq in E. congruence.
  - destruct (String.eqb k key) eqn:E; simpl.
    + apply String.eqb_eq in E. subst k.
      destruct (String.eqb key other) eqn:E'; [|reflexivity].
      apply String.eqb_eq in E'. congruence.
    + now rewrite IH.
Qed.

Lemma lookup_In_keys {V} (key : string) (o : list (string * V)) :
  In key (map fst o) <-> exists v, lookup key o = Some v.
Proof.
  induction o as [|[k w] o IH]; simpl.
  - split; [intros [] | intros [v H]; discriminate].
  - destruct (String.eqb k key) eqn:E.
    + apply String.eqb_eq in E. split; eauto.
    + apply String.eqb_neq in E. rewrite <- IH. split; [intros [H|H] | intro H]; tauto.
Qed.

Lemma assign_keys {V} (key : string) (v : V) (o : list (string * V)) :
  map fst (assign key v o)
  = if existsb (String.eqb key) (map fst o) then map fst o else map fst o ++ [key].
Proof.
  induction o as [|[k w] o IH]; simpl; [reflexivity|].
  rewrite (String.eqb_sym key k).
  destruct (String.eqb k key) eqn:E; simpl; [reflexivity|].
  rewrite IH. now destruct (existsb (String.eqb key) (map fst o)).
Qed.

Lemma fresh_positions (syms : list string) :
  forall (acc : list (string * Position)),
    NoDup (map fst acc) ->
    (forall s p, lookup s acc = Some p -> p = mkPosition 0 0 0 0 0) ->
    let ps := fold_left (fun acc symbol => assign symbol (mkPosition 0 0 0 0 0) acc)
                        syms acc in
    NoDup (map fst ps)
    /\ (forall s p, lookup s ps = Some p -> p = mkPosition 0 0 0 0 0)
    /\ (forall s, In s (map fst ps) <-> In s (map fst acc) \/ In s syms).
Proof.
  induction syms as [|x syms IH]; intros acc Hnd Hzero; simpl.
  - repeat split; auto. intros [H|[]]. exact H.
  - destruct (IH (assign x (mkPosition 0 0 0 0 0) acc)) as [H1 [H2 H3]].
    + rewrite assign_keys. destruct (existsb (String.eqb x) (map fst acc)) eqn:E;
        [assumption|].
      apply NoDup_app; [assumption | repeat constructor; intros [] |].
      intros a Ha [Hx|[]]. subst a. apply existsb_eqb_In in Ha. congruence.
    + intros s p Hs. destruct (String.eqb_spec s x) as [->|Hne].
      * rewrite lookup_assign_same in Hs. congruence.
      * rewrite lookup_assign_other in Hs by assumption. eauto.
    + split; [assumption|]. split; [assumption|].
      intro s. rewrite H3, assign_keys.
      destruct (existsb (String.eqb x) (map fst acc)) eqn:E.
      * apply existsb_eqb_In in E. split; [tauto|].
        intros [H|[H|H]]; subst; tauto.
      * rewrite in_app_iff. simpl. tauto.
Qed.

(** X1.  A new portfolio holds all its cash, has no history and no
    transactions, and has exactly one position per distinct symbol of its
    universe, each of them empty; a symbol outside the universe has no
    position. *)
Theorem newPortfolioState_universe :
  forall (initialCash : Q) (syms : list string),
    let st := newPortfolioState initialCash syms in
    cash st = JS.Fin initialCash
    /\ totalValue st = JS.Fin initialCash
    /\ history st = [] /\ transactions st = []
    /\ NoDup (map fst (positions st))
    /\ (forall s, In s syms -> lookup s (positions st) = Some (mkPosition 0 0 0 0 0))
    /\ (forall s, ~ In s syms -> lookup s (positions st) = None).
Proof.
  intros c syms st. subst st. unfold newPortfolioState. cbn [cash totalValue history
    transactions positions].
  destruct (fresh_positions syms [] (NoDup_nil _)) as [Hnd [Hzero Hkeys]].
  { intros s p H. discriminate. }
  repeat split; try assumption.
  - intros s Hs.
    assert (Hin : In s (map fst (fold_left
              (fun acc symbol => assign symbol (mkPosition 0 0 0 0 0) acc) syms []))).
    { apply Hkeys. now right. }
    apply lookup_In_keys in Hin. destruct Hin as [p Hp].
    rewrite Hp. f_equal. eapply Hzero. exact Hp.
  - intros s Hs.
    destruct (lookup s (fold_left
                (fun acc symbol => assign symbol (mkPosition 0 0 0 0 0) acc) syms []))
      as [p|] eqn:E; [|reflexivity].
    exfalso. apply Hs.
    assert (Hin : In s (map fst (fold_left
              (fun acc symbol => assign symbol (mkPosition 0 0 0 0 0) acc) syms []))).
    { apply lookup_In_keys. eauto. }
    apply Hkeys in Hin. destruct Hin as [[]|Hin]. exact Hin.
Qed.

Lemma reprice_positions (priceData : list (string * Q)) :
  forall (ps : list (string * Position)) (total : JS.num),
    fst (reprice priceData ps total)
    = map (fun sp => (fst sp, repriced priceData (fst sp) (snd sp))) ps.
Proof.
  induction ps as [|[symbol p] ps IH]; intro total; simpl; [reflexivity|].
  unfold repriced at 1. simpl.
  destruct (truthy_price priceData symbol) as [price|].
  - specialize (IH (JS.add total (JS.Fin (shares p * price)))).
    destruct (reprice priceData ps (JS.add total (JS.Fin (shares p * price)))).
    simpl in *. now rewrite IH.
  - specialize (IH total). destruct (reprice priceData ps total).
    simpl in *. now rewrite IH.
Qed.

Lemma lookup_map_values {V W} (f : string -> V -> W) (key : string)
      (o : list (string * V)) :
  lookup key (map (fun sp => (fst sp, f (fst sp) (snd sp))) o)
  = option_map (f key) (lookup key o).
Proof.
  induction o as [|[k v] o IH]; simpl; [reflexivity|].
  destruct (String.eqb k key) eqn:E; [|exact IH].
  apply String.eqb_eq in E. now subst.
Qed.

Lemma updatePrices_positions (priceData : list (string * Q)) (date : string)
      (st : PortfolioState) :
  positions (updatePrices priceData date st)
  = map (fun sp => (fst sp,
                    reweigh (totalValue (updatePrices priceData date st))
                            (repriced priceData (fst sp) (snd sp))))
        (positions st).
Proof.
  unfold updatePrices.
  pose proof (reprice_positions priceData (positions st) (cash st)) as H.
  destruct (reprice priceData (positions st) (cash st)) as [ps total].
  simpl in *. subst ps. rewrite map_map. reflexivity.
Qed.

(** X2.  [updatePrices] touches neither cash nor the transaction log nor the
    set of positions; it appends exactly one snapshot, dated as asked, that
    records the new total value, the cash and the new positions; and for
    every position it keeps shares and average cost, takes the new price and
    value when the price map has a non-zero price for the symbol, and keeps
    the old price and value when it has none. *)
Theorem updatePrices_bookkeeping :
  forall (priceData : list (string * Q)) (date : string) (st : PortfolioState),
    let st' := updatePrices priceData date st in
    cash st' = cash st
    /\ transactions st' = transactions st
    /\ map fst (positions st') = map fst (positions st)
    /\ history st' = history st ++ [ {| snap_date := date;
                                        snap_totalValue := totalValue st';
                                        snap_cash := cash st;
                                        snap_positions := positions st' |} ]
    /\ forall symbol p,
        lookup symbol (positions st) = Some p ->
        exists p',
          lookup symbol (positions st') = Some p'
          /\ shares p' = shares p /\ avgPrice p' = avgPrice p
          /\ match truthy_price priceData symbol with
             | Some price => currentPrice p' = price /\ value p' = shares p * price
             | None => currentPrice p' = currentPrice p /\ value p' = value p
             end.
Proof.
  intros pd date st st'.
  assert (Hpos := updatePrices_positions pd date st). fold st' in Hpos.
  split; [|split; [|split; [|split]]].
  - subst st'. unfold updatePrices.
    destruct (reprice pd (positions st) (cash st)). reflexivity.
  - subst st'. unfold updatePrices.
    destruct (reprice pd (positions st) (cash st)). reflexivity.
  - rewrite Hpos, map_map. reflexivity.
  - subst st'. unfold updatePrices.
    destruct (reprice pd (positions st) (cash st)). reflexivity.
  - intros symbol p Hp. rewrite Hpos.
    rewrite (lookup_map_values
               (fun s q => reweigh (totalValue st') (repriced pd s q))), Hp.
    simpl. eexists. split; [reflexivity|].
    unfold repriced. destruct (truthy_price pd symbol); simpl; auto.
Qed.




(* --------------------------------------------------------------------- *)
(** ** PortfolioState: what a trade does *)

Lemma assign_present_keys {V} (key : string) (v w : V) (o : list (string * V)) :
  lookup key o = Some w -> map fst (assign key v o) = map fst o.
Proof.
  intro H. rewrite assign_keys.
  assert (Hin : In key (map fst o)) by (apply lookup_In_keys; eauto).
  apply existsb_eqb_In in Hin. now rewrite Hin.
Qed.

Section TradeFacts.
Variable Math_pow : Q -> Q -> Q.

Lemma executeTrade_step (fuel : nat) (symbol : string) (target price : Q)
      (model : TransactionCostModel) (date : string) (st : PortfolioState) :
  executeTrade Math_pow (S fuel) symbol target price model date st
  = match lookup symbol (positions st) with
    | None => JS.Thrown ("Symbol " ++ symbol ++ " not in portfolio")
    | Some pos =>
        let tradeValue := target - value pos in
        let costs := calculateTradeCost Math_pow model tradeValue
                                        defaultAverageDailyVolume in
        let totalCost := JS.ToNumber (get_totalCost costs) in
        if JS.gtb (JS.add (JS.Fin tradeValue) totalCost) (cash st) then
          match JS.sub (cash st) totalCost with
          | JS.Fin availableCash =>
              if Qltb 0 availableCash then
                executeTrade Math_pow fuel symbol
                             (value pos + Qmin tradeValue availableCash)
                             price model date st
              else JS.Done (NotExecuted "insufficient_funds", st)
          | _ => JS.Done (NotExecuted "insufficient_funds", st)
          end
        else
          let sharesToTrade := tradeValue / price in
          let newShares := shares pos + sharesToTrade in
          let cash' := JS.sub (cash st) (JS.add (JS.Fin tradeValue) totalCost) in
          JS.Done (Executed sharesToTrade tradeValue costs,
                   with_position symbol
                     {| shares := newShares;
                        avgPrice :=
                          if Qltb 0 newShares
                          then (shares pos * avgPrice pos + sharesToTrade * price)
                               / newShares
                          else price;
                        currentPrice := currentPrice pos;
                        value := newShares * price;
                        weight := weight pos |}
                     cash'
                     {| tx_date := date; tx_symbol := symbol;
                        tx_shares := sharesToTrade; tx_price := price;
                        tx_value := tradeValue; tx_costs := costs;
                        tx_cashAfter := cash' |}
                     st)
    end.
Proof. reflexivity. Qed.

(** X4.  An executed trade that the cost model priced, on a portfolio with
    finite cash and at a non-zero price: the value traded is at most what
    was asked for, the cost charged is the model's quote for the value
    actually traded, cash goes down by exactly value plus cost and stays
    non-negative, the position gains [value / price] shares and is then
    worth its old shares at the trade price plus the value traded; the
    average cost becomes the share-weighted average for a long position and
    the trade price otherwise. *)
Theorem executeTrade_accounts :
  forall (fuel : nat) (symbol : string) (target price : Q)
         (model : TransactionCostModel) (date : string)
         (st st' : PortfolioState) (c : Q) (pos : Position)
         (tradedShares tradedValue : Q) (b : CostBreakdown),
    cash st = JS.Fin c ->
    lookup symbol (positions st) = Some pos ->
    ~ price == 0 ->
    executeTrade Math_pow fuel symbol target price model date st
    = JS.Done (Executed tradedShares tradedValue (CostBreakdownOf b), st') ->
    tradedValue <= target - value pos
    /\ calculateTradeCost Math_pow model tradedValue defaultAverageDailyVolume
       = CostBreakdownOf b
    /\ tradedShares == tradedValue / price
    /\ (exists c', cash st' = JS.Fin c'
                   /\ c' == c - tradedValue - cb_totalCost b /\ 0 <= c')
    /\ exists pos',
        lookup symbol (positions st') = Some pos'
        /\ shares pos' == shares pos + tradedShares
        /\ value pos' == shares pos * price + tradedValue
        /\ (0 < shares pos' ->
            avgPrice pos' * shares pos' == shares pos * avgPrice pos + tradedValue)
        /\ (shares pos' <= 0 -> avgPrice pos' == price).
Proof.
  induction fuel as [|fuel IH];
    intros symbol target price model date st st' c pos sh v b Hcash Hpos Hprice Hrun.
  - discriminate.
  - simpl in Hrun. rewrite Hpos, Hcash in Hrun.
    destruct (calculateTradeCost Math_pow model (target - value pos)
                                 defaultAverageDailyVolume) as [n|b0] eqn:Ecost.
    + simpl in Hrun. inversion Hrun.
    + simpl in Hrun.
      destruct (Qltb c (target - value pos + cb_totalCost b0)) eqn:Eneed.
      * destruct (Qltb 0 (c + - cb_totalCost b0)) eqn:Eavail; [|discriminate].
        destruct (IH _ _ _ _ _ _ _ _ _ _ _ _ Hcash Hpos Hprice Hrun)
          as [Hle [Hcost [Hsh [Hc Hp]]]].
        split; [|auto].
        pose proof (Q.le_min_l (target - value pos) (c + - cb_totalCost b0)). lra.
      * inversion Hrun; subst. clear Hrun.
        apply Qltb_false in Eneed.
        split; [lra|]. split; [exact Ecost|]. split; [reflexivity|].
        split.
        { eexists. split; [reflexivity|]. split; lra. }
        eexists. split; [apply lookup_assign_same|]. cbn [shares value avgPrice].
        split; [reflexivity|]. split; [field; exact Hprice|].
        destruct (Qltb 0 (shares pos + (target - value pos) / price)) eqn:Elong.
        -- apply Qltb_true in Elong. split; [|lra].
           intros _. field. split; [exact Hprice|].
           intro H0. setoid_replace (shares pos + (target - value pos) / price)
                       with ((shares pos * price + (target - value pos)) / price)
                       in Elong by (field; exact Hprice).
           rewrite H0 in Elong. unfold Qdiv in Elong. lra.
        -- apply Qltb_false in Elong. split; [lra|]. intros _. reflexivity.
Qed.

(** X6.  For a symbol that has a position, a call of [executeTrade] that
    returns leaves the history, the recorded total value, the symbol
    universe, the set of positions and every other position as they were; a
    refusal leaves the whole state as it was; an execution appends exactly
    one transaction, which records the date, the symbol, the shares, the
    price, the value, the costs and the cash after the trade. *)
Theorem executeTrade_bookkeeping :
  forall (fuel : nat) (symbol : string) (target price : Q)
         (model : TransactionCostModel) (date : string) (st : PortfolioState)
         (pos : Position) (r : TradeResult) (st' : PortfolioState),
    lookup symbol (positions st) = Some pos ->
    executeTrade Math_pow fuel symbol target price model date st = JS.Done (r, st') ->
    history st' = history st
    /\ totalValue st' = totalValue st
    /\ symbols st' = symbols st
    /\ map fst (positions st') = map fst (positions st)
    /\ (forall other, other <> symbol ->
                      lookup other (positions st') = lookup other (positions st))
    /\ match r with
       | NotExecuted _ => st' = st
       | Executed tradedShares tradedValue costs =>
           exists t,
             transactions st' = transactions st ++ [t]
             /\ t = {| tx_date := date; tx_symbol := symbol;
                       tx_shares := tradedShares; tx_price := price;
                       tx_value := tradedValue; tx_costs := costs;
                       tx_cashAfter := cash st' |}
       end.
Proof.
  intros fuel symbol target price model date st pos r st' Hpos.
  revert target. induction fuel as [|fuel IH]; intros target Hrun.
  - discriminate.
  - rewrite executeTrade_step in Hrun. rewrite Hpos in Hrun.
    cbv zeta in Hrun.
    destruct (JS.gtb _ (cash st)).
    + destruct (JS.sub (cash st) _) as [avail| | |].
      * destruct (Qltb 0 avail).
        -- eapply IH. exact Hrun.
        -- inversion Hrun; subst. repeat split; reflexivity.
      * inversion Hrun; subst. repeat split; reflexivity.
      * inversion Hrun; subst. repeat split; reflexivity.
      * inversion Hrun; subst. repeat split; reflexivity.
    + inversion Hrun; subst. clear Hrun. cbn [history totalValue symbols positions
        transactions cash with_position].
      split; [reflexivity|]. split; [reflexivity|]. split; [reflexivity|].
      split; [eapply assign_present_keys; exact Hpos|].
      split; [intros other Hne; now apply lookup_assign_other|].
      eexists. split; reflexivity.
Qed.


End TradeFacts.

Lemma executeTrade_accounts_witness :
  exists c', cash Example.bought = JS.Fin c' /\ 0 <= c'.
Proof.
  eassert (Hrun : executeTrade pow_integral 2 "AAA" 50000 100 Example.model
                               "2024-01-02" Example.day1
                  = JS.Done (Executed _ _ (CostBreakdownOf _), Example.bought))
    by reflexivity.
  eassert (Hpos : lookup "AAA"%string (positions Example.day1) = Some _) by reflexivity.
  destruct (executeTrade_accounts pow_integral 2 "AAA" 50000 100 Example.model
              "2024-01-02" Example.day1 Example.bought 100000 _ _ _ _
              eq_refl Hpos ltac:(discriminate) Hrun)
    as [_ [_ [_ [[c' [Hc [_ Hnonneg]]] _]]]].
  exists c'. split; assumption.
Defined.




Lemma executeTrade_bookkeeping_witness :
  history Example.bought = history Example.day1
  /\ exists t, transactions Example.bought = transactions Example.day1 ++ [t].
Proof.
  eassert (Hrun : executeTrade pow_integral 2 "AAA" 50000 100 Example.model
                               "2024-01-02" Example.day1
                  = JS.Done (Executed _ _ _, Example.bought))
    by reflexivity.
  eassert (Hpos : lookup "AAA"%string (positions Example.day1) = Some _) by reflexivity.
  destruct (executeTrade_bookkeeping pow_integral 2 "AAA" 50000 100 Example.model
              "2024-01-02" Example.day1 _ _ Example.bought Hpos Hrun)
    as [Hhistory [_ [_ [_ [_ [t [Ht _]]]]]]].
  split; [exact Hhistory|]. exists t. exact Ht.
Defined.

(* --------------------------------------------------------------------- *)
(** ** Monte Carlo: the samplers *)

Lemma firstn_incl_self {A} (n : nat) (l : list A) : incl (firstn n l) l.
Proof.
  revert l. induction n as [|n IH]; intros [|x l]; simpl; try (intros z []; fail).
  intros y [->|Hy]; [now left | right; now apply IH].
Qed.

Lemma skipn_incl_self {A} (n : nat) (l : list A) : incl (skipn n l) l.
Proof.
  revert l. induction n as [|n IH]; intros [|x l]; simpl; try (intros z Hz; exact Hz).
  intros y Hy. right. now apply IH.
Qed.

Lemma slice_incl {A} (l : list A) (s e : Z) : incl (slice l s e) l.
Proof.
  unfold slice. intros x Hx. apply firstn_incl_self in Hx.
  now apply skipn_incl_self in Hx.
Qed.

Section SamplerFacts.
Variable random : nat -> Q.
Hypothesis random_range : forall i, 0 <= random i < 1.

Lemma sample_loop_step_block (fuel : nat) (sampler : BlockBootstrapSampler)
      (target : nat) (sample : list Q) (rng : nat) :
  sample_loop random (S fuel) sampler target sample rng
  = if (List.length sample <? target)%nat then
      sample_loop random fuel sampler target
        (sample ++ block_at sampler
                     (Qfloor (random rng * inject_Z (maxStartIndex_of sampler + 1))))
        (S rng)
    else JS.Done (firstn target sample, rng).
Proof. reflexivity. Qed.

Lemma sample_loop_blocks (sampler : BlockBootstrapSampler) (target : nat) :
  originalReturns sampler <> [] ->
  (1 <= blockLength sampler)%Z ->
  forall (fuel : nat) (sample : list Q) (rng : nat),
    (target - List.length sample < fuel)%nat ->
    exists starts : list Z,
      sample_loop random fuel sampler target sample rng
      = JS.Done (firstn target (sample ++ List.concat (map (block_at sampler) starts)),
                 (rng + List.length starts)%nat)
      /\ (target <= List.length (sample ++ List.concat (map (block_at sampler) starts)))%nat
      /\ Forall (fun s => (0 <= s <= maxStartIndex_of sampler)%Z) starts.
Proof.
  intros Hne Hblock.
  assert (Hlen : (1 <= List.length (originalReturns sampler))%nat).
  { destruct (originalReturns sampler); [contradiction | simpl; lia]. }
  induction fuel as [|fuel IH]; intros sample rng Hfuel; [lia|].
  rewrite sample_loop_step_block.
  destruct (List.length sample <? target)%nat eqn:E.
  - apply Nat.ltb_lt in E.
    set (s := Qfloor (random rng * inject_Z (maxStartIndex_of sampler + 1))).
    assert (Hmax : (0 <= maxStartIndex_of sampler
                    < Z.of_nat (List.length (originalReturns sampler)))%Z).
    { unfold maxStartIndex_of. lia. }
    pose proof (Qfloor_draw_range (random rng) (maxStartIndex_of sampler + 1)
                                  (random_range rng) ltac:(lia)) as Hidx.
    fold s in Hidx.
    pose proof (slice_block_nonempty (originalReturns sampler) s
                  (blockLength sampler) ltac:(lia) Hblock) as Hblk.
    change (1 <= List.length (block_at sampler s))%nat in Hblk.
    destruct (IH (sample ++ block_at sampler s) (S rng)) as [starts [Hrun [Hlong Hall]]].
    { rewrite length_app. lia. }
    exists (s :: starts).
    change (List.concat (map (block_at sampler) (s :: starts)))
      with (block_at sampler s ++ List.concat (map (block_at sampler) starts)).
    change (List.length (s :: starts)) with (S (List.length starts)).
    rewrite List.app_assoc, Hrun. repeat split.
    + do 2 f_equal. lia.
    + exact Hlong.
    + constructor; [lia | exact Hall].
  - apply Nat.ltb_ge in E. exists []. cbn [map List.concat List.length].
    rewrite app_nil_r, Nat.add_0_r. repeat split; [exact E | constructor].
Qed.

(** X7.  Over a non-empty series and with a positive block length,
    [generateSample] returns within [targetLength + 1] tests of its loop.
    The sample has exactly the requested length; it is the head of a chain of
    contiguous blocks of the original series, each cut at a start index
    between 0 and [max(0, n - blockLength)]; one random number is drawn per
    block; so every return of the sample is a return of the original. *)
Theorem generateSample_chains_blocks :
  forall (sampler : BlockBootstrapSampler) (target rng : nat),
    originalReturns sampler <> [] ->
    (1 <= blockLength sampler)%Z ->
    exists (starts : list Z) (sample : list Q),
      generateSample random (S target) sampler target rng
      = JS.Done (sample, (rng + List.length starts)%nat)
      /\ sample = firstn target (List.concat (map (block_at sampler) starts))
      /\ List.length sample = target
      /\ Forall (fun s => (0 <= s <= maxStartIndex_of sampler)%Z) starts
      /\ incl sample (originalReturns sampler).
Proof.
  intros sampler target rng Hne Hblock.
  destruct (sample_loop_blocks sampler target Hne Hblock (S target) [] rng)
    as [starts [Hrun [Hlong Hall]]]; [simpl; lia|].
  cbn [app] in Hrun, Hlong.
  exists starts, (firstn target (List.concat (map (block_at sampler) starts))).
  repeat split; try assumption.
  - apply firstn_length_le. exact Hlong.
  - intros x Hx. apply firstn_incl_self in Hx. apply in_concat in Hx.
    destruct Hx as [block [Hblock' Hx]]. apply in_map_iff in Hblock'.
    destruct Hblock' as [s [<- _]]. unfold block_at in Hx.
    now apply slice_incl in Hx.
Qed.
End SamplerFacts.

Lemma generateSample_chains_blocks_witness :
  exists (starts : list Z) (sample : list Q),
    generateSample Rational.random 5
                   (mkBlockBootstrapSampler [1 # 8; 2 # 8; 3 # 8] 2) 4 0
    = JS.Done (sample, (0 + List.length starts)%nat)
    /\ sample = firstn 4 (List.concat
                            (map (block_at (mkBlockBootstrapSampler [1 # 8; 2 # 8; 3 # 8] 2))
                                 starts))
    /\ List.length sample = 4%nat
    /\ Forall (fun s => (0 <= s <= maxStartIndex_of
                                    (mkBlockBootstrapSampler [1 # 8; 2 # 8; 3 # 8] 2))%Z)
              starts
    /\ incl sample [1 # 8; 2 # 8; 3 # 8].
Proof.
  apply (generateSample_chains_blocks Rational.random).
  - intro i. split; [discriminate | reflexivity].
  - discriminate.
  - simpl. lia.
Defined.

(* --------------------------------------------------------------------- *)
(** ** Monte Carlo: shuffling and parameter perturbation *)

Lemma set_nth_perm (l : list Q) :
  forall (j : nat) (x : Q),
    (j < List.length l)%nat -> Permutation (nth j l 0 :: set_nth l j x) (x :: l).
Proof.
  induction l as [|a l IH]; intros [|j] x Hj; simpl in *; try lia.
  - apply perm_swap.
  - etransitivity; [apply perm_swap|].
    etransitivity; [apply perm_skip, IH; lia|]. apply perm_swap.
Qed.

Lemma swap_perm (l : list Q) :
  forall i j : nat,
    (i < List.length l)%nat -> (j < List.length l)%nat -> Permutation (swap l i j) l.
Proof.
  unfold swap. induction l as [|a l IH]; intros [|i] [|j] Hi Hj; simpl in *; try lia.
  - reflexivity.
  - apply set_nth_perm. lia.
  - apply set_nth_perm. lia.
  - apply perm_skip, IH; lia.
Qed.

Section ShuffleFacts.
Variable random : nat -> Q.
Hypothesis random_range : forall i, 0 <= random i < 1.

Lemma shuffle_from_perm :
  forall (i : nat) (l : list Q) (rng : nat),
    (i <= List.length l - 1)%nat ->
    Permutation (fst (shuffle_from random i l rng)) l
    /\ snd (shuffle_from random i l rng) = (rng + i)%nat.
Proof.
  induction i as [|i IH]; intros l rng Hi.
  - simpl. split; [reflexivity | lia].
  - cbn [shuffle_from].
    set (j := Z.to_nat (Qfloor (random rng * inject_Z (Z.of_nat (S i + 1))))).
    assert (Hj : (j <= S i)%nat).
    { pose proof (Qfloor_draw_range (random rng) (Z.of_nat (S i + 1))
                                    (random_range rng) ltac:(lia)). subst j. lia. }
    assert (Hswap : Permutation (swap l (S i) j) l) by (apply swap_perm; lia).
    destruct (IH (swap l (S i) j) (S rng)) as [Hperm Hrng].
    { rewrite (Permutation_length Hswap). lia. }
    split; [etransitivity; eassumption | rewrite Hrng; lia].
Qed.

(** X8.  [shuffleReturns] hands back a rearrangement of the baseline series:
    the same returns, each as often as before, in some order; it draws one
    random number per position but the first. *)
Theorem shuffleReturns_permutes :
  forall (e : MonteCarloConfidenceEngine) (rng : nat),
    Permutation (fst (shuffleReturns random e rng)) (baselineReturns e)
    /\ snd (shuffleReturns random e rng)
       = (rng + (List.length (baselineReturns e) - 1))%nat.
Proof.
  intros e rng. unfold shuffleReturns. apply shuffle_from_perm. lia.
Qed.

Lemma generatePerturbedParameters_step_number (magnitude : Q) (param : string) (v : Q)
      (rest : Parameters) (rng : nat) :
  generatePerturbedParameters random magnitude ((param, PNumber v) :: rest) rng
  = let perturbation := (random rng - (1 # 2)) * 2 * magnitude in
    let r := generatePerturbedParameters random magnitude rest (S rng) in
    ((param, PNumber (v * (1 + perturbation))) :: fst (fst r),
     (param, perturbation) :: snd (fst r), snd r).
Proof.
  cbn [generatePerturbedParameters].
  destruct (generatePerturbedParameters random magnitude rest (S rng)) as [[a b] c].
  reflexivity.
Qed.

Lemma generatePerturbedParameters_step_other (magnitude : Q) (param repr : string)
      (rest : Parameters) (rng : nat) :
  generatePerturbedParameters random magnitude ((param, POther repr) :: rest) rng
  = let r := generatePerturbedParameters random magnitude rest rng in
    ((param, POther repr) :: fst (fst r), (param, 0) :: snd (fst r), snd r).
Proof.
  cbn [generatePerturbedParameters].
  destruct (generatePerturbedParameters random magnitude rest rng) as [[a b] c].
  reflexivity.
Qed.

(** X9.  [generatePerturbedParameters] keeps the parameter names, in order,
    in both objects it returns.  A numeric parameter [v] becomes
    [v * (1 + p)] for a recorded perturbation [p] with
    [-magnitude <= p < magnitude]; any other parameter is copied and its
    recorded perturbation is 0.  One random number is drawn per numeric
    parameter. *)
Theorem generatePerturbedParameters_bounded :
  forall (magnitude : Q) (entries : Parameters) (rng : nat)
         (perturbed : Parameters) (perturbations : Perturbations) (rng' : nat),
    0 < magnitude ->
    generatePerturbedParameters random magnitude entries rng
    = (perturbed, perturbations, rng') ->
    map fst perturbed = map fst entries
    /\ map fst perturbations = map fst entries
    /\ rng' = (rng + List.length (filter (fun kv => is_number (snd kv)) entries))%nat
    /\ forall param : string,
        match lookup param entries with
        | Some (PNumber v) =>
            exists p, lookup param perturbations = Some p
                      /\ - magnitude <= p < magnitude
                      /\ lookup param perturbed = Some (PNumber (v * (1 + p)))
        | Some (POther repr) =>
            lookup param perturbations = Some 0
            /\ lookup param perturbed = Some (POther repr)
        | None => lookup param perturbations = None /\ lookup param perturbed = None
        end.
Proof.
  intros magnitude entries. induction entries as [|[key [v|repr]] rest IH];
    intros rng perturbed perturbations rng' Hmag Hrun.
  - simpl in Hrun. inversion Hrun; subst. simpl. repeat split; try reflexivity; lia.
  - rewrite generatePerturbedParameters_step_number in Hrun. cbv zeta in Hrun.
    destruct (generatePerturbedParameters random magnitude rest (S rng))
      as [[ps qs] r] eqn:Erest.
    cbn [fst snd] in Hrun. inversion Hrun; subst; clear Hrun.
    destruct (IH (S rng) ps qs rng' Hmag Erest) as [Hk1 [Hk2 [Hr Hall]]].
    cbn [map fst snd filter is_number List.length].
    repeat split; try (f_equal; assumption); [lia|].
    intro param. cbn [lookup]. destruct (String.eqb key param) eqn:E.
    + eexists. split; [reflexivity|]. split; [|reflexivity].
      pose proof (random_range rng). nra.
    + apply Hall.
  - rewrite generatePerturbedParameters_step_other in Hrun. cbv zeta in Hrun.
    destruct (generatePerturbedParameters random magnitude rest rng)
      as [[ps qs] r] eqn:Erest.
    cbn [fst snd] in Hrun. inversion Hrun; subst; clear Hrun.
    destruct (IH rng ps qs rng' Hmag Erest) as [Hk1 [Hk2 [Hr Hall]]].
    cbn [map fst snd filter is_number List.length].
    repeat split; try (f_equal; assumption).
    intro param. cbn [lookup]. destruct (String.eqb key param) eqn:E.
    + split; reflexivity.
    + apply Hall.
Qed.
End ShuffleFacts.

Lemma shuffleReturns_permutes_witness :
  Permutation
    (fst (shuffleReturns Rational.random
            (mkMonteCarloConfidenceEngine (newMonteCarloConfig scenario_options)
                                          [1 # 8; 2 # 8; 3 # 8; 4 # 8] None None) 0))
    [1 # 8; 2 # 8; 3 # 8; 4 # 8].
Proof.
  apply (shuffleReturns_permutes Rational.random).
  intro i. split; [discriminate | reflexivity].
Defined.

Lemma generatePerturbedParameters_bounded_witness :
  exists p, lookup "lookback"%string
                   (snd (fst (generatePerturbedParameters Rational.random (1 # 10)
                                [("lookback"%string, PNumber 20);
                                 ("method"%string, POther "risk_parity")] 0)))
            = Some p
            /\ - (1 # 10) <= p < 1 # 10.
Proof.
  destruct (generatePerturbedParameters Rational.random (1 # 10)
              [("lookback"%string, PNumber 20); ("method"%string, POther "risk_parity")] 0)
    as [[perturbed perturbations] rng'] eqn:Erun.
  destruct (generatePerturbedParameters_bounded Rational.random
              ltac:(intro i; split; [discriminate | reflexivity])
              (1 # 10) _ 0%nat perturbed perturbations rng' ltac:(reflexivity) Erun)
    as [_ [_ [_ Hall]]].
  specialize (Hall "lookback"%string). cbn [lookup String.eqb Ascii.eqb Bool.eqb] in Hall.
  destruct Hall as [p [Hp [Hrange _]]]. exists p. split; assumption.
Defined.

(* --------------------------------------------------------------------- *)
(** ** Monte Carlo: the figures of a scenario *)

Lemma compounded_zero (l : list Q) :
  forall a : Q,
    a == 0 \/ (exists r, In r l /\ r == -1) ->
    fold_left (fun total r => total * (1 + r)) l a == 0.
Proof.
  induction l as [|x l IH]; intro a; cbn [fold_left].
  - intros [H|[r [[] _]]]. exact H.
  - intros [H|[r [[Hx|Hr] Hm]]]; apply IH.
    + left. rewrite H. ring.
    + left. subst x. rewrite Hm. ring.
    + right. exists r. split; assumption.
Qed.

(** X10.  A series that holds a return of -1 has total return -1, the very
    value that marks a failed simulation, so that the filter of
    [runMonteCarloSimulations] takes a scenario that lost everything in one
    period for a failed one.  (Returns between -1 and 1 and at most a
    thousand of them: the running product stays a finite number.) *)
Theorem calculateTotalReturn_total_loss :
  forall returns : list Q,
    (forall r, In r returns -> -1 <= r <= 1) ->
    (List.length returns <= 1000)%nat ->
    (exists r, In r returns /\ r == -1) ->
    calculateTotalReturn returns == -1
    /\ negb (Qeq_bool (calculateTotalReturn returns) (-1)) = false.
Proof.
  intros returns _ _ Hloss.
  assert (Hzero : fold_left (fun total r => total * (1 + r)) returns 1 == 0)
    by (apply compounded_zero; now right).
  assert (Htotal : calculateTotalReturn returns == -1)
    by (unfold calculateTotalReturn; lra).
  split; [exact Htotal|].
  apply negb_false_iff. now apply Qeq_bool_iff.
Qed.

Lemma calculateTotalReturn_total_loss_witness :
  calculateTotalReturn [1 # 8; -1; 1 # 4] == -1
  /\ negb (Qeq_bool (calculateTotalReturn [1 # 8; -1; 1 # 4]) (-1)) = false.
Proof.
  apply (calculateTotalReturn_total_loss [1 # 8; -1; 1 # 4]).
  - intros r [<-|[<-|[<-|[]]]]; split; discriminate.
  - simpl. lia.
  - exists (-1). split; [right; now left | reflexivity].
Defined.



Section SimulatorFacts.
Variable random : nat -> Q.
Variable mean standardDeviation : list Q -> JS.outcome Q.
Variable Math_sqrt : Q -> Q.

(** X12.  [simulateStrategy] never throws: when the strategy function throws
    it returns the failure scenario, an empty scenario whose total return is
    -1.  Any other scenario it returns carries the parameters it was run with
    (the simulator's own when none are given) and the figures of its own
    return series. *)
Theorem simulateStrategy_catches :
  forall (sim : PortfolioStrategySimulator) (returns : list Q)
         (parameters : option Parameters),
    let params := match parameters with
                  | Some p => p
                  | None => baseParameters sim
                  end in
    let run := simulateStrategy mean standardDeviation Math_sqrt sim returns parameters in
    (forall msg, run <> JS.Thrown msg)
    /\ (forall msg, strategyFunction sim returns params = JS.Thrown msg ->
                    run = JS.Done (with_totalReturn newSimulationScenario (-1)))
    /\ (forall s, run = JS.Done s ->
                  s = with_totalReturn newSimulationScenario (-1)
                  \/ (sc_parameters s = params
                      /\ sc_perturbations s = []
                      /\ sc_totalReturn s = calculateTotalReturn (sc_returns s)
                      /\ sc_maxDrawdown s = calculateMaxDrawdown (sc_returns s)
                      /\ sc_var95 s = calculateVaR (sc_returns s) (95 # 100)
                      /\ standardDeviation (sc_returns s) = JS.Done (sc_volatility s))).
Proof.
  intros sim returns parameters params run. subst run. unfold simulateStrategy.
  fold params.
  destruct (strategyFunction sim returns params) as [out|msg|] eqn:Estrategy;
    cbn [JS.bind JS.try_catch].
  - set (series := match so_returns out with Some r => r | None => returns end).
    destruct (standardDeviation series) as [vol|msg|] eqn:Evol; cbn [JS.bind JS.try_catch].
    + destruct (calculateSharpeRatio mean standardDeviation Math_sqrt series)
        as [sharpe|msg|]; cbn [JS.bind JS.try_catch].
      * repeat split; try discriminate.
        intros s Hs. inversion Hs; subst; clear Hs. right. cbn.
        repeat split; try reflexivity. exact Evol.
      * repeat split; try discriminate. intros s Hs. inversion Hs. now left.
      * repeat split; try discriminate.
    + repeat split; try discriminate. intros s Hs. inversion Hs. now left.
    + repeat split; try discriminate.
  - repeat split; try discriminate. intros s Hs. inversion Hs. now left.
  - repeat split; try discriminate.
Qed.
End SimulatorFacts.

(* --------------------------------------------------------------------- *)
(** ** Monte Carlo: order statistics *)

Section SortByFacts.
Context {A : Type} (key : A -> Q).

Lemma insert_by_perm (x : A) (l : list A) : Permutation (insert_by key x l) (x :: l).
Proof.
  induction l as [|y l IH]; cbn [insert_by]; [reflexivity|].
  destruct (Qle_bool (key x) (key y)); [reflexivity|].
  etransitivity; [apply perm_skip, IH | apply perm_swap].
Qed.

Lemma sort_by_perm (l : list A) : Permutation (sort_by key l) l.
Proof.
  unfold sort_by. induction l as [|x l IH]; cbn [fold_right]; [reflexivity|].
  etransitivity; [apply insert_by_perm | apply perm_skip, IH].
Qed.

Lemma insert_by_sorted (x : A) (l : list A) :
  StronglySorted (fun a b => key a <= key b) l ->
  StronglySorted (fun a b => key a <= key b) (insert_by key x l).
Proof.
  induction 1 as [|y l Hs IH Hall]; cbn [insert_by].
  - constructor; constructor.
  - destruct (Qle_bool (key x) (key y)) eqn:E.
    + apply Qle_bool_iff in E. constructor; [constructor; assumption|].
      constructor; [exact E|].
      eapply Forall_impl; [|exact Hall]. intros z Hz. cbv beta in *.
      eapply Qle_trans; eassumption.
    + assert (Hyx : key y <= key x).
      { destruct (Qlt_le_dec (key y) (key x)) as [Hlt|Hle]; [now apply Qlt_le_weak|].
        apply Qle_bool_iff in Hle. congruence. }
      constructor; [exact IH|].
      apply Forall_forall. intros z Hz.
      apply (Permutation_in _ (insert_by_perm x l)) in Hz.
      destruct Hz as [<-|Hz]; [exact Hyx|].
      rewrite Forall_forall in Hall. now apply Hall.
Qed.

Lemma sort_by_sorted (l : list A) :
  StronglySorted (fun a b => key a <= key b) (sort_by key l).
Proof.
  unfold sort_by. induction l as [|x l IH]; cbn [fold_right]; [constructor|].
  now apply insert_by_sorted.
Qed.

Lemma sorted_around (l1 l2 : list A) (a : A) :
  StronglySorted (fun a b => key a <= key b) (l1 ++ a :: l2) ->
  Forall (fun x => key x <= key a) l1 /\ Forall (fun x => key a <= key x) l2.
Proof.
  induction l1 as [|y l1 IH]; cbn [app]; intro Hs.
  - inversion Hs; subst. split; [constructor | assumption].
  - inversion Hs as [|? ? Hs' Hall]; subst. destruct (IH Hs') as [H1 H2].
    split; [|exact H2]. constructor; [|exact H1].
    rewrite Forall_forall in Hall. apply Hall. apply in_or_app. right. now left.
Qed.

(** The element a comparator sort leaves at index [k]. *)
Lemma sort_by_at (l : list A) (k : nat) (a : A) :
  nth_error (sort_by key l) k = Some a ->
  exists l1 l2,
    sort_by key l = l1 ++ a :: l2 /\ List.length l1 = k
    /\ Forall (fun x => key x <= key a) l1 /\ Forall (fun x => key a <= key x) l2.
Proof.
  intro Hnth. destruct (nth_error_split _ _ Hnth) as [l1 [l2 [Heq Hlen]]].
  exists l1, l2. split; [exact Heq|]. split; [exact Hlen|].
  apply sorted_around. rewrite <- Heq. apply sort_by_sorted.
Qed.

Lemma filter_length_perm (f : A -> bool) (l l' : list A) :
  Permutation l l' -> List.length (filter f l) = List.length (filter f l').
Proof.
  induction 1 as [|x l l' _ IH|x y l|l l' l'' _ IH1 _ IH2]; cbn [filter].
  - reflexivity.
  - destruct (f x); cbn [List.length]; congruence.
  - destruct (f x), (f y); reflexivity.
  - congruence.
Qed.

Lemma filter_none (f : A -> bool) (l : list A) :
  Forall (fun x => f x = false) l -> filter f l = [].
Proof.
  induction 1 as [|x l Hx _ IH]; cbn [filter]; [reflexivity|]. now rewrite Hx.
Qed.

Lemma filter_every (f : A -> bool) (l : list A) :
  Forall (fun x => f x = true) l -> filter f l = l.
Proof.
  induction 1 as [|x l Hx _ IH]; cbn [filter]; [reflexivity|]. rewrite Hx. now f_equal.
Qed.

Lemma filter_at_most (f : A -> bool) (l : list A) :
  (List.length (filter f l) <= List.length l)%nat.
Proof.
  induction l as [|x l IH]; cbn [filter]; [lia|].
  destruct (f x); cbn [List.length]; lia.
Qed.

(** The rank of the element at index [k]: at most [k] elements are strictly
    below it, more than [k] are not above it. *)
Lemma sort_by_rank (l : list A) (k : nat) (a : A) :
  nth_error (sort_by key l) k = Some a ->
  In a l
  /\ (List.length (filter (fun x => Qltb (key x) (key a)) l) <= k)%nat
  /\ (k < List.length (filter (fun x => Qle_bool (key x) (key a)) l))%nat.
Proof.
  intro Hnth. destruct (sort_by_at l k a Hnth) as [l1 [l2 [Heq [Hlen [Hlow Hhigh]]]]].
  pose proof (sort_by_perm l) as Hperm. split; [|split].
  - apply (Permutation_in _ Hperm). rewrite Heq. apply in_or_app. right. now left.
  - rewrite <- (filter_length_perm _ _ _ Hperm), Heq, filter_app, length_app.
    rewrite (filter_none _ (a :: l2)).
    + pose proof (filter_at_most (fun x => Qltb (key x) (key a)) l1).
      cbn [List.length]. lia.
    + constructor; [apply Qltb_false; apply Qle_refl|].
      eapply Forall_impl; [|exact Hhigh]. intros x Hx. now apply Qltb_false.
  - rewrite <- (filter_length_perm _ _ _ Hperm), Heq, filter_app, length_app.
    rewrite (filter_every _ l1).
    + cbn [filter]. replace (Qle_bool (key a) (key a)) with true
        by (symmetry; apply Qle_bool_iff; apply Qle_refl).
      cbn [List.length]. lia.
    + eapply Forall_impl; [|exact Hlow]. intros x Hx. now apply Qle_bool_iff.
Qed.
End SortByFacts.

Lemma rank_at_95 (n : nat) :
  Qfloor ((1 - (95 # 100)) * inject_Z (Z.of_nat n)) = Z.of_nat (n / 20).
Proof.
  rewrite Nat2Z.inj_div. change (Z.of_nat 20) with 20%Z. rewrite Zdiv_Qdiv.
  apply Qfloor_comp. field.
Qed.

(** X13.  At the 95% level, the only one the simulator asks for,
    [calculateVaR] of a non-empty series is the negation of one of the
    returns, the one of rank [floor(n / 20)] in ascending order: at most
    that many returns are strictly below it, and more than that many are not
    above it.  Of an empty series it is [NaN]. *)
Theorem calculateVaR_order_statistic :
  forall returns : list Q,
    match returns with
    | [] => calculateVaR returns (95 # 100) = JS.NaN
    | _ =>
        exists r : Q,
          calculateVaR returns (95 # 100) = JS.Fin (- r)
          /\ In r returns
          /\ let k := (List.length returns / 20)%nat in
             (List.length (filter (fun x => Qltb x r) returns) <= k)%nat
             /\ (k < List.length (filter (fun x => Qle_bool x r) returns))%nat
    end.
Proof.
  intros returns. destruct returns as [|x0 rest] eqn:Ereturns.
  - unfold calculateVaR, at_index. cbn [sort_by fold_right List.length].
    destruct (_ <? _)%Z; [reflexivity|].
    now destruct (Z.to_nat _).
  - rewrite <- Ereturns.
    assert (Hlen : (0 < List.length returns)%nat) by (subst returns; simpl; lia).
    clear Ereturns. unfold calculateVaR.
    assert (Hsame : List.length (sort_by (fun r => r) returns) = List.length returns)
      by (apply Permutation_length, sort_by_perm).
    rewrite Hsame, rank_at_95.
    assert (Hindex : (List.length returns / 20 < List.length returns)%nat)
      by (apply Nat.div_lt; lia).
    unfold at_index.
    destruct (Z.ltb_spec (Z.max 0 (Z.of_nat (List.length returns / 20))) 0); [lia|].
    replace (Z.to_nat (Z.max 0 (Z.of_nat (List.length returns / 20))))
      with (List.length returns / 20)%nat by lia.
    destruct (nth_error (sort_by (fun r => r) returns) (List.length returns / 20))
      as [r|] eqn:Enth.
    + exists r. split; [reflexivity|].
      destruct (sort_by_rank (fun r => r) returns _ r Enth) as [Hin [Hlow Hhigh]].
      split; [exact Hin|]. cbv zeta. split; assumption.
    + apply nth_error_None in Enth. rewrite Hsame in Enth. lia.
Qed.

(** X14.  Of a non-empty list of simulations, the scenario analysis names as
    worst and best by return two of the simulations, with the smallest and
    the largest total return, and likewise by Sharpe ratio; the four
    percentile scenarios are simulations of the list too. *)
Theorem performScenarioAnalysis_extremes :
  forall sims : list SimulationScenario,
    sims <> [] ->
    let a := performScenarioAnalysis sims in
    (exists worst best,
        sa_worstReturn a = Some worst /\ sa_bestReturn a = Some best
        /\ In worst sims /\ In best sims
        /\ forall s, In s sims ->
                     sc_totalReturn worst <= sc_totalReturn s <= sc_totalReturn best)
    /\ (exists worst best,
           sa_worstSharpe a = Some worst /\ sa_bestSharpe a = Some best
           /\ In worst sims /\ In best sims
           /\ forall s, In s sims ->
                        sc_sharpeRatio worst <= sc_sharpeRatio s <= sc_sharpeRatio best)
    /\ (forall p, In p [sa_p5 a; sa_p25 a; sa_p75 a; sa_p95 a] ->
                  exists s, p = Some s /\ In s sims).
Proof.
  intros sims Hne a.
  assert (Hlen : (0 < List.length sims)%nat).
  { destruct sims; [contradiction | simpl; lia]. }
  assert (Hextremes : forall key : SimulationScenario -> Q,
             exists worst best,
               at_index (sort_by key sims) 0 = Some worst
               /\ at_index (sort_by key sims)
                           (Z.of_nat (List.length (sort_by key sims)) - 1) = Some best
               /\ In worst sims /\ In best sims
               /\ forall s, In s sims -> key worst <= key s <= key best).
  { intro key.
    pose proof (sort_by_perm key sims) as Hperm.
    pose proof (Permutation_length Hperm) as Hsame.
    unfold at_index. rewrite Hsame.
    destruct (Z.ltb_spec 0 0); [lia|].
    destruct (Z.ltb_spec (Z.of_nat (List.length sims) - 1) 0); [lia|].
    replace (Z.to_nat (Z.of_nat (List.length sims) - 1))
      with (List.length sims - 1)%nat by lia.
    change (Z.to_nat 0) with 0%nat.
    destruct (nth_error (sort_by key sims) 0) as [worst|] eqn:Eworst;
      [|apply nth_error_None in Eworst; lia].
    destruct (nth_error (sort_by key sims) (List.length sims - 1)) as [best|] eqn:Ebest;
      [|apply nth_error_None in Ebest; lia].
    exists worst, best. split; [reflexivity|]. split; [reflexivity|].
    destruct (sort_by_at key sims _ worst Eworst) as [w1 [w2 [Hw [Hwlen [_ Hwhigh]]]]].
    destruct (sort_by_at key sims _ best Ebest) as [b1 [b2 [Hb [Hblen [Hblow _]]]]].
    destruct w1; [|discriminate Hwlen]. cbn [app] in Hw.
    assert (Hb2 : b2 = []).
    { assert (Hl : List.length (sort_by key sims) = List.length (b1 ++ best :: b2))
        by now rewrite Hb.
      rewrite length_app in Hl. cbn [List.length] in Hl.
      destruct b2; [reflexivity | cbn [List.length] in Hl; lia]. }
    subst b2.
    split; [apply (Permutation_in _ Hperm); rewrite Hw; now left|].
    split; [apply (Permutation_in _ Hperm); rewrite Hb; apply in_or_app; right; now left|].
    intros s Hs. apply (Permutation_in _ (Permutation_sym Hperm)) in Hs. split.
    - rewrite Hw in Hs. destruct Hs as [<-|Hs]; [apply Qle_refl|].
      rewrite Forall_forall in Hwhigh. now apply Hwhigh.
    - rewrite Hb in Hs. apply in_app_or in Hs.
      destruct Hs as [Hs|[<-|[]]]; [|apply Qle_refl].
      rewrite Forall_forall in Hblow. now apply Hblow. }
  split; [|split].
  - destruct (Hextremes sc_totalReturn) as [worst [best H]]. exists worst, best. exact H.
  - destruct (Hextremes sc_sharpeRatio) as [worst [best H]]. exists worst, best. exact H.
  - assert (Hpct : forall p : Q, 0 <= p < 1 ->
               exists s,
                 at_index (sort_by sc_totalReturn sims)
                          (Qfloor (p * inject_Z (Z.of_nat (List.length
                                                   (sort_by sc_totalReturn sims)))))
                 = Some s /\ In s sims).
    { intros p Hp.
      pose proof (sort_by_perm sc_totalReturn sims) as Hperm.
      rewrite (Permutation_length Hperm).
      pose proof (Qfloor_draw_range p (Z.of_nat (List.length sims)) Hp ltac:(lia)) as Hidx.
      unfold at_index.
      destruct (Z.ltb_spec (Qfloor (p * inject_Z (Z.of_nat (List.length sims)))) 0);
        [lia|].
      destruct (nth_error (sort_by sc_totalReturn sims) _) as [s|] eqn:Es.
      - exists s. split; [reflexivity|].
        apply (Permutation_in _ Hperm). eapply nth_error_In. exact Es.
      - apply nth_error_None in Es. rewrite (Permutation_length Hperm) in Es. lia. }
    intros p [<-|[<-|[<-|[<-|[]]]]]; apply Hpct; split; (discriminate || reflexivity).
Qed.

Lemma performScenarioAnalysis_extremes_witness :
  exists worst best,
    sa_worstReturn (performScenarioAnalysis
                      [with_totalReturn newSimulationScenario (1 # 8);
                       with_totalReturn newSimulationScenario (-1 # 8)]) = Some worst
    /\ sa_bestReturn (performScenarioAnalysis
                        [with_totalReturn newSimulationScenario (1 # 8);
                         with_totalReturn newSimulationScenario (-1 # 8)]) = Some best
    /\ sc_totalReturn worst <= sc_totalReturn best.
Proof.
  destruct (performScenarioAnalysis_extremes
              [with_totalReturn newSimulationScenario (1 # 8);
               with_totalReturn newSimulationScenario (-1 # 8)]
              ltac:(discriminate)) as [[worst [best [Hw [Hb [Hin [_ Hall]]]]]] _].
  exists worst, best. split; [exact Hw|]. split; [exact Hb|].
  destruct (Hall worst Hin) as [_ H]. exact H.
Defined.

(* --------------------------------------------------------------------- *)
(** ** Monte Carlo: the engine *)

(** X15.  In a configuration built by [new MonteCarloConfig] every falsy
    option has given way to its default: parameter perturbation is switched
    on whatever the options say, and the number of simulations, the block
    length, the robustness threshold and the perturbation magnitude are
    never zero. *)
Theorem newMonteCarloConfig_defaults :
  forall options : MonteCarloOptions,
    let c := newMonteCarloConfig options in
    includePerturbations c = true
    /\ numSimulations c <> 0%Z
    /\ blockBootstrapLength c <> 0%Z
    /\ ~ robustnessThreshold c == 0
    /\ ~ perturbationMagnitude c == 0
    /\ returnDistribution c <> ""%string.
Proof.
  intros [n levels block dist threshold perturb magnitude] c. subst c.
  unfold newMonteCarloConfig.
  cbn [includePerturbations numSimulations blockBootstrapLength robustnessThreshold
       perturbationMagnitude returnDistribution opt_numSimulations
       opt_blockBootstrapLength opt_returnDistribution opt_robustnessThreshold
       opt_includePerturbations opt_perturbationMagnitude].
  assert (HZ : forall (v : option Z) (d : Z), d <> 0%Z -> Z_or_default v d <> 0%Z).
  { intros [x|] d Hd; cbn [Z_or_default]; [|exact Hd].
    destruct (Z.eqb_spec x 0); assumption. }
  assert (HQ : forall (v : option Q) (d : Q), ~ d == 0 -> ~ JS.or_default v d == 0).
  { intros [x|] d Hd; cbn [JS.or_default]; [|exact Hd].
    destruct (Qeq_bool x 0) eqn:E; [exact Hd|]. now apply Qeq_bool_neq. }
  repeat split.
  - destruct perturb as [b|]; [apply orb_true_r | reflexivity].
  - apply HZ. discriminate.
  - apply HZ. discriminate.
  - apply HQ. discriminate.
  - apply HQ. discriminate.
  - destruct dist as [d|]; [|discriminate].
    destruct (String.eqb_spec d ""); [discriminate | assumption].
Qed.

Lemma bind_done {A B} (c : JS.outcome A) (k : A -> JS.outcome B) (b : B) :
  JS.bind c k = JS.Done b -> exists a, c = JS.Done a /\ k a = JS.Done b.
Proof.
  destruct c as [a|msg|]; cbn [JS.bind]; intro H; try discriminate. eauto.
Qed.

Lemma ratio_range (count length : nat) :
  (count <= length)%nat ->
  exists q, JS.or_zero (JS.ratio count length) = JS.Fin q /\ 0 <= q <= 1.
Proof.
  intro Hle. unfold JS.ratio, JS.div.
  assert (Hc : 0 <= inject_Z (Z.of_nat count) <= inject_Z (Z.of_nat length)).
  { split; [change 0 with (inject_Z 0)|]; rewrite <- Zle_Qle; lia. }
  destruct (Qeq_bool (inject_Z (Z.of_nat length)) 0) eqn:E.
  - apply Qeq_bool_iff in E.
    assert (Hcount : inject_Z (Z.of_nat count) == 0) by lra.
    exists 0. split; [|lra]. unfold JS.signed_inf.
    rewrite Qeq_alt in Hcount. rewrite Hcount. reflexivity.
  - apply Qeq_bool_neq in E. eexists. split; [reflexivity|].
    assert (Hpos : 0 < inject_Z (Z.of_nat length)).
    { change 0 with (inject_Z 0). rewrite <- Zlt_Qlt.
      destruct length; [exfalso; apply E; reflexivity | lia]. }
    split; [apply Qle_shift_div_l | apply Qle_shift_div_r]; lra.
Qed.

Section EngineFacts.
Variable random : nat -> Q.
Variable mean standardDeviation : list Q -> JS.outcome Q.
Variable quantile : list Q -> Q -> JS.outcome Q.
Variable Math_sqrt : Q -> Q.
Variable box_muller : Q -> Q -> Q.

(** X16.  Whatever the simulations, the robustness score computed from the
    metrics of [calculateRobustnessMetrics] is a finite number between 0 and
    1. *)
Theorem calculateOverallRobustnessScore_range :
  forall (e : MonteCarloConfidenceEngine) (baseline : SimulationScenario)
         (sims : list SimulationScenario) (m : RobustnessMetrics),
    calculateRobustnessMetrics mean quantile e baseline sims = JS.Done m ->
    exists score : Q,
      calculateOverallRobustnessScore m = JS.Fin score /\ 0 <= score <= 1.
Proof.
  intros e baseline sims m Hrun. unfold calculateRobustnessMetrics in Hrun.
  cbv zeta in Hrun.
  apply bind_done in Hrun. destruct Hrun as [downside [_ Hrun]].
  apply bind_done in Hrun. destruct Hrun as [sensitivity [_ Hrun]].
  inversion Hrun; subst; clear Hrun.
  unfold calculateOverallRobustnessScore.
  cbn [returnRobustness sharpeRobustness rr_percentileAboveThreshold
       rr_percentilePositive sr_percentileAboveThreshold].
  unfold fraction.
  destruct (ratio_range
              (List.length (filter (fun r => Qle_bool (sc_totalReturn baseline
                                                       * robustnessThreshold (config e)) r)
                                   (map sc_totalReturn sims)))
              (List.length (map sc_totalReturn sims)) (filter_at_most _ _))
    as [a [Ha Hra]].
  destruct (ratio_range
              (List.length (filter (fun s => Qle_bool (sc_sharpeRatio baseline
                                                       * robustnessThreshold (config e)) s)
                                   (map sc_sharpeRatio sims)))
              (List.length (map sc_sharpeRatio sims)) (filter_at_most _ _))
    as [b [Hb Hrb]].
  destruct (ratio_range
              (List.length (filter (fun r => Qltb 0 r) (map sc_totalReturn sims)))
              (List.length (map sc_totalReturn sims)) (filter_at_most _ _))
    as [c [Hc Hrc]].
  rewrite Ha, Hb, Hc. cbn [combine fold_left fst snd JS.add JS.mul].
  eexists. split; [reflexivity|]. lra.
Qed.

Lemma trial_loop_length (fuel : nat) (sim : PortfolioStrategySimulator)
      (e : MonteCarloConfidenceEngine) (sampler : BlockBootstrapSampler) :
  forall (remaining : nat) (acc : list SimulationScenario) (rng : nat)
         (out : list SimulationScenario) (rng' : nat),
    trial_loop random mean standardDeviation Math_sqrt box_muller
               fuel sim e sampler remaining acc rng = JS.Done (out, rng') ->
    (List.length out <= List.length acc + remaining)%nat.
Proof.
  induction remaining as [|remaining IH]; intros acc rng out rng' Hrun;
    cbn [trial_loop] in Hrun.
  - inversion Hrun; subst. lia.
  - destruct (generate_scenario _ _ _ _ _ _ _ _) as [[simulated rng1]|msg|];
      [|apply IH in Hrun; lia | discriminate].
    destruct (run_trial _ _ _ _ _ _ _ _) as [[scenario rng2]|msg|];
      [|apply IH in Hrun; lia | discriminate].
    apply IH in Hrun. rewrite length_app in Hrun. cbn [List.length] in Hrun. lia.
Qed.

(** X17.  [runMonteCarloSimulations] returns at most [numSimulations]
    scenarios, and none of them has total return -1. *)
Theorem runMonteCarloSimulations_output :
  forall (fuel : nat) (sim : PortfolioStrategySimulator)
         (e : MonteCarloConfidenceEngine) (rng : nat)
         (sims : list SimulationScenario) (rng' : nat),
    runMonteCarloSimulations random mean standardDeviation Math_sqrt box_muller
                             fuel sim e rng = JS.Done (sims, rng') ->
    (List.length sims <= Z.to_nat (numSimulations (config e)))%nat
    /\ Forall (fun s => ~ sc_totalReturn s == -1) sims.
Proof.
  intros fuel sim e rng sims rng' Hrun. unfold runMonteCarloSimulations in Hrun.
  cbv zeta in Hrun. apply bind_done in Hrun. destruct Hrun as [[out rng1] [Hloop Hrun]].
  cbn [fst snd] in Hrun. inversion Hrun; subst; clear Hrun.
  apply trial_loop_length in Hloop. cbn [List.length] in Hloop. split.
  - pose proof (filter_at_most (fun s => negb (Qeq_bool (sc_totalReturn s) (-1))) out).
    lia.
  - apply Forall_forall. intros s Hs. apply filter_In in Hs. destruct Hs as [_ Hs].
    apply negb_true_iff in Hs. now apply Qeq_bool_neq.
Qed.
End EngineFacts.

Lemma calculateOverallRobustnessScore_range_witness :
  exists (m : RobustnessMetrics) (score : Q),
    calculateRobustnessMetrics Rational.mean Rational.quantile
      (scenario_engine [1 # 8; 1 # 8] [])
      (with_totalReturn newSimulationScenario (1 # 4))
      [with_totalReturn newSimulationScenario (1 # 8);
       with_totalReturn newSimulationScenario (1 # 2)] = JS.Done m
    /\ calculateOverallRobustnessScore m = JS.Fin score /\ 0 <= score <= 1.
Proof.
  assert (Hrun : exists m,
             calculateRobustnessMetrics Rational.mean Rational.quantile
               (scenario_engine [1 # 8; 1 # 8] [])
               (with_totalReturn newSimulationScenario (1 # 4))
               [with_totalReturn newSimulationScenario (1 # 8);
                with_totalReturn newSimulationScenario (1 # 2)] = JS.Done m)
    by (eexists; reflexivity).
  destruct Hrun as [m Hrun].
  destruct (calculateOverallRobustnessScore_range Rational.mean Rational.quantile
              _ _ _ m Hrun) as [score Hscore].
  exists m, score. split; assumption.
Defined.

Lemma runMonteCarloSimulations_output_witness :
  exists (sims : list SimulationScenario) (rng' : nat),
    runMonteCarloSimulations Rational.random Rational.mean Rational.standardDeviation
      Rational.sqrt Rational.box_muller 3
      (constant_simulator [1 # 8; 1 # 8] [])
      (initialize (newMonteCarloConfidenceEngine short_run_options) [1 # 8; 1 # 8]
                  (constant_strategy [1 # 8; 1 # 8]) []) 0
    = JS.Done (sims, rng')
    /\ (List.length sims <= 3)%nat
    /\ Forall (fun s => ~ sc_totalReturn s == -1) sims.
Proof.
  assert (Hrun : exists sims rng',
             runMonteCarloSimulations Rational.random Rational.mean
               Rational.standardDeviation Rational.sqrt Rational.box_muller 3
               (constant_simulator [1 # 8; 1 # 8] [])
               (initialize (newMonteCarloConfidenceEngine short_run_options)
                           [1 # 8; 1 # 8] (constant_strategy [1 # 8; 1 # 8]) []) 0
             = JS.Done (sims, rng'))
    by (eexists; eexists; vm_compute; reflexivity).
  destruct Hrun as [sims [rng' Hrun]].
  exists sims, rng'. split; [exact Hrun|].
  exact (runMonteCarloSimulations_output _ _ _ _ _ _ _ _ _ _ _ Hrun).
Defined.

(* --------------------------------------------------------------------- *)
(** ** Histograms *)











(* --------------------------------------------------------------------- *)
(** ** Walk-forward windows in general *)

Lemma window_starts_run (cfg : WalkForwardConfig) (n : Z) :
  (0 < stepSize cfg)%Z ->
  forall (m : nat) (startIndex : Z),
    Z.of_nat m = (if (startIndex + holdoutWindow cfg <? n)%Z
                  then (n - startIndex - holdoutWindow cfg - 1) / stepSize cfg + 1
                  else 0)%Z ->
    window_starts (S m) cfg n startIndex
    = JS.Done (map (fun i => (startIndex + Z.of_nat i * stepSize cfg)%Z) (seq 0 m)).
Proof.
  intros Hstep. induction m as [|m IH]; intros s Hm.
  - cbn [window_starts seq map].
    destruct (Z.ltb_spec (s + holdoutWindow cfg) n) as [Hlt|Hge]; [|reflexivity].
    assert (0 <= (n - s - holdoutWindow cfg - 1) / stepSize cfg)%Z
      by (apply Z.div_pos; lia).
    lia.
  - change (window_starts (S (S m)) cfg n s)
      with (if (s + holdoutWindow cfg <? n)%Z
            then JS.bind (window_starts (S m) cfg n (s + stepSize cfg))
                         (fun rest => JS.Done (s :: rest))
            else JS.Done []).
    destruct (Z.ltb_spec (s + holdoutWindow cfg) n) as [Hlt|Hge]; [|lia].
    rewrite IH.
    + cbn [JS.bind seq map]. f_equal. f_equal; [lia|].
      rewrite <- seq_shift, map_map. apply map_ext. intro i. lia.
    + set (a := (n - s - holdoutWindow cfg - 1)%Z) in *.
      assert (Ha : (0 <= a)%Z) by (subst a; lia).
      pose proof (Z.div_mod a (stepSize cfg) ltac:(lia)) as Hdiv.
      pose proof (Z.mod_pos_bound a (stepSize cfg) Hstep) as Hmod.
      destruct (Z.ltb_spec (s + stepSize cfg + holdoutWindow cfg) n) as [Hlt'|Hge'].
      * replace (n - (s + stepSize cfg) - holdoutWindow cfg - 1)%Z
          with (a + (-1) * stepSize cfg)%Z by (subst a; lia).
        rewrite Z.div_add by lia. lia.
      * assert (Hsmall : (a / stepSize cfg = 0)%Z)
          by (apply Z.div_small; subst a; lia).
        lia.
Qed.

Lemma window_at_complete (cfg : WalkForwardConfig) (allDates : list string)
      (startIndex : Z) :
  (0 < lookbackWindow cfg)%Z -> (0 < holdoutWindow cfg)%Z ->
  (lookbackWindow cfg <= startIndex)%Z ->
  (startIndex + holdoutWindow cfg < Z.of_nat (List.length allDates))%Z ->
  exists a b c d : string,
    window_at cfg allDates startIndex = window_of_dates a b c d
    /\ at_index allDates (startIndex - lookbackWindow cfg) = Some a
    /\ at_index allDates (startIndex - 1) = Some b
    /\ at_index allDates startIndex = Some c
    /\ at_index allDates (startIndex + holdoutWindow cfg - 1) = Some d.
Proof.
  intros Hl Hh Hlo Hhi.
  assert (Hget : forall i, (0 <= i < Z.of_nat (List.length allDates))%Z ->
                           exists x, at_index allDates i = Some x).
  { intros i Hi. unfold at_index. destruct (Z.ltb_spec i 0); [lia|].
    destruct (nth_error allDates (Z.to_nat i)) as [x|] eqn:E; [eauto|].
    apply nth_error_None in E. lia. }
  destruct (Hget (startIndex - lookbackWindow cfg)%Z ltac:(lia)) as [a Ha].
  destruct (Hget (startIndex - 1)%Z ltac:(lia)) as [b Hb].
  destruct (Hget startIndex ltac:(lia)) as [c Hc].
  destruct (Hget (startIndex + holdoutWindow cfg - 1)%Z ltac:(lia)) as [d Hd].
  exists a, b, c, d. unfold window_at, window_of_dates. cbv zeta.
  replace (Z.min (startIndex + holdoutWindow cfg - 1)
                 (Z.of_nat (List.length allDates) - 1))
    with (startIndex + holdoutWindow cfg - 1)%Z by lia.
  rewrite Ha, Hb, Hc, Hd. repeat split; reflexivity.
Qed.

(** X19.  With a positive lookback [L], holdout [H] and step [S], over [n]
    sorted dates [generateTimeWindows] returns, within one more test of its
    loop than there are windows, [floor((n - L - H - 1) / S) + 1] windows
    when [n > L + H] and none otherwise.  The window of rank [i] tests from
    the date of index [L + i*S]; all its dates are defined: it optimizes over
    the [L] dates before its test start and tests over [H] dates, the clamp
    of the test end to the last date never being needed. *)
Theorem generateTimeWindows_count :
  forall (cfg : WalkForwardConfig) (allDates : list string) (fuel : nat),
    (0 < lookbackWindow cfg)%Z -> (0 < holdoutWindow cfg)%Z -> (0 < stepSize cfg)%Z ->
    let n := Z.of_nat (List.length allDates) in
    (Z.to_nat (window_count cfg n) < fuel)%nat ->
    exists windows : list TimeWindow,
      generateTimeWindows_on fuel cfg allDates = JS.Done windows
      /\ Z.of_nat (List.length windows) = window_count cfg n
      /\ forall i : nat,
          (Z.of_nat i < window_count cfg n)%Z ->
          let startIndex := (lookbackWindow cfg + Z.of_nat i * stepSize cfg)%Z in
          exists a b c d : string,
            nth_error windows i = Some (window_of_dates a b c d)
            /\ at_index allDates (startIndex - lookbackWindow cfg) = Some a
            /\ at_index allDates (startIndex - 1) = Some b
            /\ at_index allDates startIndex = Some c
            /\ at_index allDates (startIndex + holdoutWindow cfg - 1) = Some d.
Proof.
  intros cfg allDates fuel Hl Hh Hs n Hfuel.
  assert (Hcount : (0 <= window_count cfg n)%Z).
  { unfold window_count. destruct (Z.ltb_spec (lookbackWindow cfg + holdoutWindow cfg) n);
      [|lia].
    assert (0 <= (n - lookbackWindow cfg - holdoutWindow cfg - 1) / stepSize cfg)%Z
      by (apply Z.div_pos; lia).
    lia. }
  unfold generateTimeWindows_on. fold n.
  destruct (Z.ltb_spec n (lookbackWindow cfg + holdoutWindow cfg)) as [Hshort|Hlong].
  - assert (Hzero : window_count cfg n = 0%Z).
    { unfold window_count.
      destruct (Z.ltb_spec (lookbackWindow cfg + holdoutWindow cfg) n); lia. }
    exists []. rewrite Hzero. split; [reflexivity|]. split; [reflexivity|].
    intros i Hi. lia.
  - rewrite window_loop_starts. fold n.
    set (m := Z.to_nat (window_count cfg n)) in *.
    assert (Hrun : window_starts (S m) cfg n (lookbackWindow cfg)
                   = JS.Done (map (fun i => (lookbackWindow cfg
                                             + Z.of_nat i * stepSize cfg)%Z)
                                  (seq 0 m))).
    { apply window_starts_run; [exact Hs|].
      subst m. rewrite Z2Nat.id by exact Hcount. reflexivity. }
    replace fuel with (S m + (fuel - S m))%nat by lia.
    rewrite (window_starts_more_fuel cfg n (S m) (fuel - S m) _ _ Hrun).
    cbn [JS.bind app]. eexists. split; [reflexivity|].
    rewrite !length_map, length_seq. split; [subst m; lia|].
    intros i Hi. cbv zeta.
    set (startIndex := (lookbackWindow cfg + Z.of_nat i * stepSize cfg)%Z).
    assert (Him : (i < m)%nat) by (subst m; lia).
    assert (Hin : (startIndex + holdoutWindow cfg < n)%Z).
    { subst startIndex. unfold window_count in Hi.
      destruct (Z.ltb_spec (lookbackWindow cfg + holdoutWindow cfg) n) as [Hlt|]; [|lia].
      set (a := (n - lookbackWindow cfg - holdoutWindow cfg - 1)%Z) in *.
      pose proof (Z.div_mod a (stepSize cfg) ltac:(lia)) as Hdiv.
      pose proof (Z.mod_pos_bound a (stepSize cfg) Hs) as Hmod.
      assert (Z.of_nat i * stepSize cfg <= a / stepSize cfg * stepSize cfg)%Z
        by (apply Z.mul_le_mono_nonneg_r; lia).
      subst a. lia. }
    destruct (window_at_complete cfg allDates startIndex Hl Hh
                ltac:(subst startIndex; nia) Hin) as [a [b [c [d [Hw Hdates]]]]].
    exists a, b, c, d. split; [|exact Hdates].
    rewrite map_map. rewrite nth_error_map.
    rewrite nth_error_seq. destruct (Nat.ltb_spec i m); [|lia].
    cbn [option_map Nat.add]. now rewrite <- Hw.
Qed.

Lemma generateTimeWindows_count_witness :
  exists windows : list TimeWindow,
    generateTimeWindows_on 3 (mkWalkForwardConfig 3 2 2 126 "risk_parity")
      ["d0"; "d1"; "d2"; "d3"; "d4"; "d5"; "d6"; "d7"]%string = JS.Done windows
    /\ Z.of_nat (List.length windows) = 2%Z.
Proof.
  destruct (generateTimeWindows_count (mkWalkForwardConfig 3 2 2 126 "risk_parity")
              ["d0"; "d1"; "d2"; "d3"; "d4"; "d5"; "d6"; "d7"]%string 3
              ltac:(reflexivity) ltac:(reflexivity) ltac:(reflexivity)
              ltac:(vm_compute; lia))
    as [windows [Hrun [Hlen _]]].
  exists windows. split; [exact Hrun | exact Hlen].
Defined.

Lemma window_loop_diverges (cfg : WalkForwardConfig) (allDates : list string) :
  (stepSize cfg <= 0)%Z ->
  forall (fuel : nat) (startIndex : Z) (windows : list TimeWindow),
    (startIndex + holdoutWindow cfg < Z.of_nat (List.length allDates))%Z ->
    window_loop fuel cfg allDates startIndex windows = JS.Exhausted.
Proof.
  intros Hstep. induction fuel as [|fuel IH]; intros s windows Hs; [reflexivity|].
  cbn [window_loop]. cbv zeta.
  destruct (Z.ltb_spec (s + holdoutWindow cfg) (Z.of_nat (List.length allDates)));
    [|lia].
  apply IH. lia.
Qed.

(** X20.  With a step that is not positive (a negative [stepSize] passes the
    constructor unchanged) and more dates than lookback plus holdout, the
    loop of [generateTimeWindows] never ends: no number of tests of its
    condition is enough. *)
Theorem generateTimeWindows_needs_positive_step :
  forall (cfg : WalkForwardConfig) (allDates : list string),
    (stepSize cfg <= 0)%Z ->
    (lookbackWindow cfg + holdoutWindow cfg < Z.of_nat (List.length allDates))%Z ->
    forall fuel : nat, generateTimeWindows_on fuel cfg allDates = JS.Exhausted.
Proof.
  intros cfg allDates Hstep Hlong fuel. unfold generateTimeWindows_on.
  destruct (Z.ltb_spec (Z.of_nat (List.length allDates))
                       (lookbackWindow cfg + holdoutWindow cfg)); [lia|].
  apply window_loop_diverges; assumption.
Qed.

Lemma generateTimeWindows_needs_positive_step_witness :
  stepSize (newWalkForwardConfig
              (mkWalkForwardOptions (Some 3%Z) (Some 2%Z) (Some (-1)%Z) None None))
  = (-1)%Z
  /\ generateTimeWindows_on 50
       (newWalkForwardConfig
          (mkWalkForwardOptions (Some 3%Z) (Some 2%Z) (Some (-1)%Z) None None))
       ["d0"; "d1"; "d2"; "d3"; "d4"; "d5"; "d6"; "d7"]%string = JS.Exhausted.
Proof.
  split; [reflexivity|].
  apply (generateTimeWindows_needs_positive_step
           (newWalkForwardConfig
              (mkWalkForwardOptions (Some 3%Z) (Some 2%Z) (Some (-1)%Z) None None))
           ["d0"; "d1"; "d2"; "d3"; "d4"; "d5"; "d6"; "d7"]%string).
  - vm_compute. discriminate.
  - vm_compute. reflexivity.
Defined.

(** X21.  [validateData] accepts a history exactly when it has at least
    lookback plus holdout dates.  A history of exactly that many dates is
    accepted although [generateTimeWindows] makes no window of it. *)
Theorem validateData_accepts_windowless_history :
  forall (cfg : WalkForwardConfig) (allDates : list string),
    let n := Z.of_nat (List.length allDates) in
    (validateData_on cfg allDates = JS.Done tt
     <-> (lookbackWindow cfg + holdoutWindow cfg <= n)%Z)
    /\ (n = (lookbackWindow cfg + holdoutWindow cfg)%Z ->
        forall fuel : nat,
          generateTimeWindows_on (S fuel) cfg allDates = JS.Done []).
Proof.
  intros cfg allDates n. split.
  - unfold validateData_on. fold n.
    destruct (Z.ltb_spec n (lookbackWindow cfg + holdoutWindow cfg)) as [Hlt|Hge];
      split; intro Hok; try discriminate; try reflexivity; lia.
  - intros Hn fuel. unfold generateTimeWindows_on. fold n.
    destruct (Z.ltb_spec n (lookbackWindow cfg + holdoutWindow cfg)); [reflexivity|].
    cbn [window_loop]. cbv zeta. fold n.
    destruct (Z.ltb_spec (lookbackWindow cfg + holdoutWindow cfg) n); [lia | reflexivity].
Qed.

(* --------------------------------------------------------------------- *)
(** ** Returns of a price series and the performance report *)

Lemma last_cons {A} (l : list A) (a d : A) : last (a :: l) d = last l a.
Proof.
  revert a d. induction l as [|x l IH]; intros a d; [reflexivity|].
  change (last (a :: x :: l) d) with (last (x :: l) d). rewrite !IH. reflexivity.
Qed.

Section ReturnsFacts.
Variable Math_log : JS.num -> JS.num.

Lemma returns_after_percentage_step (p0 c : Q) (more : list JS.num) :
  0 < p0 -> 0 < c ->
  returns_after Math_log "percentage" (JS.Fin p0) (JS.Fin c :: more)
  = JS.bind (returns_after Math_log "percentage" (JS.Fin c) more)
            (fun returns => JS.Done (JS.Fin ((c + - p0) / p0) :: returns)).
Proof.
  intros Hp Hc. cbn [returns_after]. unfold JS.leb. cbn [JS.geb].
  replace (Qle_bool p0 0) with false
    by (symmetry; destruct (Qle_bool p0 0) eqn:E; [apply Qle_bool_iff in E; lra | reflexivity]).
  replace (Qle_bool c 0) with false
    by (symmetry; destruct (Qle_bool c 0) eqn:E; [apply Qle_bool_iff in E; lra | reflexivity]).
  cbn [orb]. rewrite String.eqb_refl. cbn [JS.bind JS.sub JS.neg JS.add JS.div].
  replace (Qeq_bool p0 0) with false
    by (symmetry; destruct (Qeq_bool p0 0) eqn:E; [apply Qeq_bool_iff in E; lra | reflexivity]).
  reflexivity.
Qed.

Lemma returns_after_percentage (rest : list Q) :
  forall p0 acc : Q,
    0 < p0 -> (forall p, In p rest -> 0 < p) ->
    exists rs cs : list Q,
      returns_after Math_log "percentage" (JS.Fin p0) (map JS.Fin rest)
      = JS.Done (map JS.Fin rs)
      /\ List.length rs = List.length rest
      /\ (forall i : nat,
             (i < List.length rest)%nat ->
             nth i rest 0 == nth i (p0 :: rest) 0 * (1 + nth i rs 0)
             /\ -1 < nth i rs 0)
      /\ cumulate (JS.Fin acc) (map JS.Fin rs) = map JS.Fin cs
      /\ List.length cs = List.length rest
      /\ last cs acc * p0 == acc * last rest p0.
Proof.
  induction rest as [|c more IH]; intros p0 acc Hp Hall.
  - exists [], [].
    split; [reflexivity|]. split; [reflexivity|].
    split; [intros i Hi; cbn [List.length] in Hi; lia|].
    split; [reflexivity|]. split; [reflexivity|]. reflexivity.
  - assert (Hc : 0 < c) by (apply Hall; now left).
    destruct (IH c (acc * (1 + (c + - p0) / p0)) Hc
                 (fun p Hin => Hall p (or_intror Hin)))
      as [rs [cs [Hrun [Hlen [Htrip [Hcum [Hclen Hlast]]]]]]].
    exists ((c + - p0) / p0 :: rs), (acc * (1 + (c + - p0) / p0) :: cs).
    change (map JS.Fin (c :: more)) with (JS.Fin c :: map JS.Fin more).
    rewrite returns_after_percentage_step by assumption.
    rewrite Hrun. cbn [JS.bind map cumulate JS.add JS.mul List.length].
    rewrite Hcum.
    split; [reflexivity|]. split; [congruence|].
    split; [|split; [reflexivity|]; split; [congruence|]].
    + intros i Hi. cbn [List.length] in Hi. destruct i as [|i]; cbn [nth].
      * split; [field; lra | apply Qlt_shift_div_l; lra].
      * apply (Htrip i). lia.
    + rewrite !last_cons.
      assert (Hnext : acc * (1 + (c + - p0) / p0) * p0 == acc * c) by (field; lra).
      set (next := acc * (1 + (c + - p0) / p0)) in *.
      set (x := last cs next) in *. set (y := last more c) in *.
      apply (Qmult_inj_r _ _ c); [lra|].
      transitivity (x * c * p0); [ring|]. rewrite Hlast.
      transitivity (next * p0 * y); [ring|]. rewrite Hnext. ring.
Qed.

(** X22.  On a series of at least two prices between a millionth and a
    billion (so that no quotient leaves the finite numbers), the percentage
    returns are one fewer than the prices, none of them is below -1, and
    each has the sign of the move it measures: positive when the price went
    up, negative when it went down, zero when it stayed. *)
Theorem calculateReturns_round_trip :
  forall prices : list Q,
    (2 <= List.length prices)%nat ->
    (forall p, In p prices -> 1 # 1000000 <= p <= 1000000000) ->
    exists rs : list Q,
      calculateReturns Math_log (map JS.Fin prices) "percentage"
      = JS.Done (map JS.Fin rs)
      /\ S (List.length rs) = List.length prices
      /\ forall i : nat,
          (i < List.length rs)%nat ->
          -1 <= nth i rs 0
          /\ (0 < nth i rs 0 <-> nth i prices 0 < nth (S i) prices 0)
          /\ (nth i rs 0 < 0 <-> nth (S i) prices 0 < nth i prices 0)
          /\ (nth i rs 0 == 0 <-> nth (S i) prices 0 == nth i prices 0).
Proof.
  intros prices Hlen Hrange.
  assert (Hall : forall p, In p prices -> 0 < p).
  { intros p Hin. destruct (Hrange p Hin) as [Hlo _].
    apply Qlt_le_trans with (1 # 1000000); [reflexivity | exact Hlo]. }
  clear Hrange.
  destruct prices as [|p0 [|c more]]; cbn [List.length] in Hlen; try lia.
  destruct (returns_after_percentage (c :: more) p0 1
              (Hall p0 (or_introl eq_refl)) (fun p Hin => Hall p (or_intror Hin)))
    as [rs [cs [Hrun [Hrlen [Htrip _]]]]].
  exists rs. split; [exact Hrun|]. split; [cbn [List.length] in *; lia|].
  intros i Hi. destruct (Htrip i ltac:(lia)) as [Hmove Habove].
  assert (Hprev : 0 < nth i (p0 :: c :: more) 0).
  { apply Hall. apply nth_In. cbn [List.length] in *. lia. }
  change (nth (S i) (p0 :: c :: more) 0) with (nth i (c :: more) 0).
  set (p := nth i (p0 :: c :: more) 0) in *.
  set (q := nth i (c :: more) 0) in *.
  set (r := nth i rs 0) in *. clearbody p q r.
  split; [lra|]. split; [|split]; split; intro H; nra.
Qed.

Lemma return_value_known (method : string) (currentPrice prevPrice : JS.num) :
  known_method method ->
  exists v,
    (if String.eqb method "percentage"
     then JS.Done (JS.div (JS.sub currentPrice prevPrice) prevPrice)
     else if String.eqb method "log"
     then JS.Done (Math_log (JS.div currentPrice prevPrice))
     else if String.eqb method "absolute"
     then JS.Done (JS.sub currentPrice prevPrice)
     else JS.Thrown
            "Invalid return calculation method. Use: percentage, log, or absolute")
    = JS.Done v.
Proof.
  intros [Hm | [Hm | Hm]]; subst method; eexists; reflexivity.
Qed.

Lemma returns_after_outcome (method : string) (rest : list JS.num) :
  known_method method ->
  forall prev : JS.num,
    ((exists p, In p (prev :: rest) /\ JS.leb p (JS.Fin 0) = true) ->
     rest <> [] ->
     returns_after Math_log method prev rest
     = JS.Thrown "Prices must be positive for return calculations")
    /\ ((forall p, In p (prev :: rest) -> JS.leb p (JS.Fin 0) = false) ->
        exists rs, returns_after Math_log method prev rest = JS.Done rs
                   /\ List.length rs = List.length rest).
Proof.
  intro Hmethod. induction rest as [|c more IH]; intro prev.
  - split; [intros _ H; contradiction|]. intros _. exists []. split; reflexivity.
  - destruct (IH c) as [IHbad IHgood].
    destruct (return_value_known method c prev Hmethod) as [v Hv].
    cbn [returns_after]. rewrite Hv. cbn [JS.bind]. split.
    + intros [p [Hin Hp]] _.
      destruct (JS.leb prev (JS.Fin 0)) eqn:Eprev; [reflexivity|].
      destruct (JS.leb c (JS.Fin 0)) eqn:Ec; [reflexivity|]. cbn [orb].
      destruct Hin as [<-|[<-|Hin]]; try congruence.
      rewrite IHbad; [reflexivity | | intro H; subst more; destruct Hin].
      exists p. split; [now right | exact Hp].
    + intros Hall.
      rewrite (Hall prev (or_introl eq_refl)).
      rewrite (Hall c (or_intror (or_introl eq_refl))). cbn [orb].
      destruct IHgood as [rs [Hrun Hlen]].
      { intros p Hin. apply Hall. now right. }
      rewrite Hrun. cbn [JS.bind]. eexists. split; [reflexivity|].
      cbn [List.length]. congruence.
Qed.

(** X23.  What [calculateReturns] ends in.  With fewer than two prices it
    throws, whatever the method.  With two prices or more and one of the
    three methods, it throws when some price is zero, negative or minus
    infinity, and otherwise returns one return fewer than there are prices;
    a price that is [NaN] is not rejected. *)
Theorem calculateReturns_outcome :
  forall (prices : list JS.num) (method : string),
    ((List.length prices < 2)%nat ->
     calculateReturns Math_log prices method
     = JS.Thrown "Need at least 2 price points to calculate returns")
    /\ ((2 <= List.length prices)%nat -> known_method method ->
        ((exists p, In p prices /\ JS.leb p (JS.Fin 0) = true) ->
         calculateReturns Math_log prices method
         = JS.Thrown "Prices must be positive for return calculations")
        /\ ((forall p, In p prices -> JS.leb p (JS.Fin 0) = false) ->
            exists rs, calculateReturns Math_log prices method = JS.Done rs
                       /\ S (List.length rs) = List.length prices))
    /\ JS.leb JS.NaN (JS.Fin 0) = false.
Proof.
  intros prices method. split; [|split; [|reflexivity]].
  - intro Hlen. destruct prices as [|p0 [|c more]]; cbn [List.length] in Hlen;
      try reflexivity; lia.
  - intros Hlen Hmethod.
    destruct prices as [|p0 [|c more]]; cbn [List.length] in Hlen; try lia.
    destruct (returns_after_outcome method (c :: more) Hmethod p0) as [Hbad Hgood].
    split.
    + intro Hp. apply Hbad; [exact Hp | discriminate].
    + intro Hall. destruct (Hgood Hall) as [rs [Hrun Hrlen]].
      exists rs. split; [exact Hrun | cbn [List.length] in *; lia].
Qed.

Variable risk_figures : JS.num -> list JS.num -> list JS.num -> JS.outcome RiskFigures.

(** X24.  A performance report over a history of positive total values
    leaves the portfolio as it was; it has one return, one date and one
    cumulative return per snapshot but the first, the dates being those of
    the later snapshots; it counts the transactions of the log; and its last
    cumulative return is one plus its total return. *)
Theorem getPerformanceStats_report :
  forall (st st' : PortfolioState) (stats : PerformanceStats) (vals : list Q),
    map snap_totalValue (history st) = map JS.Fin vals ->
    (forall v, In v vals -> 0 < v) ->
    getPerformanceStats Math_log risk_figures st = JS.Done (Some stats, st') ->
    st' = st
    /\ S (List.length (ps_returns stats)) = List.length (history st)
    /\ S (List.length (ps_cumulativeReturns stats)) = List.length (history st)
    /\ ps_dates stats = map snap_date (tl (history st))
    /\ ps_numberOfTrades stats = List.length (transactions st)
    /\ JS.eqv (last (ps_cumulativeReturns stats) (JS.Fin 1))
              (JS.add (JS.Fin 1) (ps_totalReturn stats)).
Proof.
  intros st st' stats vals Hvals Hpos Hrun. unfold getPerformanceStats in Hrun.
  destruct (Nat.ltb_spec (List.length (history st)) 2) as [Hshort|Hlong];
    [discriminate|].
  cbv zeta in Hrun. rewrite Hvals in Hrun.
  assert (Hlen : List.length vals = List.length (history st)).
  { rewrite <- (length_map JS.Fin vals), <- Hvals. apply length_map. }
  destruct vals as [|p0 [|c more]]; cbn [List.length] in Hlen; try lia.
  destruct (returns_after_percentage (c :: more) p0 1
              (Hpos p0 (or_introl eq_refl)) (fun p Hin => Hpos p (or_intror Hin)))
    as [rs [cs [Hret [Hrlen [_ [Hcum [Hclen Hlast]]]]]]].
  change (calculateReturns Math_log (map JS.Fin (p0 :: c :: more)) "percentage")
    with (returns_after Math_log "percentage" (JS.Fin p0) (map JS.Fin (c :: more)))
    in Hrun.
  rewrite Hret in Hrun. cbn [JS.bind] in Hrun. rewrite Hcum in Hrun.
  apply bind_done in Hrun. destruct Hrun as [risk [_ Hrun]].
  inversion Hrun; subst; clear Hrun.
  cbn [ps_returns ps_cumulativeReturns ps_dates ps_numberOfTrades ps_totalReturn].
  rewrite !length_map. cbn [List.length] in *.
  repeat split; try lia.
  assert (Hp0 : 0 < p0) by (apply Hpos; now left).
  assert (Hfin : forall (l : list Q) (d : Q),
             last (map JS.Fin l) (JS.Fin d) = JS.Fin (last l d)).
  { induction l as [|x l IHl]; intro d; [reflexivity|].
    change (map JS.Fin (x :: l)) with (JS.Fin x :: map JS.Fin l).
    rewrite !last_cons. apply IHl. }
  change (JS.eqv (last (map JS.Fin cs) (JS.Fin 1))
                 (JS.add (JS.Fin 1)
                         (JS.sub (JS.div (last (JS.Fin c :: map JS.Fin more) JS.NaN)
                                         (JS.Fin p0))
                                 (JS.Fin 1)))).
  rewrite last_cons, !Hfin. rewrite last_cons in Hlast. cbn [JS.div].
  replace (Qeq_bool p0 0) with false
    by (symmetry; destruct (Qeq_bool p0 0) eqn:E; [apply Qeq_bool_iff in E; lra | reflexivity]).
  cbn [JS.sub JS.neg JS.add JS.eqv].
  apply (Qmult_inj_r _ _ p0); [lra|]. rewrite Hlast. field. lra.
Qed.
End ReturnsFacts.

Lemma calculateReturns_round_trip_witness :
  exists rs : list Q,
    calculateReturns (fun x => x) (map JS.Fin [100; 110; 99]) "percentage"
    = JS.Done (map JS.Fin rs)
    /\ S (List.length rs) = 3%nat
    /\ 0 < nth 0 rs 0 /\ nth 1 rs 0 < 0.
Proof.
  destruct (calculateReturns_round_trip (fun x => x) [100; 110; 99])
    as [rs [Hrun [Hlen Hsigns]]].
  - simpl. lia.
  - intros p [<-|[<-|[<-|[]]]]; split; discriminate.
  - exists rs. split; [exact Hrun|]. split; [exact Hlen|].
    cbn [List.length] in Hlen.
    destruct (Hsigns 0%nat ltac:(lia)) as [_ [Hup _]].
    destruct (Hsigns 1%nat ltac:(lia)) as [_ [_ [Hdown _]]].
    split; [apply Hup | apply Hdown]; reflexivity.
Defined.

Lemma getPerformanceStats_report_witness :
  exists stats : PerformanceStats,
    getPerformanceStats (fun x => x) (fun _ _ _ => JS.Done no_risk_figures) Example.day2
    = JS.Done (Some stats, Example.day2)
    /\ JS.eqv (last (ps_cumulativeReturns stats) (JS.Fin 1))
              (JS.add (JS.Fin 1) (ps_totalReturn stats)).
Proof.
  assert (Hrun : exists stats st',
             getPerformanceStats (fun x => x) (fun _ _ _ => JS.Done no_risk_figures)
                                 Example.day2 = JS.Done (Some stats, st'))
    by (eexists; eexists; vm_compute; reflexivity).
  destruct Hrun as [stats [st' Hrun]].
  assert (Hvals : exists vals,
             map snap_totalValue (history Example.day2) = map JS.Fin vals
             /\ forall v, In v vals -> 0 < v).
  { eexists [_; _]. split; [vm_compute; reflexivity|].
    intros v [<-|[<-|[]]]; reflexivity. }
  destruct Hvals as [vals [Hvals Hpos]].
  destruct (getPerformanceStats_report (fun x => x) (fun _ _ _ => JS.Done no_risk_figures)
              Example.day2 st' stats vals Hvals Hpos Hrun)
    as [Hsame [_ [_ [_ [_ Hlast]]]]].
  exists stats. subst st'. split; [exact Hrun | exact Hlast].
Defined.

(* --------------------------------------------------------------------- *)
(** ** Transaction costs of a constructed model *)

Lemma or_default_positive (v : option Q) (d : Q) :
  option_nonneg v -> 0 < d -> 0 < JS.or_default v d.
Proof.
  destruct v as [x|]; cbn [option_nonneg JS.or_default]; intros Hx Hd; [|exact Hd].
  destruct (Qeq_bool x 0) eqn:E; [exact Hd|]. apply Qeq_bool_neq in E.
  destruct (Qle_lt_or_eq _ _ Hx) as [Hlt|Heq]; [exact Hlt|].
  exfalso. apply E. now symmetry.
Qed.

(** X25.  A cost model built by the constructor from options that are not
    negative has positive variable, market-impact and spread rates, a
    positive impact exponent and a positive minimum trade size: a rate of
    zero gives way to the default.  So, with a positive daily volume, every
    trade it prices has a positive cost, made of a positive variable cost, a
    positive spread cost, and a fixed cost and a market impact that are not
    negative. *)
Theorem newTransactionCostModel_no_free_trade :
  forall (Math_pow : Q -> Q -> Q) (config : CostConfig)
         (tradeValue averageDailyVolume : Q) (b : CostBreakdown),
    nonneg_options config ->
    (forall base exponent, 0 <= base -> 0 <= Math_pow base exponent) ->
    0 < averageDailyVolume ->
    calculateTradeCost Math_pow (newTransactionCostModel config)
                       tradeValue averageDailyVolume = CostBreakdownOf b ->
    0 < minTradeSize (newTransactionCostModel config) <= Qabs tradeValue
    /\ 0 < marketImpactExponent (newTransactionCostModel config)
    /\ 0 <= cb_fixedCost b
    /\ 0 < cb_variableCost b
    /\ 0 <= cb_marketImpact b
    /\ 0 < cb_bidAskSpread b
    /\ 0 < cb_totalCost b.
Proof.
  intros Math_pow config v adv b [Hf [Hv [Hm [He [Hs Hmin]]]]] Hpow Hadv Hrun.
  set (m := newTransactionCostModel config) in *.
  assert (Hfixed : 0 <= fixedCost m).
  { unfold m, newTransactionCostModel. cbn [fixedCost].
    destruct (cfg_fixedCost config) as [x|]; cbn [JS.or_default option_nonneg] in *;
      [|lra].
    destruct (Qeq_bool x 0); [lra | exact Hf]. }
  assert (Hvar : 0 < variableCostBps m) by (apply or_default_positive; [exact Hv | reflexivity]).
  assert (Himp : 0 < marketImpactBps m) by (apply or_default_positive; [exact Hm | reflexivity]).
  assert (Hexp : 0 < marketImpactExponent m)
    by (apply or_default_positive; [exact He | reflexivity]).
  assert (Hspr : 0 < bidAskSpreadBps m) by (apply or_default_positive; [exact Hs | reflexivity]).
  assert (Hsize : 0 < minTradeSize m)
    by (apply or_default_positive; [exact Hmin | reflexivity]).
  clearbody m. unfold calculateTradeCost in Hrun.
  destruct (Qltb (Qabs v) (minTradeSize m)) eqn:E; [discriminate|].
  apply Qltb_false in E. inversion Hrun; subst b; clear Hrun.
  cbn [cb_fixedCost cb_variableCost cb_marketImpact cb_bidAskSpread cb_totalCost].
  assert (Habs : 0 < Qabs v) by lra.
  assert (Hrate : forall r, 0 < r -> 0 < Qabs v * (r / 10000)).
  { intros r Hr. apply Qmult_lt_0_compat; [exact Habs|].
    apply Qlt_shift_div_l; lra. }
  assert (Hratio : 0 <= Math_pow (Qabs v / adv) (marketImpactExponent m)).
  { apply Hpow. apply Qle_shift_div_l; lra. }
  assert (Himpact : 0 <= Qabs v * (marketImpactBps m / 10000)
                          * Math_pow (Qabs v / adv) (marketImpactExponent m)).
  { apply Qmult_le_0_compat; [|exact Hratio]. apply Qlt_le_weak, Hrate, Himp. }
  pose proof (Hrate _ Hvar) as Hvc. pose proof (Hrate _ Hspr) as Hsc.
  set (vc := Qabs v * (variableCostBps m / 10000)) in *.
  set (sc := Qabs v * (bidAskSpreadBps m / 10000)) in *.
  set (ic := Qabs v * (marketImpactBps m / 10000)
             * Math_pow (Qabs v / adv) (marketImpactExponent m)) in *.
  clearbody vc sc ic.
  repeat split; try assumption; lra.
Qed.

Lemma newTransactionCostModel_no_free_trade_witness :
  exists b : CostBreakdown,
    calculateTradeCost pow_integral
      (newTransactionCostModel
         (mkCostConfig None (Some 0) None (Some 1) (Some 0) None))
      (-50000) defaultAverageDailyVolume = CostBreakdownOf b
    /\ 0 < cb_variableCost b /\ 0 < cb_totalCost b.
Proof.
  eexists. split; [reflexivity|].
  destruct (newTransactionCostModel_no_free_trade
              pow_integral
              (mkCostConfig None (Some 0) None (Some 1) (Some 0) None)
              (-50000) defaultAverageDailyVolume _
              ltac:(cbv; intuition discriminate)
              ltac:(intros base exponent Hbase; apply Qpower_0_le; exact Hbase)
              ltac:(reflexivity)
              ltac:(reflexivity))
    as [_ [_ [_ [Hvar [_ [_ Htotal]]]]]].
  split; [exact Hvar | exact Htotal].
Defined.

(* --------------------------------------------------------------------- *)
(** ** Dates and quotes of a history *)

Lemma insert_sorted_perm (d : string) (l : list string) :
  Permutation (insert_sorted d l) (d :: l).
Proof.
  induction l as [|x l IH]; cbn [insert_sorted]; [reflexivity|].
  destruct (String.leb d x); [reflexivity|].
  etransitivity; [apply perm_skip, IH | apply perm_swap].
Qed.

Lemma sort_strings_perm (l : list string) : Permutation (sort_strings l) l.
Proof.
  unfold sort_strings. induction l as [|x l IH]; cbn [fold_right]; [reflexivity|].
  etransitivity; [apply insert_sorted_perm | apply perm_skip, IH].
Qed.

Lemma insert_sorted_sorted (d : string) (l : list string) :
  Sorted (fun a b => String.leb a b = true) l ->
  Sorted (fun a b => String.leb a b = true) (insert_sorted d l).
Proof.
  induction 1 as [|x l Hs IH Hhd]; cbn [insert_sorted].
  - repeat constructor.
  - destruct (String.leb d x) eqn:E.
    + constructor; [constructor; assumption | constructor; exact E].
    + assert (Hxd : String.leb x d = true).
      { destruct (String.leb_total d x) as [H|H]; [congruence | exact H]. }
      constructor; [exact IH|].
      destruct l as [|y l]; cbn [insert_sorted].
      * constructor. exact Hxd.
      * destruct (String.leb d y); constructor; [exact Hxd|].
        now inversion Hhd.
Qed.

Lemma sort_strings_sorted (l : list string) :
  Sorted (fun a b => String.leb a b = true) (sort_strings l).
Proof.
  unfold sort_strings. induction l as [|x l IH]; cbn [fold_right]; [constructor|].
  now apply insert_sorted_sorted.
Qed.

(** X26.  [getAllTradingDates] returns every date of the history once, in
    ascending order of its characters. *)
Theorem getAllTradingDates_sorted_set :
  forall historicalData : HistoricalData,
    Sorted (fun a b => String.leb a b = true) (getAllTradingDates historicalData)
    /\ NoDup (getAllTradingDates historicalData)
    /\ forall d, In d (getAllTradingDates historicalData)
                 <-> In d (all_dates historicalData).
Proof.
  intro hd. unfold getAllTradingDates.
  destruct (set_add_all (all_dates hd) [] (NoDup_nil _)) as [Hnd Hin].
  pose proof (sort_strings_perm
                (fold_left (fun seen d => set_add d seen) (all_dates hd) [])) as Hperm.
  split; [apply sort_strings_sorted|]. split.
  - eapply Permutation_NoDup; [apply Permutation_sym, Hperm | exact Hnd].
  - intro d. split.
    + intro Hd. apply (Permutation_in _ Hperm) in Hd. apply Hin in Hd.
      destruct Hd as [[]|Hd]. exact Hd.
    + intro Hd. apply (Permutation_in _ (Permutation_sym Hperm)). apply Hin. now right.
Qed.

Lemma lookup_not_key {V} (key : string) (o : list (string * V)) :
  ~ In key (map fst o) -> lookup key o = None.
Proof.
  intro Hnot. destruct (lookup key o) as [v|] eqn:E; [|reflexivity].
  exfalso. apply Hnot. apply lookup_In_keys. eauto.
Qed.

Lemma getPriceDataForDate_lookup (date symbol : string) (historicalData : HistoricalData) :
  NoDup (map fst historicalData) ->
  forall acc : list (string * Q),
    lookup symbol
           (fold_left (fun priceData entry =>
                         match find (fun d => String.eqb (dp_date d) date) (snd entry) with
                         | Some dataPoint =>
                             assign (fst entry) (dp_price dataPoint) priceData
                         | None => priceData
                         end)
                      historicalData acc)
    = match lookup symbol historicalData with
      | Some data =>
          match find (fun d => String.eqb (dp_date d) date) data with
          | Some dataPoint => Some (dp_price dataPoint)
          | None => lookup symbol acc
          end
      | None => lookup symbol acc
      end.
Proof.
  induction historicalData as [|[key data] rest IH]; intros Hnd acc;
    cbn [fold_left lookup map fst snd] in *; [reflexivity|].
  inversion Hnd as [|? ? Hnotin Hnd']; subst.
  rewrite (IH Hnd'). destruct (String.eqb key symbol) eqn:E.
  - apply String.eqb_eq in E. subst key.
    rewrite (lookup_not_key symbol rest Hnotin).
    destruct (find _ data) as [dataPoint|]; [apply lookup_assign_same | reflexivity].
  - assert (Hne : key <> symbol) by (intro H; subst; rewrite String.eqb_refl in E; discriminate).
    destruct (lookup symbol rest) as [data'|].
    + destruct (find _ data') as [dataPoint'|]; [reflexivity|].
      destruct (find _ data) as [dataPoint|]; [|reflexivity].
      now apply lookup_assign_other.
    + destruct (find _ data) as [dataPoint|]; [|reflexivity].
      now apply lookup_assign_other.
Qed.

(** X27.  The price map of a date holds, for each symbol, the price of its
    first quote on that date, and nothing for a symbol without a quote that
    day.  Marked to that map, a position keeps its shares; it takes the
    quoted price, and the value of its shares at that price, when the quote
    is not zero; and it keeps the price and the value it had when the symbol
    has no quote that day or is quoted at zero. *)
Theorem updatePrices_of_the_day :
  forall (historicalData : HistoricalData) (date symbol : string)
         (st : PortfolioState) (p : Position),
    NoDup (map fst historicalData) ->
    lookup symbol (positions st) = Some p ->
    lookup symbol (getPriceDataForDate historicalData date)
    = quote_on historicalData symbol date
    /\ exists p' : Position,
        lookup symbol
               (positions (updatePrices (getPriceDataForDate historicalData date) date st))
        = Some p'
        /\ shares p' = shares p
        /\ match quote_on historicalData symbol date with
           | Some price =>
               if Qeq_bool price 0
               then currentPrice p' = currentPrice p /\ value p' = value p
               else currentPrice p' = price /\ value p' = shares p * price
           | None => currentPrice p' = currentPrice p /\ value p' = value p
           end.
Proof.
  intros hd date symbol st p Hnd Hp.
  assert (Hquote : lookup symbol (getPriceDataForDate hd date) = quote_on hd symbol date).
  { unfold getPriceDataForDate, quote_on.
    rewrite (getPriceDataForDate_lookup date symbol hd Hnd []).
    destruct (lookup symbol hd) as [data|]; [|reflexivity].
    destruct (find _ data); reflexivity. }
  split; [exact Hquote|].
  rewrite updatePrices_positions.
  rewrite (lookup_map_values
             (fun s q => reweigh (totalValue (updatePrices (getPriceDataForDate hd date)
                                                           date st))
                                 (repriced (getPriceDataForDate hd date) s q))), Hp.
  cbn [option_map]. eexists. split; [reflexivity|].
  unfold repriced, truthy_price. rewrite Hquote.
  destruct (quote_on hd symbol date) as [price|]; [|split; [reflexivity | split; reflexivity]].
  destruct (Qeq_bool price 0); split; try reflexivity; split; reflexivity.
Qed.

Lemma updatePrices_of_the_day_witness :
  quote_on Example.history400 "BBB" (Example.date_name 300) = None
  /\ exists p' : Position,
      lookup "BBB"%string
             (positions (updatePrices
                           (getPriceDataForDate Example.history400 (Example.date_name 300))
                           (Example.date_name 300) Example.bought))
      = Some p'
      /\ currentPrice p' = 50.
Proof.
  assert (Hpos : exists p, lookup "BBB"%string (positions Example.bought) = Some p
                           /\ currentPrice p = 50)
    by (eexists; split; vm_compute; reflexivity).
  destruct Hpos as [p [Hp Hprice]].
  assert (Hnone : quote_on Example.history400 "BBB" (Example.date_name 300) = None)
    by (vm_compute; reflexivity).
  split; [exact Hnone|].
  destruct (updatePrices_of_the_day Example.history400 (Example.date_name 300) "BBB"
              Example.bought p) as [_ [p' [Hp' [_ Hkept]]]].
  - repeat constructor; cbn; intuition discriminate.
  - exact Hp.
  - exists p'. split; [exact Hp'|]. rewrite Hnone in Hkept.
    destruct Hkept as [Hcur _]. congruence.
Defined.

(* --------------------------------------------------------------------- *)
(** ** Rebalancing *)

Lemma check_drift_true (limit : Q) (currentWeights targets : list (string * Q)) :
  check_drift limit currentWeights targets = true
  <-> exists symbol target,
        In (symbol, target) targets
        /\ limit < Qabs (JS.or_default (lookup symbol currentWeights) 0 - target).
Proof.
  induction targets as [|[symbol target] rest IH]; cbn [check_drift].
  - split; [discriminate | intros [s [t [[] _]]]].
  - destruct (Qltb limit (Qabs (JS.or_default (lookup symbol currentWeights) 0 - target)))
      eqn:E.
    + apply Qltb_true in E. split; [|reflexivity].
      intros _. exists symbol, target. split; [now left | exact E].
    + apply Qltb_false in E. rewrite IH. split.
      * intros [s [t [Hin Hlt]]]. exists s, t. split; [now right | exact Hlt].
      * intros [s [t [[Heq|Hin] Hlt]]]; [inversion Heq; subst; lra|].
        exists s, t. split; assumption.
Qed.

Lemma getDaysBetween_shape (timestamp : string -> JS.num) (date1 date2 : string) :
  (exists days, getDaysBetween timestamp date1 date2 = JS.Fin days /\ 0 <= days)
  \/ getDaysBetween timestamp date1 date2 = JS.PosInf
  \/ getDaysBetween timestamp date1 date2 = JS.NaN.
Proof.
  unfold getDaysBetween. cbv zeta.
  destruct (JS.sub (timestamp date2) (timestamp date1)) as [x| | |];
    cbn [JSMath.abs JS.div]; try (right; left; reflexivity); try (right; right; reflexivity).
  left. cbn [JSMath.ceil]. eexists. split; [reflexivity|].
  change 0 with (inject_Z 0). rewrite <- Zle_Qle.
  change 0%Z with (Qceiling 0). apply Qceiling_resp_le.
  apply Qle_shift_div_l; [reflexivity|]. pose proof (Qabs_nonneg x). lra.
Qed.

Lemma or_default_zero (x : Q) : JS.or_default (Some x) 0 == x.
Proof.
  cbn [JS.or_default]. destruct (Qeq_bool x 0) eqn:E; [|reflexivity].
  apply Qeq_bool_iff in E. symmetry. exact E.
Qed.

Lemma check_drift_reads_targets (limit : Q) (currentWeights currentWeights' : list (string * Q))
      (targets : list (string * Q)) :
  (forall symbol target,
      In (symbol, target) targets ->
      lookup symbol currentWeights' = lookup symbol currentWeights) ->
  check_drift limit currentWeights' targets = check_drift limit currentWeights targets.
Proof.
  induction targets as [|[symbol target] rest IH]; intro Hsame; [reflexivity|].
  cbn [check_drift]. cbv zeta.
  rewrite (Hsame symbol target (or_introl eq_refl)).
  rewrite IH; [reflexivity|].
  intros sym t Hin. apply (Hsame sym t). now right.
Qed.

Lemma check_drift_on_target (limit : Q) (currentWeights targets : list (string * Q)) :
  0 <= limit ->
  (forall symbol target,
      In (symbol, target) targets -> lookup symbol currentWeights = Some target) ->
  check_drift limit currentWeights targets = false.
Proof.
  intros Hlimit. induction targets as [|[symbol target] rest IH]; intro Hheld;
    [reflexivity|].
  cbn [check_drift]. cbv zeta.
  rewrite (Hheld symbol target (or_introl eq_refl)).
  assert (Hzero : Qabs (JS.or_default (Some target) 0 - target) == 0).
  { rewrite or_default_zero. setoid_replace (target - target) with 0 by ring.
    reflexivity. }
  destruct (Qltb limit (Qabs (JS.or_default (Some target) 0 - target))) eqn:E.
  - apply Qltb_true in E. rewrite Hzero in E. lra.
  - apply IH. intros sym t Hin. apply (Hheld sym t). now right.
Qed.

Lemma check_drift_far_off (limit : Q) (currentWeights targets : list (string * Q))
      (symbol : string) (target held : Q) :
  0 < limit ->
  In (symbol, target) targets ->
  lookup symbol currentWeights = Some held ->
  2 * limit <= Qabs (held - target) ->
  check_drift limit currentWeights targets = true.
Proof.
  intros Hlimit Hin Hheld Hfar. apply check_drift_true.
  exists symbol, target. split; [exact Hin|]. rewrite Hheld, or_default_zero.
  set (drift := Qabs (held - target)) in *. clearbody drift. lra.
Qed.

(** X28.  [needsRebalancing] goes by the schedule first and by the drift
    second.  When a rebalance is on record fewer days ago than the frequency
    asks, its answer is that of [checkThresholdRebalancing]; in every other
    case (no rebalance on record, the frequency's days have passed, or a date
    that cannot be read) the answer is yes.  [checkThresholdRebalancing]
    reads the current weights at the target symbols only; with a threshold
    that is not negative it answers no when every target symbol is held at
    exactly its target weight, and with a positive threshold it answers yes
    when some target symbol is held at least twice the threshold away from
    its target weight. *)
Theorem needsRebalancing_schedule_then_drift :
  forall (timestamp : string -> JS.num) (s : RebalancingStrategy)
         (currentWeights : list (string * Q)) (date : string),
    let recent :=
      exists (last : string) (days : Q),
        lastRebalanceDate s = Some last /\ last <> ""%string
        /\ getDaysBetween timestamp last date = JS.Fin days
        /\ days < inject_Z (getFrequencyDays s) in
    (recent ->
     needsRebalancing timestamp s currentWeights date
     = checkThresholdRebalancing s currentWeights)
    /\ (~ recent -> needsRebalancing timestamp s currentWeights date = true)
    /\ (forall currentWeights' : list (string * Q),
           (forall symbol target,
               In (symbol, target) (targetWeights s) ->
               lookup symbol currentWeights' = lookup symbol currentWeights) ->
           checkThresholdRebalancing s currentWeights'
           = checkThresholdRebalancing s currentWeights)
    /\ (0 <= threshold s ->
        (forall symbol target,
            In (symbol, target) (targetWeights s) ->
            lookup symbol currentWeights = Some target) ->
        checkThresholdRebalancing s currentWeights = false)
    /\ (0 < threshold s ->
        (exists (symbol : string) (target held : Q),
            In (symbol, target) (targetWeights s)
            /\ lookup symbol currentWeights = Some held
            /\ 2 * threshold s <= Qabs (held - target)) ->
        checkThresholdRebalancing s currentWeights = true).
Proof.
  intros timestamp s cw date recent.
  assert (Hschedule :
            (recent -> needsRebalancing timestamp s cw date
                       = checkThresholdRebalancing s cw)
            /\ (~ recent -> needsRebalancing timestamp s cw date = true)).
  { unfold recent, needsRebalancing.
    destruct (lastRebalanceDate s) as [last|].
    2:{ split; [intros [l [d [Hl _]]]; discriminate | reflexivity]. }
    destruct (String.eqb_spec last "") as [Hempty|Hfull].
    { split; [|reflexivity]. intros [l [d [Hl [Hne _]]]].
      assert (l = last) by congruence. subst l. contradiction. }
    cbv zeta.
    destruct (getDaysBetween_shape timestamp last date)
      as [[days [Hdays Hnonneg]]|[Hinf|Hnan]].
    - rewrite Hdays. cbn [JS.gtb].
      destruct (Qltb days (inject_Z (getFrequencyDays s))) eqn:E.
      + split; [reflexivity|]. intro Hnot. exfalso. apply Hnot.
        apply Qltb_true in E. exists last, days. repeat split; auto.
      + split; [|reflexivity]. apply Qltb_false in E.
        intros [l [d [Hl [_ [Hd Hlt]]]]].
        assert (l = last) by congruence. subst l.
        rewrite Hdays in Hd. assert (Heq : days = d) by congruence. subst d. lra.
    - rewrite Hinf. cbn [JS.gtb]. split; [|reflexivity].
      intros [l [d [Hl [_ [Hd _]]]]].
      assert (l = last) by congruence. subst l. congruence.
    - rewrite Hnan. cbn [JS.gtb]. split; [|reflexivity].
      intros [l [d [Hl [_ [Hd _]]]]].
      assert (l = last) by congruence. subst l. congruence. }
  destruct Hschedule as [Hrecent Hdue].
  split; [exact Hrecent|]. split; [exact Hdue|].
  unfold checkThresholdRebalancing.
  split; [intros cw' Hsame; apply check_drift_reads_targets; exact Hsame|].
  split.
  - intros Hlimit Hheld. apply check_drift_on_target; assumption.
  - intros Hlimit [symbol [target [held [Hin [Hheld Hfar]]]]].
    apply (check_drift_far_off _ _ _ symbol target held); assumption.
Qed.

(** Ten days after its last rebalance the monthly 60/40 strategy goes by the
    drift: no when both symbols are at their targets, whatever else the
    portfolio holds, and yes when one of them is 15 points off. *)
Lemma needsRebalancing_schedule_then_drift_witness :
  needsRebalancing ten_day_clock sixty_forty
                   [("AAA"%string, 6 # 10); ("BBB"%string, 4 # 10)] "2024-01-11" = false
  /\ needsRebalancing ten_day_clock sixty_forty
                      [("CCC"%string, 1 # 10); ("AAA"%string, 6 # 10); ("BBB"%string, 4 # 10)]
                      "2024-01-11" = false
  /\ needsRebalancing ten_day_clock sixty_forty
                      [("AAA"%string, 75 # 100); ("BBB"%string, 25 # 100)] "2024-01-11" = true
  /\ needsRebalancing ten_day_clock sixty_forty
                      [("AAA"%string, 6 # 10); ("BBB"%string, 4 # 10)] "not a date" = true.
Proof.
  assert (Hrecent : exists (last : string) (days : Q),
             lastRebalanceDate sixty_forty = Some last /\ last <> ""%string
             /\ getDaysBetween ten_day_clock last "2024-01-11" = JS.Fin days
             /\ days < inject_Z (getFrequencyDays sixty_forty)).
  { exists "2024-01-01"%string. eexists.
    split; [reflexivity|]. split; [discriminate|].
    split; [vm_compute; reflexivity | reflexivity]. }
  assert (Hunread : ~ exists (last : string) (days : Q),
             lastRebalanceDate sixty_forty = Some last /\ last <> ""%string
             /\ getDaysBetween ten_day_clock last "not a date" = JS.Fin days
             /\ days < inject_Z (getFrequencyDays sixty_forty)).
  { intros [last [days [Hlast [_ [Hdays _]]]]].
    assert (last = "2024-01-01"%string) by (cbn in Hlast; congruence). subst last.
    vm_compute in Hdays. discriminate. }
  pose proof (needsRebalancing_schedule_then_drift ten_day_clock sixty_forty
                [("AAA"%string, 6 # 10); ("BBB"%string, 4 # 10)] "2024-01-11")
    as [Hgo [_ [Hreads [Hno _]]]].
  pose proof (needsRebalancing_schedule_then_drift ten_day_clock sixty_forty
                [("CCC"%string, 1 # 10); ("AAA"%string, 6 # 10); ("BBB"%string, 4 # 10)]
                "2024-01-11") as [Hgo' _].
  pose proof (needsRebalancing_schedule_then_drift ten_day_clock sixty_forty
                [("AAA"%string, 75 # 100); ("BBB"%string, 25 # 100)] "2024-01-11")
    as [Hgo'' [_ [_ [_ Hyes]]]].
  pose proof (needsRebalancing_schedule_then_drift ten_day_clock sixty_forty
                [("AAA"%string, 6 # 10); ("BBB"%string, 4 # 10)] "not a date")
    as [_ [Hdue _]].
  assert (Hheld : checkThresholdRebalancing sixty_forty
                    [("AAA"%string, 6 # 10); ("BBB"%string, 4 # 10)] = false).
  { apply Hno; [discriminate|].
    intros symbol target [H|[H|[]]]; inversion H; subst; reflexivity. }
  split; [rewrite (Hgo Hrecent); exact Hheld|].
  split.
  { rewrite (Hgo' Hrecent), <- Hheld. apply Hreads.
    intros symbol target [H|[H|[]]]; inversion H; subst; reflexivity. }
  split; [|exact (Hdue Hunread)].
  rewrite (Hgo'' Hrecent). apply Hyes; [reflexivity|].
  exists "AAA"%string, (6 # 10), (75 # 100).
  split; [now left|]. split; [reflexivity|]. vm_compute. discriminate.
Defined.

(* --------------------------------------------------------------------- *)
(** ** The walk-forward robustness score *)

Lemma ratio_fin (count length : nat) :
  (0 < length)%nat -> (count <= length)%nat ->
  exists q, JS.ratio count length = JS.Fin q /\ 0 <= q <= 1.
Proof.
  intros Hpos Hle. destruct (ratio_range count length Hle) as [q [Hq Hrange]].
  exists q. split; [|exact Hrange]. revert Hq. unfold JS.ratio, JS.div.
  destruct (Qeq_bool (inject_Z (Z.of_nat length)) 0) eqn:E; [|intro H; exact H].
  apply Qeq_bool_iff in E. exfalso.
  assert (0 < inject_Z (Z.of_nat length)).
  { change 0 with (inject_Z 0). rewrite <- Zlt_Qlt. lia. }
  lra.
Qed.

Lemma filter_twice {A} (f : A -> bool) (l : list A) :
  filter f (filter f l) = filter f l.
Proof.
  induction l as [|x l IH]; cbn [filter]; [reflexivity|].
  destruct (f x) eqn:E; [|exact IH]. cbn [filter]. rewrite E. now f_equal.
Qed.

(** X29.  The walk-forward robustness score is a finite number between 0 and
    1; it is 0 when no period succeeded; and failed periods do not enter it:
    the score of all periods is the score of the successful ones. *)
Theorem calculateRobustnessScore_range :
  forall periods : list WalkForwardPeriod,
    (exists q : Q, calculateRobustnessScore periods = JS.Fin q /\ 0 <= q <= 1)
    /\ (filter success periods = [] -> calculateRobustnessScore periods = JS.Fin 0)
    /\ calculateRobustnessScore (filter success periods)
       = calculateRobustnessScore periods.
Proof.
  intro periods. split; [|split].
  - unfold calculateRobustnessScore.
    destruct (filter success periods) as [|p ps] eqn:E.
    + exists 0. split; [reflexivity | lra].
    + cbv zeta. rewrite !length_map.
      destruct (ratio_fin
                  (List.length (filter (fun r => JS.gtb r (JS.Fin 0))
                                       (map (stat_or_zero oos_totalReturn) (p :: ps))))
                  (List.length (p :: ps)))
        as [a [Ha Hra]];
        [cbn [List.length]; lia
        | rewrite <- (length_map (stat_or_zero oos_totalReturn)); apply filter_at_most |].
      destruct (ratio_fin
                  (List.length (filter (fun r => JS.gtb r (JS.Fin 0))
                                       (map (stat_or_zero oos_sharpeRatio) (p :: ps))))
                  (List.length (p :: ps)))
        as [b [Hb Hrb]];
        [cbn [List.length]; lia
        | rewrite <- (length_map (stat_or_zero oos_sharpeRatio)); apply filter_at_most |].
      rewrite Ha, Hb. cbn [JS.add JS.div].
      exists ((a + b) / 2). split; [reflexivity|].
      split; [apply Qle_shift_div_l | apply Qle_shift_div_r]; lra.
  - intro Hnone. unfold calculateRobustnessScore. now rewrite Hnone.
  - unfold calculateRobustnessScore. now rewrite filter_twice.
Qed.

(* --------------------------------------------------------------------- *)
(** ** Market-capitalisation weights *)





